(** * mouseless: the layer/binding interpreter, the mouse tick and the
      keyboard reader, embedded from the Go sources.

    Two Go packages are embedded, one Rocq module each:
    - [Keyboard]  (keyboard/keyboard.go): [ReadLoop], [openDevice],
      [readKeyboard];
    - [Mouseless] (package main): [loadConfig], [exitError], [handleKey],
      [executeBinding] and the body of [mainLoop].

    Conventions.
    - [uint16] key codes are [Z]; only equality is ever used on them.
    - A Go pointer [*Layer] is [option addr]: [None] is nil, [Some a] the
      a-th allocated object.  Objects are never freed (garbage collection),
      so the heap is a list that only grows and an address is an index.
    - A [[]uint16] key combo is a reference to its backing array in the heap,
      so that writes through one slice are visible through every alias.
    - External calls (virtual keyboard and mouse, [sh -c]) are appended to a
      trace; log calls are appended to a log with their level.
    - [os.Exit] and run-time panics end a computation with their own
      outcome. *)

From Stdlib Require Import ZArith Floats.
From stdpp Require Import base option list gmap strings.

Local Open Scope Z_scope.

(** ** Shared vocabulary: log calls *)

Inductive Level := DebugLevel | InfoLevel | WarnLevel | ErrorLevel.

#[global] Instance Level_eq_dec : EqDecision Level.
Proof. solve_decision. Defined.

(** An argument of a log call.  Values whose rendering by [%v] is of no
    interest (structs, interface values) are kept as [ArgOpaque] with the
    name of the Go expression. *)
Inductive LogArg :=
| ArgString (s : string)
| ArgInt (z : Z)
| ArgOpaque (expr : string).

(** One call of logrus: level, format string, arguments. *)
Record LogEntry := mkLog {
  log_level : Level;
  log_format : string;
  log_args : list LogArg
}.

Definition at_level (lv : Level) (e : LogEntry) : bool :=
  bool_decide (log_level e = lv).

(** Constants of github.com/gvalkov/golang-evdev (Linux input.h). *)
Definition EV_KEY : Z := 1.
Definition KEY_ESC : Z := 1.

(** [time.Duration] is a count of nanoseconds. *)
Definition Millisecond : Z := 1000000.
Definition Second : Z := 1000 * Millisecond.
Definition MaxInt64 : Z := 2 ^ 63 - 1.

(** * Package keyboard *)

Module Keyboard.

Record Event := mkEvent {
  Code : Z;
  IsPress : bool;
  Time : Z
}.

Inductive DeviceState := StateNotOpen | StateOpenFailed | StateOpen.

#[global] Instance DeviceState_eq_dec : EqDecision DeviceState.
Proof. solve_decision. Defined.

(** What the reader uses of [evdev.InputDevice] and [evdev.InputEvent]. *)
Record InputDevice := mkInputDevice {
  dev_Name : string;
  dev_EvdevVersion : Z;
  dev_Bustype : Z;
  dev_Vendor : Z;
  dev_Product : Z;
  dev_Version : Z
}.

Record InputEvent := mkInputEvent {
  ev_Type : Z;
  ev_Code : Z;
  ev_Value : Z
}.

(** The [Device] struct.  Its [eventChan] is shared with the consumer and
    lives in the [World]. *)
Record Device := mkDevice {
  deviceName : string;
  device : option InputDevice;
  state : DeviceState;
  lastOpenError : string
}.

(** What a reader task acts on besides its own struct: the log, the events
    sent on [eventChan] (oldest first), the number of [time.Now] calls made
    so far and the number of [readKeyboard] tasks spawned. *)
Record World := mkWorld {
  logs : list LogEntry;
  eventChan : list Event;
  nowCalls : nat;
  spawned : nat
}.

Definition log (lv : Level) (fmt : string) (args : list LogArg) (w : World) : World :=
  mkWorld (logs w ++ [mkLog lv fmt args]) (eventChan w) (nowCalls w) (spawned w).

Definition send (e : Event) (w : World) : World :=
  mkWorld (logs w) (eventChan w ++ [e]) (nowCalls w) (spawned w).

Definition tick_clock (w : World) : World :=
  mkWorld (logs w) (eventChan w) (S (nowCalls w)) (spawned w).

Definition spawn_reader (w : World) : World :=
  mkWorld (logs w) (eventChan w) (nowCalls w) (S (spawned w)).

Definition set_state (s : DeviceState) (k : Device) : Device :=
  mkDevice (deviceName k) (device k) s (lastOpenError k).

Definition set_device (d : InputDevice) (k : Device) : Device :=
  mkDevice (deviceName k) (Some d) (state k) (lastOpenError k).

Definition set_lastOpenError (e : string) (k : Device) : Device :=
  mkDevice (deviceName k) (device k) (state k) e.

Definition NewKeyboardDevice (name : string) : Device :=
  mkDevice name None StateNotOpen "".

Definition IsOpen (k : Device) : bool := bool_decide (state k = StateOpen).
Definition DeviceName (k : Device) : string := deviceName k.
Definition LastOpenError (k : Device) : string := lastOpenError k.

(** The results of the two system calls of one open attempt:
    [evdev.Open(k.deviceName)] and, when it succeeds, [device.Grab()]. *)
Record OpenAttempt := mkAttempt {
  open_result : InputDevice + string;
  grab_result : option string
}.

(** The period of the ticker that paces [ReadLoop]. *)
Definition retryPeriod : Z := 5 * Second.

(** [openDevice]: returns the error ([None] is Go's nil). *)
Definition openDevice (att : OpenAttempt) (k : Device) (w : World)
  : option string * Device * World :=
  let w := log DebugLevel "opening the keyboard device %v" [ArgString (deviceName k)] w in
  match open_result att with
  | inr err => (Some err, set_state StateOpenFailed k, w)
  | inl dev =>
    match grab_result att with
    | Some err => (Some err, set_state StateOpenFailed k, w)
    | None =>
      let w := log DebugLevel "%v" [ArgOpaque "device"] w in
      let w := log DebugLevel "Device name: %s" [ArgString (dev_Name dev)] w in
      let w := log DebugLevel "Evdev protocol version: %d" [ArgInt (dev_EvdevVersion dev)] w in
      let w := log DebugLevel "Device info: %s" [ArgOpaque "info"] w in
      let k := set_device dev k in
      let k := set_state StateOpen k in
      (None, k, spawn_reader w)
    end
  end.

(** One turn of the [for] loop of [ReadLoop], up to the wait on the ticker. *)
Definition ReadLoop_body (att : OpenAttempt) (k : Device) (w : World) : Device * World :=
  if bool_decide (state k <> StateOpen) then
    match openDevice att k w with
    | (Some err, k, w) =>
      let k := set_lastOpenError err k in
      if bool_decide (state k = StateOpenFailed) then
        (k, log DebugLevel "Failed to open %v: %v" [ArgString (deviceName k); ArgString err] w)
      else
        (k, log WarnLevel "Failed to open %v: %v" [ArgString (deviceName k); ArgString err] w)
    | (None, k, w) => (k, w)
    end
  else (k, w).

(** [ReadLoop] over the first turns: the n-th turn starts [n * retryPeriod]
    after the first one and sees the n-th attempt's results. *)
Fixpoint ReadLoop (atts : list OpenAttempt) (k : Device) (w : World) : Device * World :=
  match atts with
  | [] => (k, w)
  | att :: atts => let '(k, w) := ReadLoop_body att k w in ReadLoop atts k w
  end.

Section Reader.

(** The key-alias table of package config and the reader's clock: the n-th
    call of [time.Now] returns [now n]. *)
Variable GetKeyAlias : Z -> option string.
Variable now : nat -> Z.

(** The body of [for _, event := range events] in [readKeyboard]. *)
Definition forwardEvent (event : InputEvent) (w : World) : World :=
  if bool_decide (ev_Type event = EV_KEY) then
    if bool_decide (ev_Value event = 0 \/ ev_Value event = 1) then
      let codeAlias := default "?" (GetKeyAlias (ev_Code event)) in
      let fmtString := "Pressed:  " in
      let fmtString := if bool_decide (ev_Value event = 0) then "Released: " else fmtString in
      let fmtString := (fmtString ++ "%s (%d)")%string in
      let w := log DebugLevel fmtString [ArgString codeAlias; ArgInt (ev_Code event)] w in
      let e := mkEvent (ev_Code event) (bool_decide (ev_Value event = 1)) (now (nowCalls w)) in
      send e (tick_clock w)
    else w
  else w.

Definition forwardEvents (events : list InputEvent) (w : World) : World :=
  foldl (fun w event => forwardEvent event w) w events.

(** [readKeyboard] over the results of the successive [k.device.Read()]
    calls; it returns when the state is not open or a read fails, and is
    blocked in [Read] when the results are used up. *)
Fixpoint readKeyboard (reads : list (list InputEvent + string)) (k : Device) (w : World)
  : Device * World :=
  if bool_decide (state k <> StateOpen) then (k, w) else
  match reads with
  | [] => (k, w)
  | inr err :: _ =>
    (set_state StateNotOpen k, log WarnLevel "Failed to read keyboard: %v" [ArgString err] w)
  | inl events :: reads => readKeyboard reads k (forwardEvents events w)
  end.

End Reader.

End Keyboard.

(** * Package main *)

Module Mouseless.

(** ** Data *)

Abbreviation addr := nat (only parsing).

(** A pointer or a slice reference: [None] is nil. *)
Definition ptr := option addr.

(** A slice that has a single owner (the two toggle stacks) is kept by
    value: [None] is the nil slice, [Some l] a slice with the elements [l]. *)
Definition slice (A : Type) := option (list A).

Definition slice_elems {A} (s : slice A) : list A := default [] s.
Definition slice_len {A} (s : slice A) : nat := length (slice_elems s).
(** [append(s, x)] *)
Definition slice_append {A} (s : slice A) (x : A) : slice A := Some (slice_elems s ++ [x]).
(** [s[:i]] for [i <= len(s)]; a nil slice stays nil. *)
Definition slice_upto {A} (i : nat) (s : slice A) : slice A := take i <$> s.

(** The dynamic value of a binding (an interface value).  [NilBinding] is
    the nil interface; [UnknownBinding] stands for a value of any type that
    no type switch of the program names. *)
#[local] Set Warnings "-register-all".
Inductive Binding :=
| NilBinding
| MultiBinding (Bindings : list Binding)
| TapHoldBinding (TapBinding HoldBinding : Binding)
| LayerBinding (layer : string)
| ToggleLayerBinding (layer : string)
| ReloadConfigBinding
| KeyBinding (KeyCombo : ptr)
| ButtonBinding (Button : Z)
| ExecBinding (Command : string)
| SpeedBinding (Speed : float)
| ScrollBinding (X Y : float)
| MoveBinding (X Y : float)
| UnknownBinding (type_name : string).

Definition is_nil (b : Binding) : bool :=
  match b with NilBinding => true | _ => false end.

Record Layer := mkLayer {
  Name : string;
  Bindings : gmap Z Binding;
  WildcardBinding : Binding;
  PassThrough : bool
}.

Record Config := mkConfig {
  Layers : list ptr;
  BaseMouseSpeed : float;
  StartMouseSpeed : float;
  BaseScrollSpeed : float;
  MouseAccelerationTime : float;
  MouseDecelerationTime : float;
  MouseAccelerationCurve : float;
  MouseDecelerationCurve : float
}.

(** The allocated objects: [Layer] structs and backing arrays of key
    combos, each addressed by its index. *)
Record Heap := mkHeap {
  layers : list Layer;
  arrays : list (list Z)
}.

Record KeyboardEvent := mkKeyboardEvent {
  code : Z;
  isPress : bool;
  holdKey : bool
}.

(** Calls that leave the interpreter. [PressKeys] records the slice it is
    given and the contents of that slice at the call. *)
Inductive Effect :=
| PressKeys (owner : Z) (keys : ptr) (contents : list Z)
| KeyboardOriginalKeyUp (owner : Z)
| MouseOriginalKeyUp (owner : Z)
| ButtonPress (owner : Z) (button : Z)
| CmdRun (command : string) (key key_code : Z)
| MouseScroll (x y : float)
| MouseMove (x y startSpeed maxSpeed accelCurve accelStep decelCurve decelStep speedFactor : float)
| Sleep (d : Z).

(** The package-level variables of main, the heap, the log and the trace. *)
Record State := mkState {
  configFile : string;
  config : option Config;
  heap : Heap;
  currentLayer : ptr;
  toggleLayerKeys : slice Z;
  toggleLayerPrevious : slice ptr;
  logs : list LogEntry;
  effects : list Effect
}.

(** What the program calls but this package does not define. *)
Record Env := mkEnv {
  (** [readConfig(file)]: the [*Config], the error, and the heap with the
      objects the parser allocated. *)
  readConfig : string -> Heap -> option Config * option string * Heap;
  (** the error of [cmd.Run()] for [sh -c command] with the two variables *)
  cmdRun : string -> Z -> Z -> option string;
  keyAliasesReversed : Z -> Z;
  WildcardKey : Z;
  (** the order in which [range] visits a map *)
  rangeBindings : gmap Z Binding -> list (Z * Binding);
  (** [mouse.IsMoving()], a function of the calls the mouse has received *)
  IsMoving : list Effect -> bool
}.

(** ** The interpreter monad: state, exit and panic *)

Inductive Outcome (A : Type) :=
| Ok (a : A) (st : State)
| Exit (status : Z) (st : State)
| Panic (st : State).
Arguments Ok {A} a st.
Arguments Exit {A} status st.
Arguments Panic {A} st.

Definition M (A : Type) := State -> Outcome A.

Definition ret {A} (a : A) : M A := fun st => Ok a st.

Definition bind {A B} (c : M A) (k : A -> M B) : M B := fun st =>
  match c st with
  | Ok a st' => k a st'
  | Exit n st' => Exit n st'
  | Panic st' => Panic st'
  end.

Declare Scope m_scope.
Delimit Scope m_scope with m.
Notation "x <- c ;; k" := (bind c (fun x => k))
  (at level 100, c at next level, right associativity) : m_scope.
Notation "c ;; k" := (bind c (fun _ => k))
  (at level 100, right associativity) : m_scope.
Local Open Scope m_scope.

Definition get : M State := fun st => Ok st st.
Definition modify (f : State -> State) : M unit := fun st => Ok tt (f st).
Definition panic {A} : M A := fun st => Panic st.
Definition os_Exit {A} (status : Z) : M A := fun st => Exit status st.

Definition set_config (c : option Config) (st : State) : State :=
  mkState (configFile st) c (heap st) (currentLayer st)
          (toggleLayerKeys st) (toggleLayerPrevious st) (logs st) (effects st).
Definition set_heap (h : Heap) (st : State) : State :=
  mkState (configFile st) (config st) h (currentLayer st)
          (toggleLayerKeys st) (toggleLayerPrevious st) (logs st) (effects st).
Definition set_currentLayer (p : ptr) (st : State) : State :=
  mkState (configFile st) (config st) (heap st) p
          (toggleLayerKeys st) (toggleLayerPrevious st) (logs st) (effects st).
Definition set_toggleLayerKeys (s : slice Z) (st : State) : State :=
  mkState (configFile st) (config st) (heap st) (currentLayer st)
          s (toggleLayerPrevious st) (logs st) (effects st).
Definition set_toggleLayerPrevious (s : slice ptr) (st : State) : State :=
  mkState (configFile st) (config st) (heap st) (currentLayer st)
          (toggleLayerKeys st) s (logs st) (effects st).
Definition add_log (e : LogEntry) (st : State) : State :=
  mkState (configFile st) (config st) (heap st) (currentLayer st)
          (toggleLayerKeys st) (toggleLayerPrevious st) (logs st ++ [e]) (effects st).
Definition add_effect (e : Effect) (st : State) : State :=
  mkState (configFile st) (config st) (heap st) (currentLayer st)
          (toggleLayerKeys st) (toggleLayerPrevious st) (logs st) (effects st ++ [e]).
Definition set_arrays (a : list (list Z)) (st : State) : State :=
  set_heap (mkHeap (layers (heap st)) a) st.

Definition logf (lv : Level) (fmt : string) (args : list LogArg) : M unit :=
  modify (add_log (mkLog lv fmt args)).
Definition emit (e : Effect) : M unit := modify (add_effect e).

(** [l[i]]: an index out of range panics. *)
Definition index {A} (l : list A) (i : nat) : M A :=
  match l !! i with Some x => ret x | None => panic end.

(** The [Layer] a pointer refers to, if any. *)
Definition layerAt (h : Heap) (p : ptr) : option Layer :=
  a ← p; layers h !! a.

(** [*p] for a [*Layer]: nil panics. *)
Definition derefLayer (p : ptr) : M Layer := fun st =>
  match layerAt (heap st) p with
  | Some L => Ok L st
  | None => Panic st
  end.

(** [*config] *)
Definition derefConfig : M Config := fun st =>
  match config st with Some c => Ok c st | None => Panic st end.

(** *** Key-combo slices in the heap *)

(** The elements of a [[]uint16]; the nil slice has none. *)
Definition loadSlice (s : ptr) : M (list Z) := fun st =>
  match s with
  | None => Ok [] st
  | Some a => match arrays (heap st) !! a with Some l => Ok l st | None => Panic st end
  end.

(** A slice over a new backing array with the given elements. *)
Definition allocSlice (l : list Z) : M ptr := fun st =>
  Ok (Some (length (arrays (heap st)))) (set_arrays (arrays (heap st) ++ [l]) st).

(** [make([]uint16, n)] *)
Definition make (n : nat) : M ptr := allocSlice (replicate n 0%Z).

(** [s[i]] *)
Definition loadIndex (s : ptr) (i : nat) : M Z :=
  l <- loadSlice s ;; index l i.

(** [s[i] = v] *)
Definition storeIndex (s : ptr) (i : nat) (v : Z) : M unit := fun st =>
  match s with
  | None => Panic st
  | Some a =>
    match arrays (heap st) !! a with
    | Some l => if bool_decide (i < length l)%nat
                then Ok tt (set_arrays (<[a := <[i := v]> l]> (arrays (heap st))) st)
                else Panic st
    | None => Panic st
    end
  end.

(** [copy(dst, src)]: the first [min(len(dst), len(src))] elements. *)
Definition copy (dst src : ptr) : M unit :=
  d <- loadSlice dst ;;
  s <- loadSlice src ;;
  let n := (length d `min` length s)%nat in
  match dst with
  | None => ret tt
  | Some a => fun st => Ok tt (set_arrays (<[a := take n s ++ drop n d]> (arrays (heap st))) st)
  end.

(** ** The program *)

Section Program.

Variable env : Env.

Definition mouseLoopInterval : Z := 20 * Millisecond.

Definition exitError {A} (err : option string) (msg : string) : M A :=
  match err with
  | Some e => logf ErrorLevel (msg ++ ": %v") [ArgString e]
  | None => logf ErrorLevel msg []
  end ;;
  logf ErrorLevel "Exiting" [] ;;
  os_Exit 1.

Definition loadConfig : M unit :=
  st <- get ;;
  let '(c, err, h) := readConfig env (configFile st) (heap st) in
  modify (set_heap h) ;;
  modify (set_config c) ;;
  match err with
  | Some _ => exitError err "Failed to read the config file"
  | None => ret tt
  end ;;
  (* set initial layer *)
  cfg <- derefConfig ;;
  l0 <- index (Layers cfg) 0 ;;
  modify (set_currentLayer l0) ;;
  L0 <- derefLayer l0 ;;
  logf DebugLevel "Switching to initial layer %s" [ArgString (Name L0)].

(** [for _, layer := range ls { if layer.Name == name { found(layer); break } }] *)
Fixpoint forLayers (name : string) (found : ptr -> Layer -> M unit) (ls : list ptr) : M unit :=
  match ls with
  | [] => ret tt
  | layer :: ls =>
    L <- derefLayer layer ;;
    if bool_decide (Name L = name) then found layer L
    else forLayers name found ls
  end.

(** [for i, key := range keys { if key == WildcardKey { keys[i] = code } }],
    over the indices [idxs] still to visit. *)
Fixpoint replaceWildcards (keys : ptr) (c : Z) (idxs : list nat) : M unit :=
  match idxs with
  | [] => ret tt
  | i :: idxs =>
    key <- loadIndex keys i ;;
    (if bool_decide (key = WildcardKey env) then storeIndex keys i c else ret tt) ;;
    replaceWildcards keys c idxs
  end.

(** [executeBinding] does what needs to be done for the given binding. *)
Fixpoint executeBinding (event : KeyboardEvent) (binding : Binding) {struct binding} : M unit :=
  logf DebugLevel "Executing %T: %+v" [ArgOpaque "binding"; ArgOpaque "binding"] ;;
  match binding with
  | MultiBinding bs =>
    (fix each (bs : list Binding) : M unit :=
       match bs with
       | [] => ret tt
       | b :: bs => executeBinding event b ;; each bs
       end) bs
  | TapHoldBinding tap hold =>
    if holdKey event then executeBinding event hold
    else executeBinding event tap
  | LayerBinding name =>
    if isPress event then
      (* deactivate any toggled layers *)
      st <- get ;;
      match toggleLayerPrevious st with
      | Some _ =>
        modify (set_toggleLayerKeys None) ;;
        modify (set_toggleLayerPrevious None)
      | None => ret tt
      end ;;
      cfg <- derefConfig ;;
      forLayers name
        (fun layer L =>
           logf DebugLevel "Switching to layer %v" [ArgString (Name L)] ;;
           modify (set_currentLayer layer))
        (Layers cfg)
    else ret tt
  | ToggleLayerBinding name =>
    if isPress event then
      cfg <- derefConfig ;;
      forLayers name
        (fun layer L =>
           logf DebugLevel "Switching to layer %v" [ArgString (Name L)] ;;
           modify (fun st => set_toggleLayerKeys
                               (slice_append (toggleLayerKeys st) (code event)) st) ;;
           modify (fun st => set_toggleLayerPrevious
                               (slice_append (toggleLayerPrevious st) (currentLayer st)) st) ;;
           modify (set_currentLayer layer))
        (Layers cfg)
    else ret tt
  | ReloadConfigBinding =>
    if isPress event then loadConfig else ret tt
  | KeyBinding combo =>
    if isPress event then
      (* replace any wildcard with the key that was pressed *)
      src <- loadSlice combo ;;
      keys <- make (length src) ;;
      copy keys combo ;;
      replaceWildcards keys (code event) (seq 0 (length src)) ;;
      contents <- loadSlice keys ;;
      emit (PressKeys (code event) keys contents)
    else ret tt
  | ButtonBinding button =>
    if isPress event then emit (ButtonPress (code event) button) else ret tt
  | ExecBinding command =>
    if isPress event then
      logf DebugLevel "Executing: %s" [ArgString command] ;;
      (* pass the pressed key as environment variable *)
      emit (CmdRun command (keyAliasesReversed env (code event)) (code event)) ;;
      match cmdRun env command (keyAliasesReversed env (code event)) (code event) with
      | Some err => logf WarnLevel "Execution of command failed: %v" [ArgString err]
      | None => ret tt
      end
    else ret tt
  | NilBinding | SpeedBinding _ | ScrollBinding _ _ | MoveBinding _ _
  | UnknownBinding _ => ret tt
  end.

(** The index of the first element equal to [c], as [range] finds it. *)
Fixpoint findKey (c : Z) (keys : list Z) (i : nat) : option nat :=
  match keys with
  | [] => None
  | key :: keys => if bool_decide (key = c) then Some i else findKey c keys (S i)
  end.

(** The binding [handleKey] resolves for an event on the layer [L]. *)
Definition resolveBinding (event : KeyboardEvent) (L : Layer) : M Binding :=
  let binding := default NilBinding (Bindings L !! code event) in
  (* switch to first layer on escape, if not mapped to something else *)
  binding <-
    (if is_nil binding && bool_decide (code event = KEY_ESC) && isPress event then
       st <- get ;;
       cfg <- derefConfig ;;
       l0 <- index (Layers cfg) 0 ;;
       if bool_decide (currentLayer st <> l0) then
         L0 <- derefLayer l0 ;;
         ret (LayerBinding (Name L0))
       else ret binding
     else ret binding) ;;
  (* use the wildcard binding if no binding is defined for the key *)
  let binding :=
    if is_nil binding && negb (is_nil (WildcardBinding L)) then WildcardBinding L
    else binding in
  (* if there is no wildcard either and pass through is enabled, insert a KeyBinding *)
  if is_nil binding && PassThrough L then
    keys <- allocSlice [code event] ;;
    ret (KeyBinding keys)
  else ret binding.

(** [handleKey] handles a single key event (press or release). *)
Definition handleKey (event : KeyboardEvent) : M unit :=
  st <- get ;;
  L <- derefLayer (currentLayer st) ;;
  binding <- resolveBinding event L ;;
  (* go back to the previous layer when toggleLayerKey is released *)
  (if negb (isPress event) then
     st <- get ;;
     match findKey (code event) (slice_elems (toggleLayerKeys st)) 0 with
     | Some i =>
       prev <- index (slice_elems (toggleLayerPrevious st)) i ;;
       modify (set_currentLayer prev) ;;
       P <- derefLayer prev ;;
       logf DebugLevel "Switching to layer %v" [ArgString (Name P)] ;;
       (* all layers that have been toggled after the current one are removed as well *)
       modify (set_toggleLayerKeys (slice_upto i (toggleLayerKeys st))) ;;
       modify (set_toggleLayerPrevious (slice_upto i (toggleLayerPrevious st)))
     | None => ret tt
     end
   else ret tt) ;;
  (* inform the keyboard and mouse about key releases *)
  (if negb (isPress event) then
     emit (KeyboardOriginalKeyUp (code event)) ;;
     emit (MouseOriginalKeyUp (code event))
   else ret tt) ;;
  executeBinding event binding.

(** *** The body of [mainLoop] *)

(** [float64(n)] for a count [0 <= n < 2^63]. *)
Definition float64 (n : Z) : float := PrimFloat.of_uint63 (Uint63.of_Z n).

(** [Duration.Seconds] of package time. *)
Definition Seconds (d : Z) : float :=
  (float64 (d `quot` Second) + float64 (d `rem` Second) / 1e9)%float.

(** [x != 0] on float64 *)
Definition nonzero (x : float) : bool := negb (x =? 0)%float.

Record Motion := mkMotion {
  moveX : float;
  moveY : float;
  scrollX : float;
  scrollY : float;
  speedFactor : float
}.

(** One turn of [for code, binding := range currentLayer.Bindings];
    [pressed] is [tapHoldHandler.IsKeyPressed]. *)
Definition accumulate (pressed : Z -> bool) (m : Motion) (entry : Z * Binding) : Motion :=
  if pressed entry.1 then
    match entry.2 with
    | SpeedBinding s =>
      mkMotion (moveX m) (moveY m) (scrollX m) (scrollY m) (speedFactor m * s)%float
    | ScrollBinding x y =>
      mkMotion (moveX m) (moveY m) (scrollX m + x)%float (scrollY m + y)%float (speedFactor m)
    | MoveBinding x y =>
      mkMotion (moveX m + x)%float (moveY m + y)%float (scrollX m) (scrollY m) (speedFactor m)
    | _ => m
    end
  else m.

(** "check if at least one device is opened" *)
Definition checkDevices (devices : list Keyboard.Device) : M unit :=
  let oneDeviceOpen :=
    foldl (fun open device => if Keyboard.IsOpen device then true else open) false devices in
  if negb oneDeviceOpen then
    logf WarnLevel "No keyboard device could be opened:" [] ;;
    (fix each (i : Z) (ds : list Keyboard.Device) : M unit :=
       match ds with
       | [] => ret tt
       | device :: ds =>
         logf WarnLevel "Device %d: %s: %s"
              [ArgInt (i + 1); ArgString (Keyboard.DeviceName device);
               ArgString (Keyboard.LastOpenError device)] ;;
         each (i + 1)%Z ds
       end) 0%Z devices ;;
    emit (Sleep (10 * Second))
  else ret tt.

(** "handle mouse movement and scrolling"; the result is the duration of the
    timer that replaces [mouseTimer]. *)
Definition mouseTick (pressed : Z -> bool) : M Z :=
  st <- get ;;
  L <- derefLayer (currentLayer st) ;;
  let m := foldl (accumulate pressed) (mkMotion 0 0 0 0 1) (rangeBindings env (Bindings L)) in
  if nonzero (moveX m) || nonzero (moveY m) || nonzero (scrollX m) || nonzero (scrollY m)
     || IsMoving env (effects st) then
    cfg <- derefConfig ;;
    let tickTime := Seconds mouseLoopInterval in
    let moveSpeed := (BaseMouseSpeed cfg * tickTime)%float in
    let scrollSpeed := (BaseScrollSpeed cfg * tickTime)%float in
    let accelerationStep := (tickTime * 1000 / MouseAccelerationTime cfg)%float in
    let decelerationStep := (tickTime * 1000 / MouseDecelerationTime cfg)%float in
    emit (MouseScroll (scrollX m * scrollSpeed * speedFactor m)%float
                      (scrollY m * scrollSpeed * speedFactor m)%float) ;;
    emit (MouseMove (moveX m * moveSpeed)%float (moveY m * moveSpeed)%float
                    (StartMouseSpeed cfg * tickTime)%float
                    (BaseMouseSpeed cfg * tickTime)%float
                    (MouseAccelerationCurve cfg)
                    accelerationStep
                    (MouseDecelerationCurve cfg)
                    decelerationStep
                    (speedFactor m)) ;;
    ret mouseLoopInterval
  else ret MaxInt64.

(** One turn of the [for] loop of [mainLoop]: [event] is what the [select]
    received ([None] when the timer fired). *)
Definition mainLoop_body (event : option KeyboardEvent) (devices : list Keyboard.Device)
    (pressed : Z -> bool) : M Z :=
  match event with
  | Some e => handleKey e
  | None => ret tt
  end ;;
  checkDevices devices ;;
  mouseTick pressed.

End Program.

End Mouseless.

(** * A configuration to run the interpreter on

    Three layers.  The initial layer L0 passes keys through and toggles L1
    while CapsLock (58) is held.  L1 toggles L2 while F1 (59) is held, reloads
    the configuration on R (19) and names a layer that does not exist on T
    (20).  L2 sends every key with Shift (42) through a wildcard combo, except
    J (36), a [Move] binding with no motion, and K (37), a [Speed] binding. *)

Module Fixture.

Import Mouseless.

Definition wildcard : Z := 65535.

Definition L0 : Layer :=
  mkLayer "L0" {[ 58 := ToggleLayerBinding "L1" ]} NilBinding true.
Definition L1 : Layer :=
  mkLayer "L1" {[ 59 := ToggleLayerBinding "L2"; 19 := ReloadConfigBinding;
                  20 := LayerBinding "nowhere" ]} NilBinding false.
Definition L2 : Layer :=
  mkLayer "L2" {[ 36 := MoveBinding 0 (-0); 37 := SpeedBinding 4 ]}
          (KeyBinding (Some 0%nat)) false.

Definition heap0 : Heap := mkHeap [L0; L1; L2] [[42; wildcard]].

Definition config0 : Config :=
  mkConfig [Some 0%nat; Some 1%nat; Some 2%nat] 1000 100 10 200 200 1 1.

(** The layers of the edited configuration file: one layer, a new name. *)
Definition L0' : Layer := mkLayer "base" ∅ NilBinding true.

(** What the program holds before [main] calls [loadConfig]: nothing is
    allocated and every package-level variable has its zero value. *)
Definition st_boot : State :=
  mkState "config.yaml" None (mkHeap [] []) None None None [] [].

(** The parser.  The first time (nothing is allocated yet) the file holds
    the three layers above.  Later the file has been edited: the parser
    then allocates the edited file's layer as a new object. *)
Definition readConfig_ok (file : string) (h : Heap)
  : option Config * option string * Heap :=
  match layers h with
  | [] => (Some config0, None, heap0)
  | _ => (Some (mkConfig [Some (length (layers h))] 1000 100 10 200 200 1 1), None,
          mkHeap (layers h ++ [L0']) (arrays h))
  end.

(** The same start, but the file is later broken: the parser then fails. *)
Definition readConfig_fails (file : string) (h : Heap)
  : option Config * option string * Heap :=
  match layers h with
  | [] => (Some config0, None, heap0)
  | _ => (None, Some "yaml: line 3: did not find expected key"%string, h)
  end.

Definition env_with (rc : string -> Heap -> option Config * option string * Heap) : Env :=
  mkEnv rc (fun _ _ _ => None) (fun c => c) wildcard map_to_list (fun _ => false).

Definition env_ok : Env := env_with readConfig_ok.
Definition env_fails : Env := env_with readConfig_fails.

(** The state [loadConfig] leaves at start-up. *)
Definition st0 : State :=
  mkState "config.yaml" (Some config0) heap0 (Some 0%nat) None None
          [mkLog DebugLevel "Switching to initial layer %s" [ArgString "L0"]] [].

Definition press (c : Z) : KeyboardEvent := mkKeyboardEvent c true false.
Definition release (c : Z) : KeyboardEvent := mkKeyboardEvent c false false.

(** The state after CapsLock (58) has been pressed in [st0]: L1 is current
    and the stack holds the key and the layer it came from. *)
Definition st_held58 : State :=
  mkState "config.yaml" (Some config0) heap0 (Some 1%nat) (Some [58]) (Some [Some 0%nat])
          [mkLog DebugLevel "Switching to initial layer %s" [ArgString "L0"];
           mkLog DebugLevel "Executing %T: %+v" [ArgOpaque "binding"; ArgOpaque "binding"];
           mkLog DebugLevel "Switching to layer %v" [ArgString "L1"]]
          [].

(** The state after F1 (59) has been pressed as well: L2 is current. *)
Definition st_held58_59 : State :=
  mkState "config.yaml" (Some config0) heap0 (Some 2%nat)
          (Some [58; 59]) (Some [Some 0%nat; Some 1%nat])
          [mkLog DebugLevel "Switching to initial layer %s" [ArgString "L0"];
           mkLog DebugLevel "Executing %T: %+v" [ArgOpaque "binding"; ArgOpaque "binding"];
           mkLog DebugLevel "Switching to layer %v" [ArgString "L1"];
           mkLog DebugLevel "Executing %T: %+v" [ArgOpaque "binding"; ArgOpaque "binding"];
           mkLog DebugLevel "Switching to layer %v" [ArgString "L2"]]
          [].

(** [handleKey] on the events of a list, one after the other. *)
Fixpoint handleKeys (env : Env) (events : list KeyboardEvent) : M unit :=
  match events with
  | [] => ret tt
  | e :: events => bind (handleKey env e) (fun _ => handleKeys env events)
  end.

(** The final state of a run that neither exits nor panics. *)
Definition final (o : Outcome unit) : option State :=
  match o with Ok _ st => Some st | _ => None end.

(** The interpreter's own variables. *)
Definition interp (st : State) : ptr * slice Z * slice ptr :=
  (currentLayer st, toggleLayerKeys st, toggleLayerPrevious st).

End Fixture.

(** * Start-up and the main loop

    The parts of package main around the interpreter: the detection of
    keyboard devices at start-up and the [for] loop of [mainLoop]. *)

Definition KEY_A : Z := 30.
Definition KEY_KP1 : Z := 79.

(** The line feed that ends a format string. *)
Definition line_feed : string :=
  String (Ascii.Ascii false true false true false false false false) EmptyString.

(** The fields of the evdev library's types that the program reads.
    [Capabilities] is a Go map: the list holds its entries in the order in
    which the [range] statement visits them. *)
Module Evdev.

Record CapabilityType := mkCapabilityType { cap_Type : Z; cap_Name : string }.
Record CapabilityCode := mkCapabilityCode { Code : Z; code_Name : string }.

Record InputDevice := mkInputDevice {
  Fn : string;
  Name : string;
  Capabilities : list (CapabilityType * list CapabilityCode)
}.

End Evdev.

Module Main.

Import Mouseless.

Section Detection.

(** [evdev.ListInputDevices]: the devices and an error. *)
Variable ListInputDevices : string -> slice Evdev.InputDevice * option string.

(** The loop over the codes of one capability: at the first code that is
    [KEY_A] or [KEY_KP1] the device is appended and the loop is left. *)
Fixpoint scanCodes (dev : Evdev.InputDevice) (codes : list Evdev.CapabilityCode)
    (keyboardDevices : slice Evdev.InputDevice) : slice Evdev.InputDevice :=
  match codes with
  | [] => keyboardDevices
  | code :: codes =>
    if bool_decide (Evdev.Code code = KEY_A) || bool_decide (Evdev.Code code = KEY_KP1)
    then slice_append keyboardDevices dev
    else scanCodes dev codes keyboardDevices
  end.

(** The loop over the capabilities of one device. *)
Definition scanCapabilities (dev : Evdev.InputDevice)
    (keyboardDevices : slice Evdev.InputDevice) : slice Evdev.InputDevice :=
  foldl (fun keyboardDevices '(capType, codes) =>
           if bool_decide (Evdev.cap_Type capType = EV_KEY)
           then scanCodes dev codes keyboardDevices
           else keyboardDevices)
        keyboardDevices (Evdev.Capabilities dev).

Definition findKeyboardDevices : M (slice Evdev.InputDevice) :=
  let '(devices, _) := ListInputDevices "/dev/input/event*" in
  let keyboardDevices :=
    foldl (fun keyboardDevices dev => scanCapabilities dev keyboardDevices)
          None (slice_elems devices) in
  (logf DebugLevel "Auto detected keyboard devices:" [] ;;
   foldr (fun dev rest =>
            logf DebugLevel ("- %s: %s" ++ line_feed)%string
                 [ArgString (Evdev.Fn dev); ArgString (Evdev.Name dev)] ;;
            rest)
         (ret tt) (slice_elems keyboardDevices) ;;
   ret keyboardDevices)%m.

End Detection.

Section Loop.

Variable env : Env.

(** What the [select] of a turn of [mainLoop] received ([None] when the timer
    fired), the keyboard devices as the reader goroutines have left them, and
    the keys [tapHoldHandler.IsKeyPressed] reports as held. *)
Definition Turn : Type := option KeyboardEvent * list Keyboard.Device * (Z -> bool).

(** The [for] loop of [mainLoop], for the turns of a list; the timer a turn
    arms decides, with the keyboard, what the next [select] receives. *)
Fixpoint mainLoop (turns : list Turn) : M unit :=
  match turns with
  | [] => ret tt
  | (event, devices, pressed) :: turns =>
    (mainLoop_body env event devices pressed ;; mainLoop turns)%m
  end.

End Loop.

End Main.

(** * A configuration without [ReloadConfig]

    The initial layer passes keys through, toggles "nav" on CapsLock (58),
    sends a combo and runs a command on A (30) and has a tap-hold on Z (44);
    "nav" moves the pointer on J (36) and sends every other key with Shift
    (42). *)
Module PlainFixture.

Import Mouseless.

Definition base : Layer :=
  mkLayer "base"
          {[ 58 := ToggleLayerBinding "nav";
             30 := MultiBinding [KeyBinding (Some 0%nat); ExecBinding "notify-send a"];
             44 := TapHoldBinding (KeyBinding (Some 1%nat)) (LayerBinding "nav") ]}
          NilBinding true.

Definition nav : Layer :=
  mkLayer "nav" {[ 36 := MoveBinding (-1) 0 ]} (KeyBinding (Some 2%nat)) false.

Definition config0 : Config :=
  mkConfig [Some 0%nat; Some 1%nat] 1000 100 10 200 200 1 1.

Definition heap0 : Heap := mkHeap [base; nav] [[30]; [44]; [42; Fixture.wildcard]].

Definition st0 : State :=
  mkState "config.yaml" (Some config0) heap0 (Some 0%nat) None None [] [].

(** The parser finds that configuration in the file; every command fails. *)
Definition env : Env :=
  mkEnv (fun _ _ => (Some config0, None, heap0))
        (fun _ _ _ => Some "exit status 1"%string) (fun c => c)
        Fixture.wildcard map_to_list (fun _ => false).

End PlainFixture.

(** * Properties of the keyboard reader *)

Section KeyboardReader.

Import Keyboard.

Variable GetKeyAlias : Z -> option string.
Variable now : nat -> Z.

(** The reader's filter: key-type events with value 0 or 1. *)
Definition forwarded (event : InputEvent) : Prop :=
  ev_Type event = EV_KEY /\ (ev_Value event = 0 \/ ev_Value event = 1).

#[local] Instance forwarded_dec event : Decision (forwarded event).
Proof. unfold forwarded. apply _. Defined.

Lemma forwardEvent_forwarded event w :
  forwarded event ->
  forwardEvent GetKeyAlias now event w =
    send (mkEvent (ev_Code event) (bool_decide (ev_Value event = 1)) (now (nowCalls w)))
         (tick_clock
            (log DebugLevel
                 ((if bool_decide (ev_Value event = 0) then "Released: " else "Pressed:  ")
                    ++ "%s (%d)")%string
                 [ArgString (default "?" (GetKeyAlias (ev_Code event))); ArgInt (ev_Code event)]
                 w)).
Proof.
  intros [Ht Hv]. unfold forwardEvent.
  rewrite !bool_decide_eq_true_2 by done. reflexivity.
Qed.

Lemma forwardEvent_dropped event w :
  ~ forwarded event -> forwardEvent GetKeyAlias now event w = w.
Proof.
  intros Hn. unfold forwardEvent.
  case_bool_decide as Ht; [|done].
  case_bool_decide as Hv; [|done].
  destruct Hn. by split.
Qed.

Lemma forwardEvents_chan events : forall w,
  (fun e => (Code e, IsPress e)) <$> eventChan (forwardEvents GetKeyAlias now events w) =
  ((fun e => (Code e, IsPress e)) <$> eventChan w) ++
  ((fun event => (ev_Code event, bool_decide (ev_Value event = 1))) <$>
     filter forwarded events).
Proof.
  induction events as [|event events IH]; intros w; simpl.
  - by rewrite app_nil_r.
  - unfold forwardEvents in *. simpl. rewrite IH.
    destruct (decide (forwarded event)) as [Hf|Hf].
    + rewrite filter_cons_True by done.
      rewrite forwardEvent_forwarded by done. simpl.
      rewrite fmap_app, <- app_assoc. reflexivity.
    + rewrite filter_cons_False by done.
      by rewrite forwardEvent_dropped.
Qed.

End KeyboardReader.

(** * Properties of the open/retry loop *)

Section KeyboardReadLoop.

Import Keyboard.

(** An attempt fails when [evdev.Open] or [Grab] returns an error. *)
Definition attempt_error (att : OpenAttempt) : option string :=
  match open_result att with
  | inr err => Some err
  | inl _ => grab_result att
  end.

Lemma openDevice_failure att k w err :
  attempt_error att = Some err ->
  openDevice att k w =
    (Some err, set_state StateOpenFailed k,
     log DebugLevel "opening the keyboard device %v" [ArgString (deviceName k)] w).
Proof.
  unfold attempt_error, openDevice.
  destruct (open_result att) as [dev|e]; [destruct (grab_result att)|]; congruence.
Qed.

(** The levels of the entries a turn of the loop adds for a failed attempt:
    [openDevice] has already moved the device to [StateOpenFailed] when the
    loop chooses the level. *)
Lemma ReadLoop_body_failure att k w err :
  state k <> StateOpen ->
  attempt_error att = Some err ->
  ReadLoop_body att k w =
    (mkDevice (deviceName k) (device k) StateOpenFailed err,
     log DebugLevel "Failed to open %v: %v" [ArgString (deviceName k); ArgString err]
         (log DebugLevel "opening the keyboard device %v" [ArgString (deviceName k)] w)).
Proof.
  intros Hs Ha. unfold ReadLoop_body.
  rewrite bool_decide_eq_true_2 by done.
  rewrite (openDevice_failure _ _ _ _ Ha). reflexivity.
Qed.

(** C5 (as the code behaves).  A turn of [ReadLoop] never logs at warn
    level, whatever the device's state and the attempt's results: the warn
    entries of the log are the same before and after.  In particular the
    first failed attempt on a new device is logged at debug level. *)
Theorem ReadLoop_never_warns :
  (forall att k w,
     filter (fun e => log_level e = WarnLevel) (logs (ReadLoop_body att k w).2) =
     filter (fun e => log_level e = WarnLevel) (logs w)) /\
  (forall name err w,
     ReadLoop_body (mkAttempt (inr err) None) (NewKeyboardDevice name) w =
       (mkDevice name None StateOpenFailed err,
        mkWorld (logs w ++ [mkLog DebugLevel "opening the keyboard device %v" [ArgString name];
                            mkLog DebugLevel "Failed to open %v: %v"
                                  [ArgString name; ArgString err]])
                (eventChan w) (nowCalls w) (spawned w))).
Proof.
  split.
  - intros att k w. unfold ReadLoop_body.
    case_bool_decide as Hs; [|done].
    destruct (attempt_error att) as [err|] eqn:Ha.
    + rewrite (openDevice_failure _ _ _ _ Ha). simpl.
      rewrite !filter_app. simpl.
      rewrite !filter_cons_False, !filter_nil, !app_nil_r by (simpl; congruence).
      reflexivity.
    + unfold attempt_error in Ha. unfold openDevice.
      destruct (open_result att) as [dev|e]; [|done]. rewrite Ha. simpl.
      rewrite !filter_app. simpl.
      rewrite !filter_cons_False, !filter_nil, !app_nil_r by (simpl; congruence).
      reflexivity.
  - intros name err w.
    rewrite (ReadLoop_body_failure _ _ _ err) by done.
    simpl. unfold log. simpl. by rewrite <- app_assoc.
Qed.

End KeyboardReadLoop.

(** * Properties of the interpreter *)

Section LayerSwitching.

Import Mouseless.

Variable env : Env.

(** The entry every call of [executeBinding] logs first. *)
Definition executing : LogEntry :=
  mkLog DebugLevel "Executing %T: %+v" [ArgOpaque "binding"; ArgOpaque "binding"].

(** The state with more log entries and nothing else changed. *)
Definition with_logs (l : list LogEntry) (st : State) : State :=
  mkState (configFile st) (config st) (heap st) (currentLayer st)
          (toggleLayerKeys st) (toggleLayerPrevious st) (logs st ++ l) (effects st).

Lemma with_logs_nil st : with_logs [] st = st.
Proof. destruct st. unfold with_logs. simpl. by rewrite app_nil_r. Qed.

Lemma with_logs_app l1 l2 st : with_logs l2 (with_logs l1 st) = with_logs (l1 ++ l2) st.
Proof. unfold with_logs. simpl. by rewrite app_assoc. Qed.

Lemma add_log_with_logs e st : add_log e st = with_logs [e] st.
Proof. reflexivity. Qed.

(** What a [Layer] press does to the two stacks. *)
Definition drop_toggles (st : State) : State :=
  match toggleLayerPrevious st with
  | Some _ => set_toggleLayerPrevious None (set_toggleLayerKeys None st)
  | None => st
  end.

(** No layer of [ls] is called [name]; every pointer of [ls] is live. *)
Definition no_layer_named (h : Heap) (name : string) (ls : list ptr) : Prop :=
  Forall (fun p => exists L, layerAt h p = Some L /\ Name L <> name) ls.

Lemma forLayers_no_match name found ls st :
  no_layer_named (heap st) name ls ->
  forLayers name found ls st = Ok tt st.
Proof.
  induction 1 as [|p ls (L & HL & Hn) _ IH]; simpl; [done|].
  unfold bind, derefLayer. rewrite HL.
  by rewrite bool_decide_eq_false_2.
Qed.

Lemma forLayers_first_match name found pre p L post st :
  no_layer_named (heap st) name pre ->
  layerAt (heap st) p = Some L ->
  Name L = name ->
  forLayers name found (pre ++ p :: post) st = found p L st.
Proof.
  intros Hpre HL Hn.
  induction Hpre as [|q pre (Lq & HLq & Hq) _ IH]; simpl.
  - unfold bind, derefLayer. rewrite HL. by rewrite bool_decide_eq_true_2.
  - unfold bind, derefLayer. rewrite HLq. by rewrite bool_decide_eq_false_2.
Qed.

Lemma executeBinding_Layer_press event name st :
  isPress event = true ->
  executeBinding env event (LayerBinding name) st =
    match config st with
    | Some cfg =>
      forLayers name
        (fun layer L =>
           logf DebugLevel "Switching to layer %v" [ArgString (Name L)] ;;
           modify (set_currentLayer layer))%m
        (Layers cfg) (drop_toggles (add_log executing st))
    | None => Panic (drop_toggles (add_log executing st))
    end.
Proof.
  intros Hp. simpl. rewrite Hp.
  unfold bind, logf, modify, get, derefConfig, drop_toggles. simpl.
  destruct (toggleLayerPrevious st); simpl; by destruct (config st).
Qed.

Lemma executeBinding_ToggleLayer_press event name st :
  isPress event = true ->
  executeBinding env event (ToggleLayerBinding name) st =
    match config st with
    | Some cfg =>
      forLayers name
        (fun layer L =>
           logf DebugLevel "Switching to layer %v" [ArgString (Name L)] ;;
           modify (fun st => set_toggleLayerKeys
                               (slice_append (toggleLayerKeys st) (code event)) st) ;;
           modify (fun st => set_toggleLayerPrevious
                               (slice_append (toggleLayerPrevious st) (currentLayer st)) st) ;;
           modify (set_currentLayer layer))%m
        (Layers cfg) (add_log executing st)
    | None => Panic (add_log executing st)
    end.
Proof.
  intros Hp. simpl. rewrite Hp.
  unfold bind, logf, modify, derefConfig. simpl. by destruct (config st).
Qed.

(** A binding whose variant has no case with an effect in the type switch. *)
Definition inert (b : Binding) : bool :=
  match b with
  | NilBinding | SpeedBinding _ | ScrollBinding _ _ | MoveBinding _ _
  | UnknownBinding _ => true
  | _ => false
  end.

Lemma executeBinding_inert event b st :
  inert b = true -> executeBinding env event b st = Ok tt (add_log executing st).
Proof. by destruct b. Qed.

(** The first layer of [ls] called [name], as the [range] loops find it. *)
Fixpoint lookupLayer (h : Heap) (name : string) (ls : list ptr) : option (ptr * Layer) :=
  match ls with
  | [] => None
  | p :: ls =>
    match layerAt h p with
    | Some L => if bool_decide (Name L = name) then Some (p, L) else lookupLayer h name ls
    | None => None
    end
  end.

(** Every pointer of the list refers to a layer. *)
Definition all_live (h : Heap) (ls : list ptr) : Prop :=
  Forall (fun p => is_Some (layerAt h p)) ls.

Lemma forLayers_lookup name found ls st :
  all_live (heap st) ls ->
  forLayers name found ls st =
    match lookupLayer (heap st) name ls with
    | Some (p, L) => found p L st
    | None => Ok tt st
    end.
Proof.
  induction 1 as [|p ls [L HL] _ IH]; simpl; [done|].
  unfold bind, derefLayer. rewrite HL. by case_bool_decide.
Qed.

Lemma no_layer_named_live h name ls : no_layer_named h name ls -> all_live h ls.
Proof.
  intros H. eapply Forall_impl; [exact H|].
  intros p (L & -> & _). by eexists.
Qed.

Lemma lookupLayer_elem h name ls p L :
  lookupLayer h name ls = Some (p, L) -> p ∈ ls /\ layerAt h p = Some L /\ Name L = name.
Proof.
  induction ls as [|q ls IH]; simpl; [done|].
  destruct (layerAt h q) as [Lq|] eqn:Hq; [|done].
  case_bool_decide as Hn.
  - intros [= <- <-]. split_and!; [left|done..].
  - intros H. destruct (IH H) as (? & ? & ?). split_and!; [by right|done..].
Qed.

(** C6 (amended).  Let [name] be the name of no layer of [config.Layers].
    Executing [ToggleLayer name], on a press or a release, changes nothing
    but the log.  Executing [Layer name] on a release changes nothing but
    the log; on a press it leaves [currentLayer] as it is but still drops
    the momentary stack: when [toggleLayerPrevious] is not nil both
    [toggleLayerKeys] and [toggleLayerPrevious] become nil.  A binding of a
    variant with no effect in the type switch (nil, Move, Scroll, Speed or an
    unknown type) changes nothing but the log. *)
Theorem unknown_layer_name event name st cfg :
  config st = Some cfg ->
  no_layer_named (heap st) name (Layers cfg) ->
  executeBinding env event (ToggleLayerBinding name) st = Ok tt (add_log executing st) /\
  executeBinding env event (LayerBinding name) st =
    Ok tt (if isPress event then drop_toggles (add_log executing st)
           else add_log executing st) /\
  currentLayer (drop_toggles (add_log executing st)) = currentLayer st /\
  toggleLayerPrevious (drop_toggles (add_log executing st)) = None /\
  toggleLayerKeys (drop_toggles (add_log executing st)) =
    match toggleLayerPrevious st with
    | Some _ => None
    | None => toggleLayerKeys st
    end /\
  (forall b, inert b = true ->
     executeBinding env event b st = Ok tt (add_log executing st)).
Proof.
  intros Hc Hn. split_and!.
  - destruct (isPress event) eqn:Hp.
    + rewrite executeBinding_ToggleLayer_press, Hc by done.
      by apply forLayers_no_match.
    + simpl. by rewrite Hp.
  - destruct (isPress event) eqn:Hp.
    + rewrite executeBinding_Layer_press, Hc by done.
      apply forLayers_no_match.
      unfold drop_toggles. simpl. by destruct (toggleLayerPrevious st).
    + simpl. by rewrite Hp.
  - unfold drop_toggles. simpl. by destruct (toggleLayerPrevious st).
  - unfold drop_toggles. simpl.
    by destruct (toggleLayerPrevious st) eqn:Hprev; simpl; rewrite ?Hprev.
  - unfold drop_toggles. simpl. by destruct (toggleLayerPrevious st).
  - intros b Hb. by apply executeBinding_inert.
Qed.

(** C7.  In a state whose two stacks have the same length and whose
    configuration's layers are all live, executing a [Layer] binding on a
    press returns, with both [toggleLayerKeys] and [toggleLayerPrevious]
    empty; the stack is dropped before the layers are searched, and
    [currentLayer] becomes the first layer with the binding's name, if there
    is one.  A [ToggleLayer] press for an existing layer executed in the
    resulting state leaves exactly one entry on each stack: its own key and
    the layer that was current.  On a release a [Layer] binding changes
    nothing but the log. *)
Theorem Layer_press_clears_stack event name st cfg :
  config st = Some cfg ->
  all_live (heap st) (Layers cfg) ->
  slice_len (toggleLayerKeys st) = slice_len (toggleLayerPrevious st) ->
  (isPress event = true ->
   exists st',
     executeBinding env event (LayerBinding name) st = Ok tt st' /\
     forLayers name
       (fun layer L =>
          logf DebugLevel "Switching to layer %v" [ArgString (Name L)] ;;
          modify (set_currentLayer layer))%m
       (Layers cfg) (drop_toggles (add_log executing st)) = Ok tt st' /\
     slice_len (toggleLayerKeys st') = 0%nat /\
     slice_len (toggleLayerPrevious st') = 0%nat /\
     currentLayer st' =
       match lookupLayer (heap st) name (Layers cfg) with
       | Some (p, _) => p
       | None => currentLayer st
       end /\
     forall event2 name2 p2 L2,
       isPress event2 = true ->
       lookupLayer (heap st) name2 (Layers cfg) = Some (p2, L2) ->
       exists st'',
         executeBinding env event2 (ToggleLayerBinding name2) st' = Ok tt st'' /\
         toggleLayerKeys st'' = Some [code event2] /\
         toggleLayerPrevious st'' = Some [currentLayer st'] /\
         currentLayer st'' = p2) /\
  (isPress event = false ->
   executeBinding env event (LayerBinding name) st = Ok tt (add_log executing st)).
Proof.
  intros Hc Hl Hlen. split; [|by intros Hp; simpl; rewrite Hp].
  intros Hp.
  rewrite executeBinding_Layer_press, Hc by done.
  set (st1 := drop_toggles (add_log executing st)).
  assert (Hh1 : heap st1 = heap st)
    by (unfold st1, drop_toggles; simpl; by destruct (toggleLayerPrevious st)).
  assert (Hc1 : config st1 = Some cfg)
    by (unfold st1, drop_toggles; simpl; by destruct (toggleLayerPrevious st)).
  assert (Hcur1 : currentLayer st1 = currentLayer st)
    by (unfold st1, drop_toggles; simpl; by destruct (toggleLayerPrevious st)).
  assert (Hk1 : slice_len (toggleLayerKeys st1) = 0%nat).
  { unfold st1, drop_toggles. simpl.
    destruct (toggleLayerPrevious st) eqn:Hprev; simpl; [done|].
    by rewrite Hlen. }
  assert (Hp1 : slice_len (toggleLayerPrevious st1) = 0%nat).
  { unfold st1, drop_toggles. simpl.
    by destruct (toggleLayerPrevious st) eqn:Hprev; simpl; [|rewrite Hprev]. }
  rewrite forLayers_lookup by (by rewrite Hh1).
  rewrite Hh1.
  assert (exists st',
    match lookupLayer (heap st) name (Layers cfg) with
    | Some (p, L) =>
      (logf DebugLevel "Switching to layer %v" [ArgString (Name L)] ;;
       modify (set_currentLayer p))%m st1
    | None => Ok tt st1
    end = Ok tt st' /\
    heap st' = heap st /\ config st' = Some cfg /\
    toggleLayerKeys st' = toggleLayerKeys st1 /\
    toggleLayerPrevious st' = toggleLayerPrevious st1 /\
    currentLayer st' = match lookupLayer (heap st) name (Layers cfg) with
                       | Some (p, _) => p
                       | None => currentLayer st
                       end) as (st' & Hrun & Hh' & Hc' & Hk' & Hp' & Hcur').
  { destruct (lookupLayer (heap st) name (Layers cfg)) as [[p L]|].
    - eexists. split; [reflexivity|]. simpl. by rewrite Hh1, Hc1.
    - exists st1. by rewrite Hh1, Hc1, Hcur1. }
  exists st'. rewrite Hrun. split_and!; [done|done|by rewrite Hk'|by rewrite Hp'|done|].
  intros event2 name2 p2 L2 Hp2 Hlook.
  rewrite executeBinding_ToggleLayer_press by done. simpl. rewrite Hc'.
  rewrite forLayers_lookup by (simpl; by rewrite Hh'). simpl. rewrite Hh', Hlook.
  eexists. split; [reflexivity|]. simpl.
  unfold slice_len in Hk1, Hp1. rewrite Hk', Hp'.
  apply length_zero_iff_nil in Hk1, Hp1.
  unfold slice_append. by rewrite Hk1, Hp1.
Qed.

End LayerSwitching.

Lemma st0_reached :
  Mouseless.loadConfig Fixture.env_ok Fixture.st_boot = Mouseless.Ok tt Fixture.st0 /\
  Mouseless.loadConfig Fixture.env_fails Fixture.st_boot = Mouseless.Ok tt Fixture.st0.
Proof. split; reflexivity. Qed.

Lemma st_held58_reached :
  Mouseless.handleKey Fixture.env_ok (Fixture.press 58) Fixture.st0
  = Mouseless.Ok tt Fixture.st_held58.
Proof. vm_compute. reflexivity. Qed.

Lemma fixture_no_layer_nowhere :
  no_layer_named Fixture.heap0 "nowhere" (Mouseless.Layers Fixture.config0).
Proof.
  repeat constructor; eexists; (split; [reflexivity|discriminate]).
Defined.

Lemma fixture_all_live : all_live Fixture.heap0 (Mouseless.Layers Fixture.config0).
Proof. repeat constructor; eexists; reflexivity. Defined.

(** C6 as stated fails: with CapsLock held (L1 current, one entry on each
    stack), a press of T executes [Layer "nowhere"]; no layer has that name,
    yet both stacks are gone afterwards. *)
Lemma unknown_layer_name_counterexample :
  no_layer_named (Mouseless.heap Fixture.st_held58) "nowhere"
                 (Mouseless.Layers Fixture.config0) /\
  Mouseless.toggleLayerKeys Fixture.st_held58 = Some [58] /\
  Mouseless.toggleLayerPrevious Fixture.st_held58 = Some [Some 0%nat] /\
  exists st',
    Mouseless.executeBinding Fixture.env_ok (Fixture.press 20)
                             (Mouseless.LayerBinding "nowhere") Fixture.st_held58
    = Mouseless.Ok tt st' /\
    Mouseless.toggleLayerKeys st' = None /\
    Mouseless.toggleLayerPrevious st' = None /\
    Mouseless.toggleLayerKeys st' <> Mouseless.toggleLayerKeys Fixture.st_held58 /\
    Mouseless.toggleLayerPrevious st' <> Mouseless.toggleLayerPrevious Fixture.st_held58.
Proof.
  split; [exact fixture_no_layer_nowhere|]. split; [reflexivity|]. split; [reflexivity|].
  eexists. split; [vm_compute; reflexivity|]. simpl. done.
Qed.

(** C6 (amended), on an instance: the same state and the same key, for
    [ToggleLayer "nowhere"] and for [Layer "nowhere"]. *)
Lemma unknown_layer_name_witness :
  Mouseless.executeBinding Fixture.env_ok (Fixture.press 20)
                           (Mouseless.ToggleLayerBinding "nowhere") Fixture.st_held58
  = Mouseless.Ok tt (Mouseless.add_log executing Fixture.st_held58) /\
  Mouseless.executeBinding Fixture.env_ok (Fixture.press 20)
                           (Mouseless.LayerBinding "nowhere") Fixture.st_held58
  = Mouseless.Ok tt (drop_toggles (Mouseless.add_log executing Fixture.st_held58)).
Proof.
  destruct (unknown_layer_name Fixture.env_ok (Fixture.press 20) "nowhere"
              Fixture.st_held58 Fixture.config0 eq_refl fixture_no_layer_nowhere)
    as (H1 & H2 & _).
  split; [exact H1|exact H2].
Defined.

(** C7, on an instance: with CapsLock held, [Layer "L2"] is executed on a
    press; both stacks end empty and L2 is current. *)
Lemma Layer_press_clears_stack_witness :
  exists st',
    Mouseless.executeBinding Fixture.env_ok (Fixture.press 20)
                             (Mouseless.LayerBinding "L2") Fixture.st_held58
    = Mouseless.Ok tt st' /\
    Mouseless.slice_len (Mouseless.toggleLayerKeys st') = 0%nat /\
    Mouseless.slice_len (Mouseless.toggleLayerPrevious st') = 0%nat /\
    Mouseless.currentLayer st' = Some 2%nat.
Proof.
  destruct (Layer_press_clears_stack Fixture.env_ok (Fixture.press 20) "L2"
              Fixture.st_held58 Fixture.config0 eq_refl fixture_all_live eq_refl)
    as [H _].
  destruct (H eq_refl) as (st' & Hrun & _ & Hk & Hp & Hcur & _).
  exists st'. split; [exact Hrun|]. split; [exact Hk|]. split; [exact Hp|exact Hcur].
Defined.

(** * Binding resolution *)

Section Resolution.

Import Mouseless.

(** The condition of the Escape bail-out, [l0] being [config.Layers[0]]. *)
Definition bails_out (event : KeyboardEvent) (st : State) (l0 : ptr) : Prop :=
  code event = KEY_ESC /\ isPress event = true /\ currentLayer st <> l0.

#[local] Instance bails_out_dec event st l0 : Decision (bails_out event st l0).
Proof. unfold bails_out. apply _. Defined.

(** The binding stored for the event's code; nil when there is none. *)
Definition exact_binding (event : KeyboardEvent) (L : Layer) : Binding :=
  default NilBinding (Bindings L !! code event).

(** C3 (amended).  With [config.Layers[0]] live, [handleKey] resolves the
    binding of an event on the layer [L] in this order: the binding stored
    for the code, if it is not nil; else, when the event is a press of Escape
    and [currentLayer] is not the initial layer, a [Layer] binding to the
    initial layer, whether or not [L] has a wildcard binding; else the
    wildcard binding, if it is not nil; else, when [L] passes through, a
    [Key] binding over a new one-element slice holding the code; else nil. *)
Theorem resolveBinding_precedence event L st cfg l0 L0 :
  config st = Some cfg ->
  Layers cfg !! 0%nat = Some l0 ->
  layerAt (heap st) l0 = Some L0 ->
  (is_nil (exact_binding event L) = false ->
     resolveBinding event L st = Ok (exact_binding event L) st) /\
  (is_nil (exact_binding event L) = true -> bails_out event st l0 ->
     resolveBinding event L st = Ok (LayerBinding (Name L0)) st) /\
  (is_nil (exact_binding event L) = true -> ~ bails_out event st l0 ->
     is_nil (WildcardBinding L) = false ->
     resolveBinding event L st = Ok (WildcardBinding L) st) /\
  (is_nil (exact_binding event L) = true -> ~ bails_out event st l0 ->
     is_nil (WildcardBinding L) = true -> PassThrough L = true ->
     resolveBinding event L st =
       Ok (KeyBinding (Some (length (arrays (heap st)))))
          (set_arrays (arrays (heap st) ++ [[code event]]) st)) /\
  (is_nil (exact_binding event L) = true -> ~ bails_out event st l0 ->
     is_nil (WildcardBinding L) = true -> PassThrough L = false ->
     resolveBinding event L st = Ok NilBinding st).
Proof.
  intros Hc Hl0 HL0.
  assert (Hesc : forall b,
    (if is_nil b && bool_decide (code event = KEY_ESC) && isPress event
     then (st0 <- get ;; cfg0 <- derefConfig ;; l1 <- index (Layers cfg0) 0 ;;
           if bool_decide (currentLayer st0 <> l1)
           then L1 <- derefLayer l1 ;; ret (LayerBinding (Name L1))
           else ret b)%m
     else ret b) st =
    Ok (if is_nil b && bool_decide (bails_out event st l0)
        then LayerBinding (Name L0) else b) st).
  { intros b. destruct (is_nil b); [|done]. cbn [andb].
    destruct (decide (bails_out event st l0)) as [(He & Hp & Hne)|Hn].
    - rewrite (bool_decide_eq_true_2 (bails_out event st l0)) by done.
      rewrite (bool_decide_eq_true_2 (code event = KEY_ESC)), Hp by done. cbn [andb].
      unfold bind, get, derefConfig, index, derefLayer, ret.
      rewrite Hc, Hl0. rewrite bool_decide_eq_true_2 by done. by rewrite HL0.
    - rewrite (bool_decide_eq_false_2 (bails_out event st l0)) by done.
      case_bool_decide as He; [|done].
      destruct (isPress event) eqn:Hp; [|done]. cbn [andb].
      unfold bind, get, derefConfig, index, derefLayer, ret.
      rewrite Hc, Hl0. rewrite bool_decide_eq_false_2; [done|].
      intros Hne. by apply Hn. }
  assert (Hres : resolveBinding event L st =
    let b1 := if is_nil (exact_binding event L) && bool_decide (bails_out event st l0)
              then LayerBinding (Name L0) else exact_binding event L in
    let b2 := if is_nil b1 && negb (is_nil (WildcardBinding L))
              then WildcardBinding L else b1 in
    if is_nil b2 && PassThrough L
    then Ok (KeyBinding (Some (length (arrays (heap st)))))
            (set_arrays (arrays (heap st) ++ [[code event]]) st)
    else Ok b2 st).
  { unfold resolveBinding. fold (exact_binding event L).
    unfold bind at 1. rewrite Hesc. cbv zeta.
    by destruct (_ && PassThrough L). }
  rewrite Hres. clear Hres Hesc. cbv zeta.
  split_and!.
  - intros Hb. by repeat (rewrite Hb; cbn [andb]).
  - intros Hb Hbail. by rewrite Hb, bool_decide_eq_true_2.
  - intros Hb Hbail Hw. rewrite bool_decide_eq_false_2 by done.
    by repeat (rewrite ?Hb, ?Hw; progress cbn [andb negb]).
  - intros Hb Hbail Hw Hpt. rewrite bool_decide_eq_false_2 by done.
    by repeat (rewrite ?Hb, ?Hw, ?Hpt; progress cbn [andb negb]).
  - intros Hb Hbail Hw Hpt. rewrite bool_decide_eq_false_2 by done.
    repeat (rewrite ?Hb, ?Hw, ?Hpt; progress cbn [andb negb]).
    f_equal. by destruct (exact_binding event L).
Qed.

End Resolution.

Lemma st_held58_59_reached :
  Mouseless.handleKey Fixture.env_ok (Fixture.press 59) Fixture.st_held58
  = Mouseless.Ok tt Fixture.st_held58_59.
Proof. vm_compute. reflexivity. Qed.

(** C3 as stated fails: with CapsLock and F1 held, L2 is current; it has a
    wildcard binding and no binding for Escape, and it is not the initial
    layer.  A press of Escape resolves to [Layer "L0"], not to the
    wildcard binding. *)
Lemma resolveBinding_precedence_counterexample :
  Mouseless.layerAt (Mouseless.heap Fixture.st_held58_59)
                    (Mouseless.currentLayer Fixture.st_held58_59) = Some Fixture.L2 /\
  Mouseless.Bindings Fixture.L2 !! KEY_ESC = None /\
  Mouseless.WildcardBinding Fixture.L2 = Mouseless.KeyBinding (Some 0%nat) /\
  Mouseless.resolveBinding (Fixture.press KEY_ESC) Fixture.L2 Fixture.st_held58_59
  = Mouseless.Ok (Mouseless.LayerBinding "L0") Fixture.st_held58_59 /\
  Mouseless.resolveBinding (Fixture.press KEY_ESC) Fixture.L2 Fixture.st_held58_59
  <> Mouseless.Ok (Mouseless.WildcardBinding Fixture.L2) Fixture.st_held58_59.
Proof.
  split_and!; [reflexivity..| |].
  - vm_compute. reflexivity.
  - vm_compute. discriminate.
Qed.

(** C3 (amended), on an instance: the bail-out case of the same press. *)
Lemma resolveBinding_precedence_witness :
  Mouseless.resolveBinding (Fixture.press KEY_ESC) Fixture.L2 Fixture.st_held58_59
  = Mouseless.Ok (Mouseless.LayerBinding "L0") Fixture.st_held58_59.
Proof.
  refine (proj1 (proj2 (resolveBinding_precedence (Fixture.press KEY_ESC) Fixture.L2
                          Fixture.st_held58_59 Fixture.config0 (Some 0%nat) Fixture.L0
                          eq_refl eq_refl eq_refl)) eq_refl _).
  split; [reflexivity|]. split; [reflexivity|]. simpl. discriminate.
Defined.

(** * Releases *)

(** Induction on bindings, through the list of a [Multi] binding. *)
Lemma Binding_nested_ind (P : Mouseless.Binding -> Prop) :
  (forall bs, Forall P bs -> P (Mouseless.MultiBinding bs)) ->
  (forall tap hold, P tap -> P hold -> P (Mouseless.TapHoldBinding tap hold)) ->
  (forall b,
     match b with
     | Mouseless.MultiBinding _ | Mouseless.TapHoldBinding _ _ => False
     | _ => True
     end -> P b) ->
  forall b, P b.
Proof.
  intros HM HT HL. fix IH 1.
  intros [|bs|tap hold| | | | | | | | | |]; try (apply HL; exact I).
  - apply HM. induction bs as [|b bs IHbs]; constructor; [apply IH|exact IHbs].
  - apply HT; apply IH.
Qed.

Section Releases.

Import Mouseless.

Variable env : Env.

(** The loop of the [Multi] case. *)
Definition executeEach (event : KeyboardEvent) (bs : list Binding) : M unit :=
  foldr (fun b k => executeBinding env event b ;; k)%m (ret tt) bs.

Lemma each_executeEach event bs : forall st,
  (fix each (bs : list Binding) : M unit :=
     match bs with
     | [] => ret tt
     | b :: bs => (executeBinding env event b ;; each bs)%m
     end) bs st = executeEach event bs st.
Proof.
  induction bs as [|b bs IH]; intros st; [done|].
  cbn [executeEach foldr]. unfold bind.
  destruct (executeBinding env event b st); [apply IH|done..].
Qed.

Lemma executeBinding_Multi event bs st :
  executeBinding env event (MultiBinding bs) st =
  executeEach event bs (add_log executing st).
Proof. rewrite <- each_executeEach. reflexivity. Qed.

Lemma executeBinding_TapHold event tap hold st :
  executeBinding env event (TapHoldBinding tap hold) st =
  executeBinding env event (if holdKey event then hold else tap) (add_log executing st).
Proof. simpl. unfold bind at 1. simpl. by destruct (holdKey event). Qed.

(** On a release, executing a binding only writes to the log. *)
Lemma executeBinding_release event :
  isPress event = false ->
  forall b st, exists l, executeBinding env event b st = Ok tt (with_logs l st).
Proof.
  intros Hp b. induction b as [bs IH|tap hold IHt IHh|b Hb] using Binding_nested_ind;
    intros st.
  - rewrite executeBinding_Multi.
    rewrite add_log_with_logs. generalize [executing]. intros l0.
    revert l0. induction IH as [|b bs Hb _ IHbs]; intros l0; simpl.
    + by exists l0.
    + unfold bind. destruct (Hb (with_logs l0 st)) as [l1 ->].
      rewrite with_logs_app. apply IHbs.
  - rewrite executeBinding_TapHold, add_log_with_logs.
    destruct (holdKey event).
    + destruct (IHh (with_logs [executing] st)) as [l ->].
      rewrite with_logs_app. by eexists.
    + destruct (IHt (with_logs [executing] st)) as [l ->].
      rewrite with_logs_app. by eexists.
  - exists [executing].
    destruct b; try done; simpl; by rewrite Hp.
Qed.

(** [findKey] returns the least index that holds the code. *)
Lemma findKey_least c keys : forall n i,
  keys !! i = Some c ->
  (forall j, (j < i)%nat -> keys !! j <> Some c) ->
  findKey c keys n = Some (n + i)%nat.
Proof.
  induction keys as [|key keys IH]; intros n i Hi Hlt; [done|].
  simpl. case_bool_decide as Hk.
  - destruct i as [|i]; [f_equal; lia|].
    exfalso. apply (Hlt 0%nat); [lia|]. simpl. by rewrite Hk.
  - destruct i as [|i]; [simpl in Hi; congruence|].
    rewrite (IH (S n) i); [f_equal; lia|done|].
    intros j Hj. apply (Hlt (S j)). lia.
Qed.

(** On a release, resolution leaves the state alone or allocates the
    one-element slice of the pass-through binding. *)
Lemma resolveBinding_release event L st :
  isPress event = false ->
  exists b arrs,
    resolveBinding event L st = Ok b (set_arrays (arrays (heap st) ++ arrs) st).
Proof.
  intros Hp. unfold resolveBinding. rewrite Hp, andb_false_r.
  unfold bind at 1. simpl.
  destruct (_ && PassThrough L).
  - eexists _, [_]. reflexivity.
  - eexists _, []. unfold ret. f_equal.
    rewrite app_nil_r. by destruct st as [? ? [] ? ? ? ? ?].
Qed.

(** The release of a key on the toggle stack. *)
Lemma handleKey_toggle_release event st L i p P :
  isPress event = false ->
  layerAt (heap st) (currentLayer st) = Some L ->
  slice_elems (toggleLayerKeys st) !! i = Some (code event) ->
  (forall j, (j < i)%nat -> slice_elems (toggleLayerKeys st) !! j <> Some (code event)) ->
  slice_elems (toggleLayerPrevious st) !! i = Some p ->
  layerAt (heap st) p = Some P ->
  exists st',
    handleKey env event st = Ok tt st' /\
    currentLayer st' = p /\
    toggleLayerKeys st' = slice_upto i (toggleLayerKeys st) /\
    toggleLayerPrevious st' = slice_upto i (toggleLayerPrevious st) /\
    config st' = config st /\
    layers (heap st') = layers (heap st).
Proof.
  intros Hp HL Hi Hlt Hprev HP.
  unfold handleKey.
  unfold bind at 1. simpl. unfold bind at 1. unfold derefLayer at 1. rewrite HL.
  unfold bind at 1.
  destruct (resolveBinding_release event L st Hp) as (b & arrs & ->).
  rewrite Hp. simpl.
  set (st1 := set_arrays (arrays (heap st) ++ arrs) st).
  unfold bind at 1. unfold bind at 1. simpl.
  rewrite (findKey_least _ _ 0 i Hi Hlt). simpl.
  unfold bind at 1. unfold index. rewrite Hprev. simpl.
  unfold bind at 1. simpl. unfold bind at 1. unfold derefLayer. simpl.
  replace (layerAt _ p) with (Some P)
    by (symmetry; destruct p; simpl in *; done).
  repeat (unfold bind at 1; simpl).
  match goal with |- context [executeBinding env event b ?s] =>
    destruct (executeBinding_release event Hp b s) as [l ->] end.
  eexists. split; [reflexivity|]. simpl. done.
Qed.

End Releases.

Lemma slice_upto_len {A} (s : Mouseless.slice A) i x :
  Mouseless.slice_elems s !! i = Some x ->
  Mouseless.slice_len (Mouseless.slice_upto i s) = i.
Proof.
  intros Hi. apply lookup_lt_Some in Hi.
  destruct s as [l|]; simpl in *; [|lia].
  unfold Mouseless.slice_len. simpl. rewrite length_take. lia.
Qed.

(** C4.  For every release event whose code occurs in [toggleLayerKeys],
    [i] being the least index that holds it, [handleKey] (in a state whose
    current layer and [toggleLayerPrevious[i]] are live) returns with
    [currentLayer] equal to [toggleLayerPrevious[i]] and with both stacks cut
    to their first [i] entries, so every layer toggled after that key is
    popped with it.  In particular, from the start-up state of the fixture,
    press 58 (ToggleLayer L1) and press 59 (ToggleLayer L2) lead to L2 with
    two entries on each stack, and the release of 58 then leads back to L0
    with both stacks empty. *)
Theorem toggle_release_cascade :
  (forall env event st L i p P,
     Mouseless.isPress event = false ->
     Mouseless.layerAt (Mouseless.heap st) (Mouseless.currentLayer st) = Some L ->
     Mouseless.slice_elems (Mouseless.toggleLayerKeys st) !! i = Some (Mouseless.code event) ->
     (forall j, (j < i)%nat ->
        Mouseless.slice_elems (Mouseless.toggleLayerKeys st) !! j
        <> Some (Mouseless.code event)) ->
     Mouseless.slice_elems (Mouseless.toggleLayerPrevious st) !! i = Some p ->
     Mouseless.layerAt (Mouseless.heap st) p = Some P ->
     exists st',
       Mouseless.handleKey env event st = Mouseless.Ok tt st' /\
       Mouseless.currentLayer st' = p /\
       Mouseless.toggleLayerKeys st' = Mouseless.slice_upto i (Mouseless.toggleLayerKeys st) /\
       Mouseless.toggleLayerPrevious st'
       = Mouseless.slice_upto i (Mouseless.toggleLayerPrevious st) /\
       Mouseless.slice_len (Mouseless.toggleLayerKeys st') = i /\
       Mouseless.slice_len (Mouseless.toggleLayerPrevious st') = i) /\
  Fixture.interp <$>
    Fixture.final (Fixture.handleKeys Fixture.env_ok
                     [Fixture.press 58; Fixture.press 59] Fixture.st0)
  = Some (Some 2%nat, Some [58; 59], Some [Some 0%nat; Some 1%nat]) /\
  Fixture.interp <$>
    Fixture.final (Fixture.handleKeys Fixture.env_ok
                     [Fixture.press 58; Fixture.press 59; Fixture.release 58] Fixture.st0)
  = Some (Some 0%nat, Some [], Some []).
Proof.
  split_and!; [|vm_compute; reflexivity..].
  intros env event st L i p P Hp HL Hi Hlt Hprev HP.
  destruct (handleKey_toggle_release env event st L i p P Hp HL Hi Hlt Hprev HP)
    as (st' & Hrun & Hcur & Hk & Hpr & _).
  exists st'. split_and!; try done.
  - rewrite Hk. by eapply slice_upto_len.
  - rewrite Hpr. by eapply slice_upto_len.
Qed.

(** C4, on an instance: the release of 58 with 58 and 59 on the stack. *)
Lemma toggle_release_cascade_witness :
  exists st',
    Mouseless.handleKey Fixture.env_ok (Fixture.release 58) Fixture.st_held58_59
    = Mouseless.Ok tt st' /\
    Mouseless.currentLayer st' = Some 0%nat /\
    Mouseless.toggleLayerKeys st' = Some [] /\
    Mouseless.toggleLayerPrevious st' = Some [].
Proof.
  destruct (proj1 toggle_release_cascade Fixture.env_ok (Fixture.release 58)
              Fixture.st_held58_59 Fixture.L2 0%nat (Some 0%nat) Fixture.L0
              eq_refl eq_refl eq_refl) as (st' & Hrun & Hcur & Hk & Hp & _).
  - intros j Hj. exfalso. lia.
  - reflexivity.
  - reflexivity.
  - exists st'. split; [exact Hrun|]. split; [exact Hcur|]. split; [exact Hk|exact Hp].
Defined.

(** * Reloading the configuration *)

Section Reload.

Import Mouseless.

Variable env : Env.

(** The two entries [exitError] logs for an error. *)
Definition exit_entries (msg err : string) : list LogEntry :=
  [mkLog ErrorLevel (msg ++ ": %v") [ArgString err]; mkLog ErrorLevel "Exiting" []].

Lemma loadConfig_failure st c err h :
  readConfig env (configFile st) (heap st) = (c, Some err, h) ->
  loadConfig env st =
    Exit 1 (with_logs (exit_entries "Failed to read the config file" err)
                      (set_config c (set_heap h st))).
Proof.
  intros Hr. unfold loadConfig. unfold bind at 1. simpl. rewrite Hr.
  unfold bind, exitError. simpl.
  by rewrite !add_log_with_logs, with_logs_app.
Qed.

(** C2 (amended).  When a [ReloadConfig] binding is executed on a press and
    [readConfig] returns an error, the error is logged at error level,
    followed by "Exiting", and the process exits with status 1.  The
    [config] variable already holds what [readConfig] returned, not the old
    configuration, and no further event is handled. *)
Theorem reload_failure_exits event st c err h :
  isPress event = true ->
  readConfig env (configFile st) (heap st) = (c, Some err, h) ->
  executeBinding env event ReloadConfigBinding st =
    Exit 1 (with_logs (executing :: exit_entries "Failed to read the config file" err)
                      (set_config c (set_heap h st))) /\
  forall st', executeBinding env event ReloadConfigBinding st <> Ok tt st'.
Proof.
  intros Hp Hr.
  assert (H : executeBinding env event ReloadConfigBinding st =
              Exit 1 (with_logs (executing :: exit_entries "Failed to read the config file" err)
                                (set_config c (set_heap h st)))).
  { simpl. rewrite Hp. unfold bind at 1. simpl.
    rewrite (loadConfig_failure _ c err h) by done.
    unfold with_logs, add_log, set_config, set_heap. simpl.
    by rewrite <- app_assoc. }
  split; [exact H|]. intros st'. rewrite H. discriminate.
Qed.

End Reload.

(** C2 as stated fails: with CapsLock held (L1 current), a press of R
    executes [ReloadConfig]; the parser fails; the interpreter does not
    continue with the old configuration, it exits with status 1 and [config]
    is nil. *)
Lemma reload_failure_counterexample :
  Mouseless.readConfig Fixture.env_fails
    (Mouseless.configFile Fixture.st_held58) (Mouseless.heap Fixture.st_held58)
  = (None, Some "yaml: line 3: did not find expected key"%string, Fixture.heap0) /\
  Mouseless.config Fixture.st_held58 = Some Fixture.config0 /\
  exists st',
    Mouseless.handleKey Fixture.env_fails (Fixture.press 19) Fixture.st_held58
    = Mouseless.Exit 1 st' /\
    Mouseless.config st' = None /\
    at_level ErrorLevel <$> Mouseless.logs st' = [false; false; false; false; true; true].
Proof.
  split; [reflexivity|]. split; [reflexivity|].
  eexists. split; [vm_compute; reflexivity|]. split; reflexivity.
Qed.

(** C2 (amended), on an instance: the same press, at [executeBinding]. *)
Lemma reload_failure_exits_witness :
  Mouseless.executeBinding Fixture.env_fails (Fixture.press 19)
                           Mouseless.ReloadConfigBinding Fixture.st_held58
  = Mouseless.Exit 1
      (with_logs (executing :: exit_entries "Failed to read the config file"
                                            "yaml: line 3: did not find expected key")
                 (Mouseless.set_config None
                    (Mouseless.set_heap Fixture.heap0 Fixture.st_held58))).
Proof.
  exact (proj1 (reload_failure_exits Fixture.env_fails (Fixture.press 19) Fixture.st_held58
                  None "yaml: line 3: did not find expected key" Fixture.heap0
                  eq_refl eq_refl)).
Defined.

(** C1 (as the code behaves).  From the start-up state of the fixture:
    CapsLock (58) is pressed, which toggles L1 and records L0; R (19) is
    pressed, which reloads a configuration whose only layer is a new object;
    CapsLock is released, which restores [currentLayer] from
    [toggleLayerPrevious].  After the reload [currentLayer] is the new
    configuration's initial layer; after the release it is the old L0, which
    is not a member of [config.Layers]. *)
Theorem reload_then_toggle_release_leaves_config :
  (exists st cfg,
     Fixture.final (Fixture.handleKeys Fixture.env_ok
                      [Fixture.press 58; Fixture.press 19] Fixture.st0) = Some st /\
     Mouseless.config st = Some cfg /\
     Mouseless.Layers cfg = [Some 3%nat] /\
     Mouseless.currentLayer st = Some 3%nat /\
     Mouseless.toggleLayerKeys st = Some [58] /\
     Mouseless.toggleLayerPrevious st = Some [Some 0%nat]) /\
  (exists st cfg,
     Fixture.final (Fixture.handleKeys Fixture.env_ok
                      [Fixture.press 58; Fixture.press 19; Fixture.release 58] Fixture.st0)
     = Some st /\
     Mouseless.config st = Some cfg /\
     Mouseless.Layers cfg = [Some 3%nat] /\
     Mouseless.currentLayer st = Some 0%nat /\
     (Mouseless.currentLayer st ∉ Mouseless.Layers cfg) /\
     Mouseless.layerAt (Mouseless.heap st) (Mouseless.currentLayer st) = Some Fixture.L0 /\
     Mouseless.layerAt (Mouseless.heap st) (Some 3%nat) = Some Fixture.L0').
Proof.
  split.
  - eexists _, _. split; [vm_compute; reflexivity|]. split; [reflexivity|]. done.
  - eexists _, _. split; [vm_compute; reflexivity|]. split; [reflexivity|].
    split_and!; try reflexivity.
    intros Hin. apply list_elem_of_singleton in Hin. discriminate.
Qed.

(** * Key bindings and the wildcard *)

Section KeyCombos.

Import Mouseless.

Variable env : Env.

(** What the loop of the [Key] case makes of one key of the combo. *)
Definition substitute (event : KeyboardEvent) (key : Z) : Z :=
  if bool_decide (key = WildcardKey env) then code event else key.

Lemma set_arrays_id st : set_arrays (arrays (heap st)) st = st.
Proof. by destruct st as [? ? [] ? ? ? ? ?]. Qed.

(** The loop, started at index [length done] of an array [done ++ todo]:
    it rewrites the array in place, and only that array. *)
Lemma replaceWildcards_spec event n : forall todo done st,
  arrays (heap st) !! n = Some (done ++ todo) ->
  replaceWildcards env (Some n) (code event) (seq (length done) (length todo)) st
  = Ok tt (set_arrays (<[n := done ++ (substitute event <$> todo)]> (arrays (heap st))) st).
Proof.
  induction todo as [|key todo IH]; intros done st Hn.
  - simpl. rewrite app_nil_r in *. rewrite list_insert_id by done.
    by rewrite set_arrays_id.
  - cbn [length seq replaceWildcards].
    unfold bind at 1. unfold loadIndex, bind at 1, loadSlice. rewrite Hn.
    unfold index. rewrite (list_lookup_middle done todo key (length done) eq_refl).
    cbn [ret].
    assert (Hlen : (length done < length (done ++ key :: todo))%nat)
      by (rewrite length_app; simpl; lia).
    assert (Hnlt : (n < length (arrays (heap st)))%nat) by by eapply lookup_lt_Some.
    replace (S (length done)) with (length (done ++ [substitute event key]))
      by (rewrite length_app; simpl; lia).
    destruct (decide (key = WildcardKey env)) as [Hk|Hk].
    + assert (Hs : substitute event key = code event)
        by (unfold substitute; by rewrite bool_decide_eq_true_2).
      rewrite bool_decide_eq_true_2 by done.
      unfold bind at 1. unfold storeIndex. rewrite Hn.
      rewrite bool_decide_eq_true_2 by done.
      rewrite IH.
      * rewrite fmap_cons, Hs. simpl.
        rewrite list_insert_insert_eq.
        by rewrite <- app_assoc.
      * simpl. rewrite list_lookup_insert_eq by done. f_equal.
        rewrite Hs.
        replace (length done) with (length done + 0)%nat by lia.
        rewrite insert_app_r. simpl. by rewrite <- app_assoc.
    + assert (Hs : substitute event key = key)
        by (unfold substitute; by rewrite bool_decide_eq_false_2).
      rewrite bool_decide_eq_false_2 by done.
      unfold bind at 1. cbn [ret].
      rewrite IH.
      * rewrite fmap_cons, Hs. by rewrite <- app_assoc.
      * rewrite Hn, Hs. by rewrite <- app_assoc.
Qed.

Lemma set_arrays_twice a b st : set_arrays a (set_arrays b st) = set_arrays a st.
Proof. reflexivity. Qed.

Lemma insert_last {A} (l : list A) x y : <[length l := x]> (l ++ [y]) = l ++ [x].
Proof.
  replace (length l) with (length l + 0)%nat by lia. by rewrite insert_app_r.
Qed.

Lemma bind_Ok {A B} (c : M A) (k : A -> M B) st a st' :
  c st = Ok a st' -> bind c k st = k a st'.
Proof. unfold bind. by intros ->. Qed.

(** A slice read in a state reads the same in any state that has kept the
    arrays allocated so far. *)
Lemma loadSlice_frame combo src st st' :
  loadSlice combo st = Ok src st ->
  (forall a l, arrays (heap st) !! a = Some l -> arrays (heap st') !! a = Some l) ->
  loadSlice combo st' = Ok src st'.
Proof.
  unfold loadSlice. intros Hsrc Hframe. destruct combo as [a|]; [|by inversion Hsrc].
  destruct (arrays (heap st) !! a) as [l|] eqn:Ha; [|done].
  rewrite (Hframe a l Ha). by inversion Hsrc.
Qed.

Lemma copy_spec n d src s st :
  arrays (heap st) !! n = Some d ->
  loadSlice src st = Ok s st ->
  length d = length s ->
  copy (Some n) src st = Ok tt (set_arrays (<[n := s]> (arrays (heap st))) st).
Proof.
  intros Hd Hs Hlen. unfold copy.
  rewrite (bind_Ok _ _ st d st) by (unfold loadSlice; by rewrite Hd).
  rewrite (bind_Ok _ _ st s st) by done.
  rewrite Hlen, Nat.min_id, firstn_all.
  rewrite drop_ge by lia. by rewrite app_nil_r.
Qed.

(** The [Key] case on a press, for a combo whose elements are [src]. *)
Lemma executeBinding_Key_press event combo src st :
  isPress event = true ->
  loadSlice combo st = Ok src st ->
  executeBinding env event (KeyBinding combo) st =
    Ok tt (add_effect
             (PressKeys (code event) (Some (length (arrays (heap st))))
                        (substitute event <$> src))
             (set_arrays (arrays (heap st) ++ [substitute event <$> src])
                         (add_log executing st))).
Proof.
  intros Hp Hsrc.
  cbn [executeBinding]. rewrite Hp.
  rewrite (bind_Ok _ _ st tt (add_log executing st)) by done.
  set (st0 := add_log executing st).
  set (n := length (arrays (heap st))).
  rewrite (bind_Ok _ _ st0 src st0) by (by apply (loadSlice_frame combo src st)).
  (* keys := make([]uint16, len(t.KeyCombo)) *)
  set (st1 := set_arrays (arrays (heap st) ++ [replicate (length src) 0]) st0).
  rewrite (bind_Ok _ _ st0 (Some n) st1) by done.
  (* copy(keys, t.KeyCombo) *)
  set (st2 := set_arrays (arrays (heap st) ++ [src]) st0).
  rewrite (bind_Ok _ _ st1 tt st2).
  2: { rewrite (copy_spec n (replicate (length src) 0) combo src).
       - unfold st1, st2, n. rewrite set_arrays_twice. simpl.
         by rewrite insert_last.
       - unfold st1, n. simpl. by rewrite list_lookup_middle.
       - apply (loadSlice_frame combo src st); [done|].
         intros a l Ha. unfold st1. simpl.
         rewrite lookup_app_l by (by eapply lookup_lt_Some). done.
       - by rewrite length_replicate. }
  (* the loop *)
  set (st3 := set_arrays (arrays (heap st) ++ [substitute event <$> src]) st0).
  rewrite (bind_Ok _ _ st2 tt st3).
  2: { assert (Hn2 : arrays (heap st2) !! n = Some ([] ++ src))
         by (unfold st2, n; simpl; by rewrite list_lookup_middle).
       pose proof (replaceWildcards_spec event n src [] st2 Hn2) as Hloop.
       cbn [length app] in Hloop. rewrite Hloop.
       unfold st2, st3, n. rewrite set_arrays_twice. simpl.
       by rewrite insert_last. }
  rewrite (bind_Ok _ _ st3 (substitute event <$> src) st3).
  2: { unfold loadSlice, st3, n. simpl. by rewrite list_lookup_middle. }
  reflexivity.
Qed.

(** C10.  Executing a [Key] binding on a press, for a combo whose elements
    are [src], returns; [PressKeys] is called once, with a slice over a new
    backing array whose elements are those of [src] with the event's code at
    every position that holds the wildcard; no [Layer] object and no array
    allocated before the call has changed, so the binding's own combo still
    reads [src]; and the interpreter's variables are as before.  On a
    release the binding changes nothing but the log. *)
Theorem Key_binding_substitutes_on_a_copy event combo src st :
  loadSlice combo st = Ok src st ->
  (isPress event = true ->
   exists st',
     executeBinding env event (KeyBinding combo) st = Ok tt st' /\
     effects st' =
       effects st ++ [PressKeys (code event) (Some (length (arrays (heap st))))
                                (substitute event <$> src)] /\
     (forall i key, src !! i = Some key ->
        (substitute event <$> src) !! i =
          Some (if bool_decide (key = WildcardKey env) then code event else key)) /\
     length (substitute event <$> src) = length src /\
     arrays (heap st') = arrays (heap st) ++ [substitute event <$> src] /\
     (forall a l, arrays (heap st) !! a = Some l -> arrays (heap st') !! a = Some l) /\
     loadSlice combo st' = Ok src st' /\
     layers (heap st') = layers (heap st) /\
     config st' = config st /\
     currentLayer st' = currentLayer st /\
     toggleLayerKeys st' = toggleLayerKeys st /\
     toggleLayerPrevious st' = toggleLayerPrevious st) /\
  (isPress event = false ->
   executeBinding env event (KeyBinding combo) st = Ok tt (add_log executing st)).
Proof.
  intros Hsrc. split; [|by intros Hp; simpl; rewrite Hp].
  intros Hp. eexists. split; [by apply executeBinding_Key_press|].
  assert (Hframe : forall a l,
    arrays (heap st) !! a = Some l ->
    (arrays (heap st) ++ [substitute event <$> src]) !! a = Some l).
  { intros a l Ha. rewrite lookup_app_l by (by eapply lookup_lt_Some). done. }
  split_and!; try done.
  - intros i key Hi. by rewrite list_lookup_fmap, Hi.
  - by rewrite length_fmap.
  - by apply (loadSlice_frame combo src st).
Qed.

End KeyCombos.

(** C10, on an instance: L2's wildcard combo [42, wildcard] executed for a
    press of A (30); [PressKeys] receives [42, 30] in a new array, and the
    combo's own array still holds the wildcard. *)
Lemma Key_binding_substitutes_on_a_copy_witness :
  exists st',
    Mouseless.executeBinding Fixture.env_ok (Fixture.press 30)
                             (Mouseless.KeyBinding (Some 0%nat)) Fixture.st_held58_59
    = Mouseless.Ok tt st' /\
    Mouseless.effects st' = [Mouseless.PressKeys 30 (Some 1%nat) [42; 30]] /\
    Mouseless.arrays (Mouseless.heap st') = [[42; Fixture.wildcard]; [42; 30]] /\
    Mouseless.layers (Mouseless.heap st') = [Fixture.L0; Fixture.L1; Fixture.L2].
Proof.
  destruct (proj1 (Key_binding_substitutes_on_a_copy Fixture.env_ok (Fixture.press 30)
                     (Some 0%nat) [42; Fixture.wildcard] Fixture.st_held58_59 eq_refl)
                  eq_refl)
    as (st' & Hrun & Heff & _ & _ & Harr & _ & _ & Hlay & _).
  exists st'. split; [exact Hrun|]. split; [exact Heff|]. split; [exact Harr|exact Hlay].
Defined.

(** * The mouse tick *)

(** [x == 0] on float64 holds for the two zeros only, and adding a zero to
    [+0] gives [+0]. *)
Lemma float_add_zero (x : float) :
  (x =? 0)%float = true -> (0 + x)%float = 0%float.
Proof.
  intros Hx. apply Prim2SF_inj.
  rewrite add_spec. rewrite FloatAxioms.eqb_spec in Hx.
  destruct (Prim2SF x) as [s|s| |s m e] eqn:Hp.
  - by destruct s.
  - by destruct s.
  - discriminate Hx.
  - by destruct s.
Qed.

Section MouseTick.

Import Mouseless.

Variable env : Env.

(** No [Move] or [Scroll] binding of the layer whose key is held has a
    component that differs from zero. *)
Definition at_rest (pressed : Z -> bool) (L : Layer) : Prop :=
  forall c b, Bindings L !! c = Some b -> pressed c = true ->
    match b with
    | MoveBinding x y | ScrollBinding x y => nonzero x = false /\ nonzero y = false
    | _ => True
    end.

(** The four sums are [+0]. *)
Definition still (m : Motion) : Prop :=
  moveX m = 0%float /\ moveY m = 0%float /\ scrollX m = 0%float /\ scrollY m = 0%float.

Lemma nonzero_false x : nonzero x = false -> (x =? 0)%float = true.
Proof. unfold nonzero. by destruct (x =? 0)%float. Qed.

Lemma accumulate_still pressed L m entry :
  at_rest pressed L ->
  Bindings L !! entry.1 = Some entry.2 ->
  still m -> still (accumulate pressed m entry).
Proof.
  intros Hrest Hin (Hmx & Hmy & Hsx & Hsy). unfold accumulate.
  destruct (pressed entry.1) eqn:Hp; [|done].
  specialize (Hrest _ _ Hin Hp).
  destruct entry.2; try done; unfold still; simpl.
  - destruct Hrest as [Hx Hy]. split_and!; try done.
    + rewrite Hsx. by apply float_add_zero, nonzero_false.
    + rewrite Hsy. by apply float_add_zero, nonzero_false.
  - destruct Hrest as [Hx Hy]. split_and!; try done.
    + rewrite Hmx. by apply float_add_zero, nonzero_false.
    + rewrite Hmy. by apply float_add_zero, nonzero_false.
Qed.

Lemma foldl_accumulate_still pressed L entries : forall m,
  at_rest pressed L ->
  Forall (fun entry => Bindings L !! entry.1 = Some entry.2) entries ->
  still m -> still (foldl (accumulate pressed) m entries).
Proof.
  induction entries as [|entry entries IH]; intros m Hrest Hall Hm; [done|].
  inversion Hall; subst. simpl. apply IH; [done..|].
  by eapply accumulate_still.
Qed.

Lemma mouseTick_parks pressed st L :
  layerAt (heap st) (currentLayer st) = Some L ->
  rangeBindings env (Bindings L) ≡ₚ map_to_list (Bindings L) ->
  at_rest pressed L ->
  IsMoving env (effects st) = false ->
  mouseTick env pressed st = Ok MaxInt64 st.
Proof.
  intros HL Hperm Hrest Hmov. unfold mouseTick.
  rewrite (bind_Ok _ _ st st st) by done.
  rewrite (bind_Ok _ _ st L st) by (unfold derefLayer; by rewrite HL).
  cbv zeta.
  destruct (foldl_accumulate_still pressed L (rangeBindings env (Bindings L))
              (mkMotion 0 0 0 0 1) Hrest) as (Hmx & Hmy & Hsx & Hsy).
  - rewrite Hperm. apply Forall_forall. intros [c b] Hin.
    by apply elem_of_map_to_list in Hin.
  - done.
  - rewrite Hmx, Hmy, Hsx, Hsy, Hmov. reflexivity.
Qed.

(** The part of a turn of [mainLoop] that comes before the mouse tick. *)
Definition beforeTick (event : option KeyboardEvent) (devices : list Keyboard.Device) : M unit :=
  (match event with
   | Some e => handleKey env e
   | None => ret tt
   end ;;
   checkDevices devices)%m.

Lemma mainLoop_body_split event devices pressed st :
  mainLoop_body env event devices pressed st =
  (beforeTick event devices ;; mouseTick env pressed)%m st.
Proof.
  unfold mainLoop_body, beforeTick, bind.
  by destruct (match event with Some e => handleKey env e | None => ret tt end st).
Qed.

(** C9.  Take a turn of [mainLoop] whose first part (the key event, if any,
    and the device check) returns in a state [st].  If no [Move] or [Scroll]
    binding of the current layer whose key is physically held has a non-zero
    component (whatever [Speed] bindings are held) and the virtual mouse
    reports no motion, then the turn returns in that same state [st], so
    neither [Move] nor [Scroll] is called, and the timer it arms is the
    [math.MaxInt64] one, not the 20 ms one. *)
Theorem mainLoop_parks event devices pressed st0 st L :
  beforeTick event devices st0 = Ok tt st ->
  layerAt (heap st) (currentLayer st) = Some L ->
  rangeBindings env (Bindings L) ≡ₚ map_to_list (Bindings L) ->
  at_rest pressed L ->
  IsMoving env (effects st) = false ->
  mainLoop_body env event devices pressed st0 = Ok MaxInt64 st /\
  mouseTick env pressed st = Ok MaxInt64 st /\
  MaxInt64 <> mouseLoopInterval.
Proof.
  intros Hpre HL Hperm Hrest Hmov.
  pose proof (mouseTick_parks pressed st L HL Hperm Hrest Hmov) as Htick.
  split_and!; [|done|done].
  rewrite mainLoop_body_split. by rewrite (bind_Ok _ _ st0 tt st).
Qed.

End MouseTick.

Lemma fixture_L2_at_rest : at_rest (fun _ => true) Fixture.L2.
Proof.
  intros c b H _. unfold Fixture.L2 in H. simpl in H.
  apply lookup_insert_Some in H as [[_ <-]|[_ H]]; [split; reflexivity|].
  apply lookup_singleton_Some in H as [_ <-]. exact I.
Defined.

(** C9, on an instance: a timer turn with L2 current, every key held (among
    them J, a [Move] binding with components [+0] and [-0], and K, a
    [Speed] binding), one open device and a mouse that is not moving. *)
Lemma mainLoop_parks_witness :
  Mouseless.mainLoop_body Fixture.env_ok None
    [Keyboard.mkDevice "/dev/input/event3"
       (Some (Keyboard.mkInputDevice "AT keyboard" 65537 17 1 1 43841)) Keyboard.StateOpen ""]
    (fun _ => true) Fixture.st_held58_59
  = Mouseless.Ok MaxInt64 Fixture.st_held58_59.
Proof.
  exact (proj1 (mainLoop_parks Fixture.env_ok None
                  [Keyboard.mkDevice "/dev/input/event3"
       (Some (Keyboard.mkInputDevice "AT keyboard" 65537 17 1 1 43841)) Keyboard.StateOpen ""]
                  (fun _ => true) Fixture.st_held58_59 Fixture.st_held58_59 Fixture.L2
                  eq_refl eq_refl (reflexivity _) fixture_L2_at_rest eq_refl)).
Defined.

(** * Invariants of the interpreter *)

Section Invariants.

Import Mouseless.

Variable env : Env.

(** The interpreter's own variables and the [Layer] objects. *)
Definition view (st : State) : option Config * ptr * slice Z * slice ptr * list Layer :=
  (config st, currentLayer st, toggleLayerKeys st, toggleLayerPrevious st,
   layers (heap st)).

(** A computation that, when it returns, has left those variables alone. *)
Definition keeps_view {A} (c : M A) : Prop :=
  forall st a st', c st = Ok a st' -> view st' = view st.

Lemma bind_Ok_inv {A B} (c : M A) (k : A -> M B) st b st' :
  bind c k st = Ok b st' -> exists a st1, c st = Ok a st1 /\ k a st1 = Ok b st'.
Proof. unfold bind. destruct (c st) as [a st1| |]; [|done..]. by exists a, st1. Qed.

Lemma bind_get {B} (k : State -> M B) st : bind get k st = k st st.
Proof. reflexivity. Qed.

Lemma keeps_view_bind {A B} (c : M A) (k : A -> M B) :
  keeps_view c -> (forall a, keeps_view (k a)) -> keeps_view (bind c k).
Proof.
  intros Hc Hk st b st' (a & st1 & H1 & H2)%bind_Ok_inv.
  rewrite (Hk a st1 b st' H2). by apply (Hc st a).
Qed.

Ltac returned := let H := fresh in intros ? ? ? H; inversion H; subst; reflexivity.

Lemma keeps_view_ret {A} (a : A) : keeps_view (ret a).
Proof. returned. Qed.

Lemma keeps_view_logf lv fmt args : keeps_view (logf lv fmt args).
Proof. returned. Qed.

Lemma keeps_view_emit e : keeps_view (emit e).
Proof. returned. Qed.

Lemma keeps_view_loadSlice s : keeps_view (loadSlice s).
Proof.
  intros st a st'. unfold loadSlice.
  destruct s as [n|]; [destruct (arrays (heap st) !! n)|];
    intros H; inversion H; by subst.
Qed.

Lemma keeps_view_index {A} (l : list A) i : keeps_view (index l i).
Proof.
  intros st a st'. unfold index. destruct (l !! i); intros H; inversion H; by subst.
Qed.

Lemma keeps_view_allocSlice l : keeps_view (allocSlice l).
Proof. returned. Qed.

Lemma keeps_view_storeIndex s i v : keeps_view (storeIndex s i v).
Proof.
  intros st a st'. unfold storeIndex.
  destruct s as [n|]; [|done]. destruct (arrays (heap st) !! n); [|done].
  case_bool_decide as Hlt; intros Hr; inversion Hr; by subst.
Qed.

Lemma keeps_view_copy dst src : keeps_view (copy dst src).
Proof.
  unfold copy. apply keeps_view_bind; [apply keeps_view_loadSlice|intros d].
  apply keeps_view_bind; [apply keeps_view_loadSlice|intros s].
  destruct dst; [|apply keeps_view_ret]. returned.
Qed.

Lemma keeps_view_replaceWildcards keys c idxs : keeps_view (replaceWildcards env keys c idxs).
Proof.
  induction idxs as [|i idxs IH]; [apply keeps_view_ret|].
  simpl. apply keeps_view_bind.
  { apply keeps_view_bind; [apply keeps_view_loadSlice|intros; apply keeps_view_index]. }
  intros key. apply keeps_view_bind; [|done].
  case_bool_decide; [apply keeps_view_storeIndex|apply keeps_view_ret].
Qed.

(** The variants whose case writes none of the interpreter's variables. *)
Definition plain (b : Binding) : bool :=
  match b with
  | MultiBinding _ | TapHoldBinding _ _ | LayerBinding _ | ToggleLayerBinding _
  | ReloadConfigBinding => false
  | _ => true
  end.

Lemma keeps_view_get : keeps_view get.
Proof. returned. Qed.

Lemma keeps_view_derefLayer p : keeps_view (derefLayer p).
Proof.
  intros st a st'. unfold derefLayer.
  destruct (layerAt (heap st) p); intros Hr; inversion Hr; by subst.
Qed.

Lemma keeps_view_derefConfig : keeps_view derefConfig.
Proof.
  intros st a st'. unfold derefConfig.
  destruct (config st); intros Hr; inversion Hr; by subst.
Qed.

Ltac keeps_view_steps :=
  repeat first
    [ apply keeps_view_ret | apply keeps_view_logf | apply keeps_view_emit
    | apply keeps_view_get | apply keeps_view_derefLayer | apply keeps_view_derefConfig
    | apply keeps_view_loadSlice | apply keeps_view_allocSlice | apply keeps_view_copy
    | apply keeps_view_replaceWildcards | apply keeps_view_index
    | apply keeps_view_storeIndex
    | apply keeps_view_bind; [|intros ?] ].

Lemma keeps_view_executeBinding_plain event b :
  plain b = true -> keeps_view (executeBinding env event b).
Proof.
  intros Hb. destruct b; try done; simpl; destruct (isPress event); keeps_view_steps.
  destruct (cmdRun _ _ _ _); keeps_view_steps.
Qed.

Lemma forLayers_inv name found ls st st' :
  forLayers name found ls st = Ok tt st' ->
  st' = st \/
  exists p L, p ∈ ls /\ layerAt (heap st) p = Some L /\ found p L st = Ok tt st'.
Proof.
  induction ls as [|q ls IH]; simpl.
  - intros H. inversion H. by left.
  - intros (L & st1 & H1 & H2)%bind_Ok_inv.
    unfold derefLayer in H1. destruct (layerAt (heap st) q) as [Lq|] eqn:Hq; [|done].
    inversion H1; subst. case_bool_decide as Hn.
    + right. exists q, L. split_and!; [left|done..].
    + destruct (IH H2) as [->|(p & L' & Hin & HL & Hf)]; [by left|].
      right. exists p, L'. split_and!; [by right|done..].
Qed.

Lemma loadConfig_inv st st' :
  loadConfig env st = Ok tt st' ->
  exists cfg l0 L0,
    config st' = Some cfg /\ Layers cfg !! 0%nat = Some l0 /\
    currentLayer st' = l0 /\ layerAt (heap st') l0 = Some L0 /\
    toggleLayerKeys st' = toggleLayerKeys st /\
    toggleLayerPrevious st' = toggleLayerPrevious st.
Proof.
  unfold loadConfig. intros (st0 & st1 & H1 & H2)%bind_Ok_inv.
  inversion H1; subst; clear H1.
  destruct (readConfig env (configFile st1) (heap st1)) as [[c err] h].
  apply bind_Ok_inv in H2 as ([] & st2 & H1 & H2). inversion H1; subst; clear H1.
  apply bind_Ok_inv in H2 as ([] & st2 & H1 & H2). inversion H1; subst; clear H1.
  apply bind_Ok_inv in H2 as ([] & st2 & H1 & H2).
  destruct err as [e|]; [done|]. inversion H1; subst; clear H1.
  apply bind_Ok_inv in H2 as (cfg & st2 & H1 & H2).
  unfold derefConfig in H1. simpl in H1. destruct c as [c|]; [|done].
  inversion H1; subst; clear H1.
  apply bind_Ok_inv in H2 as (l0 & st2 & H1 & H2).
  unfold index in H1. destruct (Layers cfg !! 0%nat) as [l|] eqn:Hl0; [|done].
  inversion H1; subst; clear H1.
  apply bind_Ok_inv in H2 as ([] & st2 & H1 & H2). inversion H1; subst; clear H1.
  apply bind_Ok_inv in H2 as (L0 & st2 & H1 & H2).
  unfold derefLayer in H1. simpl in H1.
  destruct (layerAt h l0) as [L|] eqn:HL0; [|done].
  inversion H1; subst; clear H1. inversion H2; subst; clear H2.
  by exists cfg, l0, L0.
Qed.

(** ** Preservation by [executeBinding], for a property of the view *)

(** Every leaf of the binding is plain or allowed. *)
Fixpoint leaves (allowed : Binding -> bool) (b : Binding) : bool :=
  match b with
  | MultiBinding bs => forallb (leaves allowed) bs
  | TapHoldBinding tap hold => leaves allowed tap && leaves allowed hold
  | _ => plain b || allowed b
  end.

Section Preservation.

Variable P : State -> Prop.
Variable allowed : Binding -> bool.

Hypothesis P_view : forall st st', view st' = view st -> P st -> P st'.
Hypothesis P_leaf : forall event b st st',
  allowed b = true ->
  P st -> executeBinding env event b st = Ok tt st' -> P st'.

Lemma executeBinding_preserves b :
  leaves allowed b = true ->
  forall event st st', P st -> executeBinding env event b st = Ok tt st' -> P st'.
Proof.
  induction b as [bs IH|tap hold IHt IHh|b Hb] using Binding_nested_ind;
    intros Hl event st st' HP Hrun.
  - rewrite executeBinding_Multi in Hrun.
    assert (HP0 : P (add_log executing st)) by (by apply (P_view st)).
    revert Hrun HP0. generalize (add_log executing st). clear HP.
    simpl in Hl. induction IH as [|b bs Hb _ IHbs]; intros st0 Hrun HP0.
    + by inversion Hrun; subst.
    + simpl in Hl. apply andb_prop in Hl as [Hl1 Hl2].
      simpl in Hrun. apply bind_Ok_inv in Hrun as ([] & st1 & H1 & H2).
      eapply (IHbs Hl2 st1); [done|]. by eapply (Hb Hl1).
  - rewrite executeBinding_TapHold in Hrun.
    simpl in Hl. apply andb_prop in Hl as [Hl1 Hl2].
    assert (HP0 : P (add_log executing st)) by (by apply (P_view st)).
    destruct (holdKey event); [by eapply IHh|by eapply IHt].
  - assert (Hor : plain b || allowed b = true) by (by destruct b).
    apply orb_prop in Hor as [Hplain|Hallowed].
    + apply (P_view st); [|exact HP].
      by eapply keeps_view_executeBinding_plain.
    + by eapply P_leaf.
Qed.

(** What [handleKey] may resolve: the stored binding, the wildcard binding,
    a [Layer] binding or a plain one; the view is as before. *)
Lemma resolveBinding_inv event L st b st1 :
  resolveBinding event L st = Ok b st1 ->
  view st1 = view st /\
  (b = exact_binding event L \/ b = WildcardBinding L \/
   (exists name, b = LayerBinding name) \/ plain b = true).
Proof.
  intros Hrun. split.
  - assert (Hk : keeps_view (resolveBinding event L)).
    { unfold resolveBinding. apply keeps_view_bind.
      + destruct (_ && isPress event); keeps_view_steps.
        case_bool_decide; keeps_view_steps.
      + intros b1. destruct (_ && PassThrough L); keeps_view_steps. }
    by apply (Hk st b).
  - unfold resolveBinding in Hrun. fold (exact_binding event L) in Hrun.
    apply bind_Ok_inv in Hrun as (b1 & st2 & H1 & H2).
    assert (Hb1 : b1 = exact_binding event L \/ exists name, b1 = LayerBinding name).
    { destruct (_ && isPress event); [|inversion H1; by left].
      apply bind_Ok_inv in H1 as (? & ? & _ & H1).
      apply bind_Ok_inv in H1 as (? & ? & _ & H1).
      apply bind_Ok_inv in H1 as (? & ? & _ & H1).
      case_bool_decide; [|inversion H1; by left].
      apply bind_Ok_inv in H1 as (? & ? & _ & H1). inversion H1. right. by eexists. }
    destruct (is_nil _ && PassThrough L).
    + apply bind_Ok_inv in H2 as (? & ? & _ & H2). inversion H2. by right; right; right.
    + inversion H2; subst. destruct (is_nil b1 && _); [by right; left|].
      destruct Hb1 as [->|Hb1]; [by left|by right; right; left].
Qed.

(** ** Preservation by [handleKey] *)

Hypothesis P_release : forall st i p,
  slice_elems (toggleLayerPrevious st) !! i = Some p ->
  P st ->
  P (set_toggleLayerPrevious (slice_upto i (toggleLayerPrevious st))
       (set_toggleLayerKeys (slice_upto i (toggleLayerKeys st))
          (set_currentLayer p st))).
Hypothesis allowed_Layer : forall name, allowed (LayerBinding name) = true.

Lemma handleKey_preserves event st st' L :
  layerAt (heap st) (currentLayer st) = Some L ->
  leaves allowed (exact_binding event L) = true ->
  leaves allowed (WildcardBinding L) = true ->
  P st -> handleKey env event st = Ok tt st' -> P st'.
Proof.
  intros HL Hexact Hwild HP Hrun. unfold handleKey in Hrun.
  rewrite bind_get in Hrun.
  rewrite (bind_Ok _ _ st L st) in Hrun by (unfold derefLayer; by rewrite HL).
  apply bind_Ok_inv in Hrun as (b & st1 & H1 & Hrun).
  apply resolveBinding_inv in H1 as [Hv1 Hb].
  assert (HP1 : P st1) by (by apply (P_view st)).
  apply bind_Ok_inv in Hrun as ([] & st2 & H1 & Hrun).
  assert (HP2 : P st2).
  { destruct (isPress event); [by inversion H1; subst|]. simpl in H1.
    rewrite bind_get in H1.
    destruct (findKey _ _ _) as [i|]; [|by inversion H1; subst].
    destruct (slice_elems (toggleLayerPrevious st1) !! i) as [q|] eqn:Hq;
      [|by unfold bind, index in H1; rewrite Hq in H1].
    unfold bind, index, derefLayer in H1. rewrite Hq in H1. simpl in H1.
    destruct (layerAt (heap st1) q); [|done]. simpl in H1.
    injection H1 as <-.
    eapply P_view; [|exact (P_release st1 i q Hq HP1)]. reflexivity. }
  apply bind_Ok_inv in Hrun as ([] & st3 & H2 & Hrun).
  assert (HP3 : P st3).
  { apply (P_view st2); [|done].
    assert (Hk : keeps_view (if negb (isPress event)
                             then (emit (KeyboardOriginalKeyUp (code event)) ;;
                                   emit (MouseOriginalKeyUp (code event)))%m
                             else ret tt))
      by (destruct (negb _); keeps_view_steps).
    by apply (Hk st2 tt). }
  eapply (executeBinding_preserves b); [|exact HP3|exact Hrun].
  destruct Hb as [->|[->|[[name ->]|Hplain]]]; [done|done|simpl; apply allowed_Layer|].
  by destruct b.
Qed.

End Preservation.

(** ** The two stacks have the same length *)

Definition aligned (st : State) : Prop :=
  slice_len (toggleLayerKeys st) = slice_len (toggleLayerPrevious st).

(** The variants that write to the interpreter's variables. *)
Definition switches (b : Binding) : bool :=
  match b with
  | LayerBinding _ | ToggleLayerBinding _ | ReloadConfigBinding => true
  | _ => false
  end.

Lemma aligned_view st st' : view st' = view st -> aligned st -> aligned st'.
Proof. unfold view, aligned. by intros [= _ _ -> -> _]. Qed.

Lemma aligned_drop_toggles st : aligned st -> aligned (drop_toggles st).
Proof.
  unfold aligned, drop_toggles. intros Ha.
  by destruct (toggleLayerPrevious st) eqn:Hprev; simpl; rewrite ?Hprev.
Qed.

Lemma aligned_leaf event b st st' :
  switches b = true ->
  aligned st -> executeBinding env event b st = Ok tt st' -> aligned st'.
Proof.
  destruct b; try done; intros _ Ha Hrun; destruct (isPress event) eqn:Hp;
    try (simpl in Hrun; rewrite Hp in Hrun; by inversion Hrun).
  - rewrite executeBinding_Layer_press in Hrun by done.
    destruct (config st) as [cfg|]; [|done].
    apply forLayers_inv in Hrun as [->|(p & L & _ & _ & Hf)].
    + by apply aligned_drop_toggles.
    + inversion Hf. by apply (aligned_drop_toggles (add_log executing st)).
  - rewrite executeBinding_ToggleLayer_press in Hrun by done.
    destruct (config st) as [cfg|]; [|done].
    apply forLayers_inv in Hrun as [->|(p & L & _ & _ & Hf)]; [done|].
    inversion Hf. unfold aligned, slice_len, slice_append in *. simpl.
    rewrite !length_app. simpl. by rewrite Ha.
  - simpl in Hrun. rewrite Hp in Hrun.
    apply bind_Ok_inv in Hrun as ([] & st1 & H1 & Hrun). inversion H1; subst; clear H1.
    apply loadConfig_inv in Hrun as (_ & _ & _ & _ & _ & _ & _ & Hk & Hprev).
    unfold aligned. by rewrite Hk, Hprev.
Qed.

Lemma aligned_release st i p :
  slice_elems (toggleLayerPrevious st) !! i = Some p ->
  aligned st ->
  aligned (set_toggleLayerPrevious (slice_upto i (toggleLayerPrevious st))
             (set_toggleLayerKeys (slice_upto i (toggleLayerKeys st))
                (set_currentLayer p st))).
Proof.
  unfold aligned, slice_len, slice_upto, slice_elems. simpl. intros _ Ha.
  destruct (toggleLayerKeys st), (toggleLayerPrevious st); simpl in *;
    rewrite ?length_take; lia.
Qed.

Lemma leaves_switches b : leaves switches b = true.
Proof.
  induction b as [bs IH|tap hold IHt IHh|b Hb] using Binding_nested_ind; simpl.
  - induction IH as [|b bs Hb _ IHbs]; simpl; [done|]. by rewrite Hb.
  - by rewrite IHt, IHh.
  - by destruct b.
Qed.

(** A step of the interpreter from a state whose stacks are aligned. *)
Lemma handleKey_aligned event st st' :
  aligned st -> handleKey env event st = Ok tt st' -> aligned st'.
Proof.
  intros Ha Hrun.
  destruct (layerAt (heap st) (currentLayer st)) as [L|] eqn:HL.
  - eapply (handleKey_preserves aligned switches aligned_view aligned_leaf aligned_release);
      eauto using leaves_switches.
  - unfold handleKey in Hrun. rewrite bind_get in Hrun.
    unfold bind, derefLayer in Hrun. by rewrite HL in Hrun.
Qed.

(** ** [currentLayer] is a live layer of the configuration *)

(** The configuration's layers are live, and [currentLayer] and the layers
    recorded on the stack are among them. *)
Definition in_config (st : State) : Prop :=
  exists cfg,
    config st = Some cfg /\
    all_live (heap st) (Layers cfg) /\
    currentLayer st ∈ Layers cfg /\
    Forall (fun p => p ∈ Layers cfg) (slice_elems (toggleLayerPrevious st)).

(** The variants that switch layers within the configuration. *)
Definition switches_layer (b : Binding) : bool :=
  match b with
  | LayerBinding _ | ToggleLayerBinding _ => true
  | _ => false
  end.

(** No leaf of the binding is [ReloadConfig]. *)
Definition reload_free (b : Binding) : bool := leaves switches_layer b.

Lemma in_config_live st :
  in_config st -> is_Some (layerAt (heap st) (currentLayer st)).
Proof.
  intros (cfg & _ & Hlive & Hin & _).
  unfold all_live in Hlive. rewrite Forall_forall in Hlive. by apply Hlive.
Qed.

Lemma in_config_view st st' : view st' = view st -> in_config st -> in_config st'.
Proof.
  unfold view. intros [= Hc Hcur _ Hprev Hl] (cfg & ? & Hlive & ? & ?).
  exists cfg. rewrite Hc, Hcur, Hprev. split_and!; try done.
  unfold all_live, layerAt in *. by rewrite Hl.
Qed.

Lemma in_config_leaf event b st st' :
  switches_layer b = true ->
  in_config st -> executeBinding env event b st = Ok tt st' -> in_config st'.
Proof.
  destruct b; try done; intros _ (cfg & Hc & Hlive & Hcur & Hprev) Hrun;
    destruct (isPress event) eqn:Hp;
    try (simpl in Hrun; rewrite Hp in Hrun; inversion Hrun; by exists cfg).
  - rewrite executeBinding_Layer_press, Hc in Hrun by done.
    assert (Hdrop : Forall (fun p => p ∈ Layers cfg)
              (slice_elems (toggleLayerPrevious (drop_toggles (add_log executing st))))).
    { unfold drop_toggles. simpl.
      by destruct (toggleLayerPrevious st) eqn:Hpr; simpl; rewrite ?Hpr. }
    assert (Hsame : config (drop_toggles (add_log executing st)) = Some cfg /\
                    heap (drop_toggles (add_log executing st)) = heap st /\
                    currentLayer (drop_toggles (add_log executing st)) = currentLayer st).
    { unfold drop_toggles. simpl. by destruct (toggleLayerPrevious st). }
    destruct Hsame as (Hc1 & Hh1 & Hcur1).
    apply forLayers_inv in Hrun as [->|(p & L & Hin & _ & Hf)].
    + exists cfg. by rewrite Hh1, Hcur1.
    + inversion Hf. exists cfg. simpl. by rewrite Hh1.
  - rewrite executeBinding_ToggleLayer_press, Hc in Hrun by done.
    apply forLayers_inv in Hrun as [->|(p & L & Hin & _ & Hf)]; [by exists cfg|].
    inversion Hf. exists cfg. simpl. split_and!; try done.
    apply Forall_app. split; [done|]. by apply Forall_singleton.
Qed.

Lemma in_config_release st i p :
  slice_elems (toggleLayerPrevious st) !! i = Some p ->
  in_config st ->
  in_config (set_toggleLayerPrevious (slice_upto i (toggleLayerPrevious st))
               (set_toggleLayerKeys (slice_upto i (toggleLayerKeys st))
                  (set_currentLayer p st))).
Proof.
  intros Hi (cfg & Hc & Hlive & Hcur & Hprev). exists cfg. simpl.
  split_and!; try done.
  - rewrite Forall_forall in Hprev. apply Hprev. by eapply list_elem_of_lookup_2.
  - unfold slice_upto, slice_elems in *.
    destruct (toggleLayerPrevious st); simpl in *; [|done]. by apply Forall_take.
Qed.

Lemma handleKey_in_config event st st' L :
  layerAt (heap st) (currentLayer st) = Some L ->
  reload_free (exact_binding event L) = true ->
  reload_free (WildcardBinding L) = true ->
  in_config st -> handleKey env event st = Ok tt st' -> in_config st'.
Proof.
  intros HL He Hw.
  by apply (handleKey_preserves in_config switches_layer
              in_config_view in_config_leaf in_config_release
              (fun _ => eq_refl) event st st' L).
Qed.

(** ** Reachable states *)

(** The states of the main loop: [loadConfig] at start-up, [main]'s
    package-level stacks being nil, and then any number of key events
    handled without exit or panic. *)
Inductive reachable : State -> Prop :=
| reachable_start st0 st :
    toggleLayerKeys st0 = None ->
    toggleLayerPrevious st0 = None ->
    loadConfig env st0 = Ok tt st ->
    reachable st
| reachable_step st event st' :
    reachable st ->
    handleKey env event st = Ok tt st' ->
    reachable st'.

(** X1.  In every reachable state [toggleLayerKeys] and
    [toggleLayerPrevious] have the same length, whatever was executed on the
    way, reloads included. *)
Theorem reachable_aligned st : reachable st -> aligned st.
Proof.
  induction 1 as [st0 st Hk Hp Hload|st event st' _ IH Hrun].
  - apply loadConfig_inv in Hload as (_ & _ & _ & _ & _ & _ & _ & Hk' & Hp').
    unfold aligned. by rewrite Hk', Hp', Hk, Hp.
  - by eapply handleKey_aligned.
Qed.

(** X2.  When [loadConfig] returns, [currentLayer] is [config.Layers[0]],
    which is a member of [config.Layers] and is not nil. *)
Theorem loadConfig_sets_initial_layer st st' :
  loadConfig env st = Ok tt st' ->
  exists cfg L0,
    config st' = Some cfg /\
    Layers cfg !! 0%nat = Some (currentLayer st') /\
    currentLayer st' ∈ Layers cfg /\
    currentLayer st' <> None /\
    layerAt (heap st') (currentLayer st') = Some L0.
Proof.
  intros (cfg & l0 & L0 & Hc & Hl0 & <- & HL0 & _)%loadConfig_inv.
  exists cfg, L0. split_and!; try done.
  - by eapply list_elem_of_lookup_2.
  - intros Hnil. by rewrite Hnil in HL0.
Qed.

(** X3.  A key event none of whose possible bindings (the one stored for
    the code, the wildcard) contains [ReloadConfig] preserves: the
    configuration's layers are live, and [currentLayer] and every entry of
    [toggleLayerPrevious] are among them.  In particular [currentLayer] is
    then a member of [config.Layers] and not nil. *)
Theorem handleKey_keeps_currentLayer_in_config event st st' L :
  in_config st ->
  layerAt (heap st) (currentLayer st) = Some L ->
  reload_free (exact_binding event L) = true ->
  reload_free (WildcardBinding L) = true ->
  handleKey env event st = Ok tt st' ->
  in_config st' /\
  (exists cfg, config st' = Some cfg /\ currentLayer st' ∈ Layers cfg) /\
  currentLayer st' <> None.
Proof.
  intros Hin HL He Hw Hrun.
  assert (Hin' : in_config st') by (by eapply handleKey_in_config).
  split_and!; [done| |].
  - destruct Hin' as (cfg & ? & _ & ? & _). by exists cfg.
  - apply in_config_live in Hin' as [L' HL']. intros Hnil. by rewrite Hnil in HL'.
Qed.

End Invariants.

(** The fixture's states are reachable. *)
Lemma fixture_reachable : reachable Fixture.env_ok Fixture.st_held58_59.
Proof.
  apply (reachable_step _ Fixture.st_held58 (Fixture.press 59)); [|vm_compute; reflexivity].
  apply (reachable_step _ Fixture.st0 (Fixture.press 58)); [|vm_compute; reflexivity].
  by apply (reachable_start _ Fixture.st_boot).
Defined.

(** X1, on an instance: the state with CapsLock and F1 held. *)
Lemma reachable_aligned_witness : aligned Fixture.st_held58_59.
Proof. exact (reachable_aligned Fixture.env_ok Fixture.st_held58_59 fixture_reachable). Defined.

(** X2, on an instance: start-up. *)
Lemma loadConfig_sets_initial_layer_witness :
  exists cfg L0,
    Mouseless.config Fixture.st0 = Some cfg /\
    Mouseless.Layers cfg !! 0%nat = Some (Mouseless.currentLayer Fixture.st0) /\
    Mouseless.currentLayer Fixture.st0 ∈ Mouseless.Layers cfg /\
    Mouseless.currentLayer Fixture.st0 <> None /\
    Mouseless.layerAt (Mouseless.heap Fixture.st0) (Mouseless.currentLayer Fixture.st0)
    = Some L0.
Proof.
  exact (loadConfig_sets_initial_layer Fixture.env_ok Fixture.st_boot Fixture.st0 eq_refl).
Defined.

Lemma fixture_in_config : in_config Fixture.st_held58.
Proof.
  exists Fixture.config0. split; [reflexivity|]. split; [exact fixture_all_live|].
  split; [|repeat constructor]. simpl. right. left.
Defined.

(** X3, on an instance: the press of F1 with CapsLock held. *)
Lemma handleKey_keeps_currentLayer_in_config_witness :
  in_config Fixture.st_held58_59 /\
  (exists cfg, Mouseless.config Fixture.st_held58_59 = Some cfg /\
               Mouseless.currentLayer Fixture.st_held58_59 ∈ Mouseless.Layers cfg) /\
  Mouseless.currentLayer Fixture.st_held58_59 <> None.
Proof.
  apply (handleKey_keeps_currentLayer_in_config Fixture.env_ok (Fixture.press 59)
           Fixture.st_held58 Fixture.st_held58_59 Fixture.L1 fixture_in_config eq_refl).
  - reflexivity.
  - reflexivity.
  - vm_compute. reflexivity.
Defined.

(** * More on the keyboard reader *)

Section ReaderRuns.

Import Keyboard.

Variable GetKeyAlias : Z -> option string.
Variable now : nat -> Z.

(** The events sent for a list of events that pass the filter, the first of
    them stamped with the [n]-th reading of the clock. *)
Definition stamped (n : nat) (events : list InputEvent) : list Event :=
  imap (fun j event =>
          mkEvent (ev_Code event) (bool_decide (ev_Value event = 1)) (now (n + j)))
       events.

Lemma forwardEvents_app events1 events2 w :
  forwardEvents GetKeyAlias now (events1 ++ events2) w =
  forwardEvents GetKeyAlias now events2 (forwardEvents GetKeyAlias now events1 w).
Proof. unfold forwardEvents. by rewrite foldl_app. Qed.

Lemma forwardEvents_sent events : forall w,
  eventChan (forwardEvents GetKeyAlias now events w) =
    eventChan w ++ stamped (nowCalls w) (filter forwarded events) /\
  nowCalls (forwardEvents GetKeyAlias now events w) =
    (nowCalls w + length (filter forwarded events))%nat /\
  spawned (forwardEvents GetKeyAlias now events w) = spawned w.
Proof.
  induction events as [|event events IH]; intros w.
  - simpl. rewrite app_nil_r. split_and!; [done|lia|done].
  - change (forwardEvents GetKeyAlias now (event :: events) w)
      with (forwardEvents GetKeyAlias now events (forwardEvent GetKeyAlias now event w)).
    destruct (IH (forwardEvent GetKeyAlias now event w)) as (Hc & Hn & Hs).
    rewrite Hc, Hn, Hs. clear IH Hc Hn Hs.
    destruct (decide (forwarded event)) as [Hf|Hf].
    + rewrite filter_cons_True by done.
      rewrite forwardEvent_forwarded by done. simpl.
      split_and!; [|lia|done].
      rewrite <- app_assoc. f_equal. unfold stamped. simpl.
      rewrite Nat.add_0_r. f_equal.
      apply imap_ext. intros j ev _. simpl. do 2 f_equal. lia.
    + rewrite filter_cons_False by done.
      by rewrite forwardEvent_dropped.
Qed.

Lemma readKeyboard_batches batches : forall k w,
  state k = StateOpen ->
  readKeyboard GetKeyAlias now (inl <$> batches) k w =
    (k, forwardEvents GetKeyAlias now (concat batches) w) /\
  forall err rest,
    readKeyboard GetKeyAlias now ((inl <$> batches) ++ inr err :: rest) k w =
      (set_state StateNotOpen k,
       log WarnLevel "Failed to read keyboard: %v" [ArgString err]
           (forwardEvents GetKeyAlias now (concat batches) w)).
Proof.
  induction batches as [|batch batches IH]; intros k w Hopen.
  - simpl. rewrite bool_decide_eq_false_2 by (intros Hn; by apply Hn). done.
  - simpl. rewrite bool_decide_eq_false_2 by (intros Hn; by apply Hn).
    rewrite forwardEvents_app. by apply IH.
Qed.

Lemma stamped_forwarded n events :
  Forall2 (fun event e =>
             Code e = ev_Code event /\ (IsPress e = true <-> ev_Value event = 1))
          events (stamped n events).
Proof.
  apply Forall2_same_length_lookup_2; [unfold stamped; by rewrite length_imap|].
  intros j event e Hevent He. unfold stamped in He.
  rewrite list_lookup_imap, Hevent in He. simpl in He. injection He as <-. simpl.
  split; [done|]. by rewrite bool_decide_eq_true.
Qed.

Lemma stamped_time n events j e : stamped n events !! j = Some e -> Time e = now (n + j).
Proof.
  unfold stamped. rewrite list_lookup_imap.
  destruct (events !! j); simpl; [|done]. by intros [= <-].
Qed.

(** C8.  Let [readKeyboard] run on an open device while [Read] returns the
    batches of a list.  What it has sent on the channel when the batches are
    used up is one [Event] for each evdev event read that has type EV_KEY and
    value 0 or 1, in the order in which the events were read, and nothing
    else: autorepeat events (value 2) and non-key events send nothing.  The
    [Event] sent for an evdev event has its code, has [IsPress] true exactly
    when its value is 1, and carries the reading of the reader's clock taken
    when the event is handled, the clock being read once for each event
    sent.  A read error after these batches leaves the channel as it is.
    Within the loop, the step for one event changes the channel if and only
    if the event passes that filter. *)
Theorem readKeyboard_forwards_key_events batches k w :
  state k = StateOpen ->
  let events := concat batches in
  let chan reads := eventChan (readKeyboard GetKeyAlias now reads k w).2 in
  exists sent,
    chan (inl <$> batches) = eventChan w ++ sent /\
    (forall err rest, chan ((inl <$> batches) ++ inr err :: rest) = eventChan w ++ sent) /\
    Forall2 (fun event e =>
               Code e = ev_Code event /\ (IsPress e = true <-> ev_Value event = 1))
            (filter forwarded events) sent /\
    (forall j e, sent !! j = Some e -> Time e = now (nowCalls w + j)) /\
    (forall event,
       event ∈ filter forwarded events <->
       event ∈ events /\ ev_Type event = EV_KEY /\
       (ev_Value event = 0 \/ ev_Value event = 1)) /\
    (forall event w0,
       forwarded event <->
       eventChan (forwardEvent GetKeyAlias now event w0) <> eventChan w0).
Proof.
  intros Hopen events chan.
  destruct (readKeyboard_batches batches k w Hopen) as [Hrun Herr].
  destruct (forwardEvents_sent events w) as (Hchan & _).
  exists (stamped (nowCalls w) (filter forwarded events)).
  split_and!.
  - unfold chan. by rewrite Hrun.
  - intros err rest. unfold chan. by rewrite Herr.
  - apply stamped_forwarded.
  - intros j e. apply stamped_time.
  - intros event. rewrite list_elem_of_filter. unfold forwarded. tauto.
  - intros event w0. destruct (decide (forwarded event)) as [Hf|Hf].
    + rewrite forwardEvent_forwarded by done. simpl. split; [|done].
      intros _ Heq. apply (f_equal length) in Heq. rewrite length_app in Heq.
      simpl in Heq. lia.
    + rewrite forwardEvent_dropped by done. split; [done|]. intros Hne. by destruct Hne.
Qed.

(** X4.  While the device is open, [readKeyboard] handles the batches that
    [Read] returns one after the other: the events it has sent are, in
    arrival order, those of all batches that are key events with value 0 or
    1, the j-th of them stamped with the j-th reading of the clock taken
    since the start, so with a monotone clock the timestamps on the channel
    never decrease.  The first read error is logged at warn level, moves the
    device to [StateNotOpen] and ends the task: nothing that [Read] would
    return afterwards is handled.  A task started on a device that is not
    open returns at once. *)
Theorem readKeyboard_forwards_until_read_error batches k w :
  (state k = StateOpen ->
   readKeyboard GetKeyAlias now (inl <$> batches) k w =
     (k, forwardEvents GetKeyAlias now (concat batches) w) /\
   (forall err rest,
      readKeyboard GetKeyAlias now ((inl <$> batches) ++ inr err :: rest) k w =
        (set_state StateNotOpen k,
         log WarnLevel "Failed to read keyboard: %v" [ArgString err]
             (forwardEvents GetKeyAlias now (concat batches) w)))) /\
  eventChan (forwardEvents GetKeyAlias now (concat batches) w) =
    eventChan w ++ stamped (nowCalls w) (filter forwarded (concat batches)) /\
  ((forall i j, (i <= j)%nat -> now i <= now j) ->
   forall i j e1 e2,
     (i <= j)%nat ->
     stamped (nowCalls w) (filter forwarded (concat batches)) !! i = Some e1 ->
     stamped (nowCalls w) (filter forwarded (concat batches)) !! j = Some e2 ->
     Time e1 <= Time e2) /\
  (forall reads, state k <> StateOpen -> readKeyboard GetKeyAlias now reads k w = (k, w)).
Proof.
  split_and!.
  - intros Hopen. by apply readKeyboard_batches.
  - apply forwardEvents_sent.
  - intros Hmono i j e1 e2 Hij H1 H2. unfold stamped in *.
    rewrite list_lookup_imap in H1, H2.
    destruct (_ !! i) as [ev1|]; [|done]. destruct (_ !! j) as [ev2|]; [|done].
    simpl in *. inversion H1; inversion H2; subst. simpl. apply Hmono. lia.
  - intros reads Hn. destruct reads; simpl; by rewrite bool_decide_eq_true_2.
Qed.

End ReaderRuns.

(** C8, on an instance: an open device whose reader has no alias table and a
    clock that advances by 7 between readings.  The first batch holds a press
    of key 30 and an autorepeat of it, the second a relative-motion event and
    the release of the key. *)
Lemma readKeyboard_forwards_key_events_witness :
  let alias : Z -> option string := fun _ => None in
  let clock : nat -> Z := fun n => 100 + 7 * Z.of_nat n in
  let k0 := Keyboard.mkDevice "/dev/input/event3"
              (Some (Keyboard.mkInputDevice "AT keyboard" 65537 17 1 1 43841))
              Keyboard.StateOpen "" in
  let w0 := Keyboard.mkWorld [] [] 0 0 in
  let batches := [[Keyboard.mkInputEvent 1 30 1; Keyboard.mkInputEvent 1 30 2];
                  [Keyboard.mkInputEvent 2 0 5; Keyboard.mkInputEvent 1 30 0]] in
  let chan := Keyboard.eventChan (Keyboard.readKeyboard alias clock (inl <$> batches) k0 w0).2 in
  Keyboard.state k0 = Keyboard.StateOpen /\
  chan = [Keyboard.mkEvent 30 true 100; Keyboard.mkEvent 30 false 107] /\
  exists sent,
    chan = [] ++ sent /\
    Forall2 (fun event e =>
               Keyboard.Code e = Keyboard.ev_Code event /\
               (Keyboard.IsPress e = true <-> Keyboard.ev_Value event = 1))
            (filter forwarded (concat batches)) sent /\
    forall j e, sent !! j = Some e -> Keyboard.Time e = clock (0 + j)%nat.
Proof.
  intros alias clock k0 w0 batches chan.
  split; [reflexivity|]. split; [reflexivity|].
  destruct (readKeyboard_forwards_key_events alias clock batches k0 w0 eq_refl)
    as (sent & Hchan & _ & Hsent & Htime & _).
  exists sent. split; [exact Hchan|]. split; [exact Hsent|exact Htime].
Defined.

(** X4, on an instance: two batches, then a read error, then a batch that is
    never read. *)
Lemma readKeyboard_forwards_until_read_error_witness :
  let alias : Z -> option string := fun _ => None in
  let clock : nat -> Z := fun n => 100 + 7 * Z.of_nat n in
  let k := Keyboard.mkDevice "/dev/input/event3" None Keyboard.StateOpen "" in
  let w0 := Keyboard.mkWorld [] [] 0 0 in
  let result :=
    Keyboard.readKeyboard alias clock
      [inl [Keyboard.mkInputEvent 1 30 1; Keyboard.mkInputEvent 1 30 2];
       inl [Keyboard.mkInputEvent 1 30 0];
       inr "no such device"%string;
       inl [Keyboard.mkInputEvent 1 31 1]] k w0 in
  Keyboard.state result.1 = Keyboard.StateNotOpen /\
  Keyboard.eventChan result.2 =
    [Keyboard.mkEvent 30 true 100; Keyboard.mkEvent 30 false 107].
Proof.
  intros alias clock k w0 result.
  destruct (readKeyboard_forwards_until_read_error alias clock
              [[Keyboard.mkInputEvent 1 30 1; Keyboard.mkInputEvent 1 30 2];
               [Keyboard.mkInputEvent 1 30 0]] k w0) as (Hrun & _).
  destruct (Hrun eq_refl) as [_ Herr].
  specialize (Herr "no such device"%string [inl [Keyboard.mkInputEvent 1 31 1]]).
  unfold result. simpl fmap in Herr. simpl app in Herr. rewrite Herr.
  split; reflexivity.
Defined.

(** * More on the open/retry loop *)

Section RetryRuns.

Import Keyboard.

(** The error of the last attempt of a list, if there is one. *)
Definition last_error (atts : list OpenAttempt) : option string :=
  last atts ≫= attempt_error.

Lemma ReadLoop_body_success att k w dev :
  state k <> StateOpen ->
  open_result att = inl dev ->
  grab_result att = None ->
  exists w',
    ReadLoop_body att k w =
      (mkDevice (deviceName k) (Some dev) StateOpen (lastOpenError k), w') /\
    spawned w' = S (spawned w) /\ eventChan w' = eventChan w /\
    nowCalls w' = nowCalls w.
Proof.
  intros Hs Ho Hg. unfold ReadLoop_body, openDevice.
  rewrite bool_decide_eq_true_2 by done. rewrite Ho, Hg.
  eexists. split; [reflexivity|]. done.
Qed.

Lemma ReadLoop_when_open atts : forall k w,
  state k = StateOpen -> ReadLoop atts k w = (k, w).
Proof.
  induction atts as [|att atts IH]; intros k w Ho; [done|].
  simpl. unfold ReadLoop_body. rewrite bool_decide_eq_false_2 by (intros Hn; by apply Hn).
  by apply IH.
Qed.

Lemma ReadLoop_app atts1 atts2 : forall k w,
  ReadLoop (atts1 ++ atts2) k w =
  ReadLoop atts2 (ReadLoop atts1 k w).1 (ReadLoop atts1 k w).2.
Proof.
  induction atts1 as [|att atts1 IH]; intros k w; [done|].
  simpl. destruct (ReadLoop_body att k w). apply IH.
Qed.

Lemma ReadLoop_failures fails : forall k w,
  state k <> StateOpen ->
  Forall (fun att => is_Some (attempt_error att)) fails ->
  exists w',
    ReadLoop fails k w =
      (mkDevice (deviceName k) (device k)
                (match fails with [] => state k | _ => StateOpenFailed end)
                (default (lastOpenError k) (last_error fails)), w') /\
    spawned w' = spawned w /\ eventChan w' = eventChan w /\ nowCalls w' = nowCalls w.
Proof.
  induction fails as [|att fails IH]; intros k w Hs Hall.
  - exists w. by destruct k.
  - inversion Hall as [|? ? [err Herr] Hall']; subst.
    simpl. rewrite (ReadLoop_body_failure att k w err Hs Herr).
    edestruct (IH (mkDevice (deviceName k) (device k) StateOpenFailed err)) as (w' & Hrun & ?);
      [done|done|].
    exists w'. rewrite Hrun. split; [|done]. simpl. f_equal. f_equal.
    + by destruct fails.
    + unfold last_error. destruct fails as [|att' fails]; [simpl; by rewrite Herr|].
      rewrite last_cons_cons.
      destruct (last (att' :: fails)) as [a|] eqn:Hlast; [|by apply last_None in Hlast].
      apply last_Some_elem_of in Hlast. rewrite Forall_forall in Hall'.
      destruct (Hall' a Hlast) as [e He]. simpl. by rewrite He.
Qed.

(** X5.  Started on a device that is not open, [ReadLoop] makes one open
    attempt per turn until one succeeds.  After turns that all fail the
    device is in [StateOpenFailed] with the last error recorded and no
    reader task has been started.  At the first attempt that succeeds the
    device becomes open with the handle obtained and exactly one reader task
    is started; on the turns that follow, with the device still open, no
    attempt is made; and [lastOpenError] still holds the error of the last
    failure before the success. *)
Theorem ReadLoop_opens_at_first_success fails k w :
  state k <> StateOpen ->
  Forall (fun att => is_Some (attempt_error att)) fails ->
  (exists w',
     ReadLoop fails k w =
       (mkDevice (deviceName k) (device k)
                 (match fails with [] => state k | _ => StateOpenFailed end)
                 (default (lastOpenError k) (last_error fails)), w') /\
     spawned w' = spawned w /\ eventChan w' = eventChan w) /\
  (forall att dev rest,
     open_result att = inl dev ->
     grab_result att = None ->
     exists w',
       ReadLoop (fails ++ att :: rest) k w =
         (mkDevice (deviceName k) (Some dev) StateOpen
                   (default (lastOpenError k) (last_error fails)), w') /\
       ReadLoop (fails ++ att :: rest) k w = ReadLoop (fails ++ [att]) k w /\
       spawned w' = S (spawned w) /\ eventChan w' = eventChan w).
Proof.
  intros Hs Hall.
  destruct (ReadLoop_failures fails k w Hs Hall) as (w1 & Hrun1 & Hsp1 & Hch1 & _).
  split; [by exists w1|].
  intros att dev rest Ho Hg.
  assert (Happ : forall tl, ReadLoop (fails ++ tl) k w =
            ReadLoop tl (mkDevice (deviceName k) (device k)
                           (match fails with [] => state k | _ => StateOpenFailed end)
                           (default (lastOpenError k) (last_error fails))) w1).
  { intros tl. by rewrite ReadLoop_app, Hrun1. }
  set (k1 := mkDevice _ _ _ _) in *.
  assert (Hs1 : state k1 <> StateOpen) by (unfold k1; simpl; by destruct fails).
  destruct (ReadLoop_body_success att k1 w1 dev Hs1 Ho Hg) as (w2 & Hbody & Hsp2 & Hch2 & _).
  exists w2. rewrite !Happ. simpl. rewrite Hbody.
  rewrite ReadLoop_when_open by done.
  split_and!; [done|done|congruence|congruence].
Qed.

End RetryRuns.

(** X5, on an instance: a new device; the node is missing on the first turn,
    the grab is refused on the second, the third attempt succeeds and a
    fourth would fail. *)
Lemma ReadLoop_opens_at_first_success_witness :
  let dev := Keyboard.mkInputDevice "AT keyboard" 65537 17 1 1 43841 in
  let result :=
    Keyboard.ReadLoop
      [Keyboard.mkAttempt (inr "no such file or directory"%string) None;
       Keyboard.mkAttempt (inl dev) (Some "device or resource busy"%string);
       Keyboard.mkAttempt (inl dev) None;
       Keyboard.mkAttempt (inr "no such file or directory"%string) None]
      (Keyboard.NewKeyboardDevice "/dev/input/event3") (Keyboard.mkWorld [] [] 0 0) in
  Keyboard.state result.1 = Keyboard.StateOpen /\
  Keyboard.lastOpenError result.1 = "device or resource busy"%string /\
  Keyboard.spawned result.2 = 1%nat.
Proof.
  intros dev result.
  destruct (ReadLoop_opens_at_first_success
              [Keyboard.mkAttempt (inr "no such file or directory"%string) None;
               Keyboard.mkAttempt (inl dev) (Some "device or resource busy"%string)]
              (Keyboard.NewKeyboardDevice "/dev/input/event3") (Keyboard.mkWorld [] [] 0 0))
    as [_ Hsucc].
  - discriminate.
  - repeat constructor; by eexists.
  - destruct (Hsucc (Keyboard.mkAttempt (inl dev) None) dev
                [Keyboard.mkAttempt (inr "no such file or directory"%string) None]
                eq_refl eq_refl) as (w' & Hrun & _ & Hsp & _).
    unfold result. simpl app in Hrun. rewrite Hrun. simpl. done.
Defined.

(** * More on the interpreter and the main loop *)

Section MoreInterpreter.

Import Mouseless.

Variable env : Env.

(** X6.  On a release event [executeBinding] changes nothing but the log,
    whatever the binding and however deeply [Multi] and [TapHold] bindings
    are nested in it: it returns, and the only difference between the states
    is a number of "Executing" entries at debug level. *)
Theorem release_executes_nothing event b st :
  isPress event = false ->
  exists n,
    executeBinding env event b st = Ok tt (with_logs (replicate n executing) st) /\
    (0 < n)%nat.
Proof.
  intros Hp. revert st.
  induction b as [bs IH|tap hold IHt IHh|b Hb] using Binding_nested_ind; intros st.
  - rewrite executeBinding_Multi, add_log_with_logs.
    assert (Hgen : forall m, exists n,
      executeEach env event bs (with_logs (replicate m executing) st) =
        Ok tt (with_logs (replicate n executing) st) /\ (m <= n)%nat).
    { induction IH as [|b bs Hb _ IHbs]; intros m; [by exists m|].
      simpl. unfold bind. destruct (Hb (with_logs (replicate m executing) st)) as (n1 & -> & _).
      rewrite with_logs_app, <- replicate_add.
      destruct (IHbs (m + n1)%nat) as (n & Hn & ?). exists n. split; [done|lia]. }
    destruct (Hgen 1%nat) as (n & Hn & ?). exists n. split; [exact Hn|lia].
  - rewrite executeBinding_TapHold, add_log_with_logs.
    destruct (holdKey event).
    + destruct (IHh (with_logs [executing] st)) as (n & -> & _).
      rewrite with_logs_app. exists (1 + n)%nat. split; [done|lia].
    + destruct (IHt (with_logs [executing] st)) as (n & -> & _).
      rewrite with_logs_app. exists (1 + n)%nat. split; [done|lia].
  - exists 1%nat. split; [|lia].
    destruct b; try done; simpl; by rewrite Hp.
Qed.

(** ** [loadConfig] *)

(** X7.  [loadConfig] ends in one of three ways, decided by what
    [readConfig] returns.  With an error it exits with status 1.  With no
    error it panics when the [*Config] is nil, when [config.Layers] is empty
    or when [config.Layers[0]] is nil; [config] has been replaced before, and
    in the last case [currentLayer] as well.  Otherwise it returns, with the
    new configuration installed, [currentLayer] set to its first layer, and
    the two toggle stacks as they were. *)
Theorem loadConfig_outcomes st c err h :
  readConfig env (configFile st) (heap st) = (c, err, h) ->
  let st1 := set_config c (set_heap h st) in
  match err, c with
  | Some e, _ =>
    loadConfig env st =
      Exit 1 (with_logs (exit_entries "Failed to read the config file" e) st1)
  | None, None => loadConfig env st = Panic st1
  | None, Some cfg =>
    match Layers cfg with
    | [] => loadConfig env st = Panic st1
    | l0 :: _ =>
      match layerAt h l0 with
      | None => loadConfig env st = Panic (set_currentLayer l0 st1)
      | Some L0 =>
        loadConfig env st =
          Ok tt (add_log (mkLog DebugLevel "Switching to initial layer %s"
                                [ArgString (Name L0)])
                         (set_currentLayer l0 st1))
      end
    end
  end.
Proof.
  intros Hr st1. destruct err as [e|].
  - by apply loadConfig_failure.
  - unfold loadConfig. rewrite bind_get, Hr.
    unfold bind, derefConfig, index, derefLayer. simpl.
    destruct c as [cfg|]; [|done]. simpl.
    destruct (Layers cfg) as [|l0 ls]; [done|]. simpl.
    by destruct (layerAt h l0).
Qed.

(** ** The device check of the main loop *)

(** The warnings of the device check, one per device, numbered from 1. *)
Definition device_warnings (devices : list Keyboard.Device) : list LogEntry :=
  imap (fun i device =>
          mkLog WarnLevel "Device %d: %s: %s"
                [ArgInt (Z.of_nat i + 1); ArgString (Keyboard.DeviceName device);
                 ArgString (Keyboard.LastOpenError device)])
       devices.

Lemma oneDeviceOpen_exists devices : forall b,
  foldl (fun open device => if Keyboard.IsOpen device then true else open) b devices =
  b || existsb Keyboard.IsOpen devices.
Proof.
  induction devices as [|d devices IH]; intros b; simpl; [by rewrite orb_false_r|].
  rewrite IH. destruct (Keyboard.IsOpen d), b; simpl; try done.
Qed.

Lemma device_lines devices : forall (i : nat) st,
  (fix each (i : Z) (ds : list Keyboard.Device) : M unit :=
     match ds with
     | [] => ret tt
     | device :: ds =>
       (logf WarnLevel "Device %d: %s: %s"
             [ArgInt (i + 1); ArgString (Keyboard.DeviceName device);
              ArgString (Keyboard.LastOpenError device)] ;;
        each (i + 1)%Z ds)%m
     end) (Z.of_nat i) devices st =
  Ok tt (with_logs (imap (fun j device =>
                      mkLog WarnLevel "Device %d: %s: %s"
                            [ArgInt (Z.of_nat (i + j) + 1);
                             ArgString (Keyboard.DeviceName device);
                             ArgString (Keyboard.LastOpenError device)]) devices) st).
Proof.
  induction devices as [|d devices IH]; intros i st.
  - by rewrite with_logs_nil.
  - unfold bind, logf, modify. rewrite add_log_with_logs.
    replace (Z.of_nat i + 1) with (Z.of_nat (S i)) by lia.
    rewrite IH, with_logs_app. do 2 f_equal. simpl. f_equal.
    + do 3 f_equal. lia.
    + apply imap_ext. intros j x _. simpl. do 3 f_equal. lia.
Qed.

(** X8.  The device check of a turn of the main loop does nothing at all
    when at least one device is open.  When none is open, and in particular
    when there is no device, it logs a header and one line per device, in
    order and numbered from 1, all at warn level, sleeps 10 seconds, and
    changes nothing else. *)
Theorem checkDevices_warns_and_sleeps devices st :
  (existsb Keyboard.IsOpen devices = true -> checkDevices devices st = Ok tt st) /\
  (existsb Keyboard.IsOpen devices = false ->
   checkDevices devices st =
     Ok tt (add_effect (Sleep (10 * Second))
              (with_logs (mkLog WarnLevel "No keyboard device could be opened:" []
                          :: device_warnings devices) st))).
Proof.
  unfold checkDevices. rewrite oneDeviceOpen_exists. simpl.
  split; intros ->; [done|]. simpl.
  unfold bind at 1. unfold logf at 1, modify. rewrite add_log_with_logs.
  unfold bind. rewrite (device_lines devices 0). rewrite with_logs_app. reflexivity.
Qed.

(** ** The mouse tick, whatever is held *)

(** X9.  With the current layer live and a configuration loaded, the mouse
    part of a turn returns, never logs and never writes to the
    interpreter's variables or the heap.  It either arms the [math.MaxInt64]
    timer and calls nothing, or arms the 20 ms timer and calls [Scroll] and
    then [Move], once each; while the mouse reports motion it is always the
    latter, so the loop keeps ticking during deceleration. *)
Theorem mouseTick_outcomes pressed st L cfg :
  layerAt (heap st) (currentLayer st) = Some L ->
  config st = Some cfg ->
  exists d st',
    mouseTick env pressed st = Ok d st' /\
    view st' = view st /\ heap st' = heap st /\ logs st' = logs st /\
    ((d = MaxInt64 /\ st' = st /\ IsMoving env (effects st) = false) \/
     (d = mouseLoopInterval /\
      exists sx sy x y startSpeed maxSpeed aCurve aStep dCurve dStep factor,
        effects st' =
          effects st ++ [MouseScroll sx sy;
                         MouseMove x y startSpeed maxSpeed aCurve aStep dCurve dStep factor])) /\
    (IsMoving env (effects st) = true -> d = mouseLoopInterval).
Proof.
  intros HL Hc. unfold mouseTick.
  rewrite bind_get. rewrite (bind_Ok _ _ st L st) by (unfold derefLayer; by rewrite HL).
  cbv zeta.
  destruct (_ || IsMoving env (effects st)) eqn:Hcond.
  - rewrite (bind_Ok _ _ st cfg st) by (unfold derefConfig; by rewrite Hc).
    eexists _, _. split; [reflexivity|]. simpl. split_and!; try done.
    + right. split; [done|]. rewrite <- app_assoc. by do 11 eexists.
  - apply orb_false_elim in Hcond as [_ Hmov].
    exists MaxInt64, st. split_and!; try done.
    + by left.
    + by rewrite Hmov.
Qed.

(** ** Key events, end to end *)

Lemma findKey_None c keys : forall n, c ∉ keys -> findKey c keys n = None.
Proof.
  induction keys as [|key keys IH]; intros n Hn; [done|].
  simpl. apply not_elem_of_cons in Hn as [Hne Hn].
  rewrite bool_decide_eq_false_2 by done. by apply IH.
Qed.

Lemma resolveBinding_exact event L st :
  is_nil (exact_binding event L) = false ->
  resolveBinding event L st = Ok (exact_binding event L) st.
Proof.
  intros Hb. unfold resolveBinding. fold (exact_binding event L).
  rewrite Hb. cbn [andb]. unfold bind, ret. rewrite Hb. cbn [andb]. by rewrite Hb.
Qed.

Lemma resolveBinding_passThrough event L st :
  is_nil (exact_binding event L) = true ->
  code event <> KEY_ESC ->
  is_nil (WildcardBinding L) = true ->
  PassThrough L = true ->
  resolveBinding event L st =
    Ok (KeyBinding (Some (length (arrays (heap st)))))
       (set_arrays (arrays (heap st) ++ [[code event]]) st).
Proof.
  intros Hb Hesc Hw Hpt. unfold resolveBinding. fold (exact_binding event L).
  rewrite Hb, (bool_decide_eq_false_2 (code event = KEY_ESC)) by done.
  cbn [andb]. unfold bind at 1, ret at 1. rewrite Hb, Hw. cbn [andb negb].
  by rewrite Hb, Hpt.
Qed.

Lemma resolveBinding_bailOut event L st cfg l0 L0 :
  is_nil (exact_binding event L) = true ->
  code event = KEY_ESC ->
  isPress event = true ->
  config st = Some cfg ->
  Layers cfg !! 0%nat = Some l0 ->
  currentLayer st <> l0 ->
  layerAt (heap st) l0 = Some L0 ->
  resolveBinding event L st = Ok (LayerBinding (Name L0)) st.
Proof.
  intros Hb Hesc Hp Hc Hl0 Hne HL0. unfold resolveBinding. fold (exact_binding event L).
  rewrite Hb, (bool_decide_eq_true_2 (code event = KEY_ESC)), Hp by done.
  cbn [andb].
  rewrite (bind_Ok _ _ st (LayerBinding (Name L0)) st); [done|].
  rewrite bind_get.
  rewrite (bind_Ok _ _ st cfg st) by (unfold derefConfig; by rewrite Hc).
  rewrite (bind_Ok _ _ st l0 st) by (unfold index; by rewrite Hl0).
  rewrite bool_decide_eq_true_2 by done.
  by rewrite (bind_Ok _ _ st L0 st) by (unfold derefLayer; by rewrite HL0).
Qed.

(** A press goes straight from resolution to execution. *)
Lemma handleKey_press event st L b st1 :
  isPress event = true ->
  layerAt (heap st) (currentLayer st) = Some L ->
  resolveBinding event L st = Ok b st1 ->
  handleKey env event st = executeBinding env event b st1.
Proof.
  intros Hp HL Hr. unfold handleKey. rewrite bind_get.
  rewrite (bind_Ok _ _ st L st) by (unfold derefLayer; by rewrite HL).
  rewrite (bind_Ok _ _ st b st1) by done.
  rewrite Hp. reflexivity.
Qed.

(** A release of a key that is not on the toggle stack. *)
Lemma handleKey_release_plain event st L b st1 :
  isPress event = false ->
  layerAt (heap st) (currentLayer st) = Some L ->
  resolveBinding event L st = Ok b st1 ->
  code event ∉ slice_elems (toggleLayerKeys st1) ->
  handleKey env event st =
    executeBinding env event b
      (add_effect (MouseOriginalKeyUp (code event))
         (add_effect (KeyboardOriginalKeyUp (code event)) st1)).
Proof.
  intros Hp HL Hr Hn. unfold handleKey. rewrite bind_get.
  rewrite (bind_Ok _ _ st L st) by (unfold derefLayer; by rewrite HL).
  rewrite (bind_Ok _ _ st b st1) by done.
  rewrite Hp. cbn [negb].
  rewrite (bind_Ok _ _ st1 tt st1) by (rewrite bind_get; by rewrite findKey_None).
  reflexivity.
Qed.

(** X10.  Pass-through.  On a layer that passes through and has neither a
    binding for the key nor a wildcard binding, a press of a key other than
    Escape calls [PressKeys] once with the key as owner and a one-element
    combo holding the key itself, and a release (of a key that is not on the
    toggle stack) calls [OriginalKeyUp] on the keyboard and then on the
    mouse; neither changes the interpreter's variables. *)
Theorem passThrough_key event st L :
  layerAt (heap st) (currentLayer st) = Some L ->
  is_nil (exact_binding event L) = true ->
  is_nil (WildcardBinding L) = true ->
  PassThrough L = true ->
  code event <> KEY_ESC ->
  (isPress event = true ->
   exists st',
     handleKey env event st = Ok tt st' /\
     effects st' =
       effects st ++ [PressKeys (code event) (Some (S (length (arrays (heap st)))))
                                [code event]] /\
     view st' = view st) /\
  (isPress event = false ->
   code event ∉ slice_elems (toggleLayerKeys st) ->
   exists st',
     handleKey env event st = Ok tt st' /\
     effects st' =
       effects st ++ [KeyboardOriginalKeyUp (code event); MouseOriginalKeyUp (code event)] /\
     view st' = view st).
Proof.
  intros HL Hb Hw Hpt Hesc.
  pose proof (resolveBinding_passThrough event L st Hb Hesc Hw Hpt) as Hr.
  split.
  - intros Hp. rewrite (handleKey_press event st L _ _ Hp HL Hr).
    rewrite (executeBinding_Key_press env event _ [code event] _ Hp) by
      (unfold loadSlice; cbn [heap arrays set_arrays set_heap];
       by rewrite list_lookup_middle).
    eexists. split; [reflexivity|]. simpl. split; [|done].
    rewrite length_app. simpl. rewrite Nat.add_1_r.
    unfold substitute. by case_bool_decide.
  - intros Hp Hn. rewrite (handleKey_release_plain event st L _ _ Hp HL Hr) by done.
    simpl. rewrite Hp. eexists. split; [reflexivity|]. simpl.
    by rewrite <- app_assoc.
Qed.

(** X11.  Escape bail-out.  On a layer other than the initial one that has no
    binding for Escape, a press of Escape makes the initial layer current:
    the name looked up is that of [config.Layers[0]], which is the first layer
    the search meets.  The momentary stack is dropped
    ([toggleLayerPrevious] is nil afterwards, and both stacks are empty when
    they had the same length), and nothing is sent to the virtual devices. *)
Theorem escape_bails_out event st L cfg l0 L0 :
  layerAt (heap st) (currentLayer st) = Some L ->
  is_nil (exact_binding event L) = true ->
  code event = KEY_ESC ->
  isPress event = true ->
  config st = Some cfg ->
  Layers cfg !! 0%nat = Some l0 ->
  currentLayer st <> l0 ->
  layerAt (heap st) l0 = Some L0 ->
  exists st',
    handleKey env event st = Ok tt st' /\
    currentLayer st' = l0 /\
    toggleLayerPrevious st' = None /\
    (aligned st -> slice_len (toggleLayerKeys st') = 0%nat) /\
    config st' = config st /\ heap st' = heap st /\ effects st' = effects st.
Proof.
  intros HL Hb Hesc Hp Hc Hl0 Hne HL0.
  rewrite (handleKey_press event st L _ _ Hp HL
             (resolveBinding_bailOut event L st cfg l0 L0 Hb Hesc Hp Hc Hl0 Hne HL0)).
  rewrite executeBinding_Layer_press, Hc by done.
  destruct (Layers cfg) as [|l ls] eqn:Hls; [done|]. injection Hl0 as ->.
  assert (Hsame : heap (drop_toggles (add_log executing st)) = heap st /\
                  config (drop_toggles (add_log executing st)) = config st /\
                  effects (drop_toggles (add_log executing st)) = effects st /\
                  toggleLayerPrevious (drop_toggles (add_log executing st)) = None /\
                  (aligned st ->
                   slice_len (toggleLayerKeys (drop_toggles (add_log executing st))) = 0%nat)).
  { unfold drop_toggles, aligned. simpl.
    destruct (toggleLayerPrevious st) eqn:Hprev; simpl; rewrite ?Hprev; split_and!; done. }
  destruct Hsame as (Hh & Hc' & He & Hpr & Hk).
  simpl. rewrite (bind_Ok _ _ _ L0 (drop_toggles (add_log executing st)))
    by (unfold derefLayer; by rewrite Hh, HL0).
  rewrite bool_decide_eq_true_2 by done.
  eexists. split; [reflexivity|]. simpl. by rewrite Hh, Hc', He, Hpr.
Qed.

Lemma slice_upto_append {A} (s : slice A) x :
  slice_elems (slice_upto (length (slice_elems s)) (slice_append s x)) = slice_elems s.
Proof. unfold slice_upto, slice_append. simpl. by rewrite take_app_length. Qed.

(** X12.  Momentary round trip.  In a state whose stacks have the same
    length, let a key that is not on the toggle stack be bound on the current
    layer to [ToggleLayer name], [name] being the name of a layer of the
    configuration.  Its press makes the first layer with that name current;
    its release (whatever that layer binds the key to) makes the original
    layer current again and leaves both stacks with the entries they had
    before the press. *)
Theorem toggle_press_release_round_trip k hold hold' name st L cfg p Lp :
  layerAt (heap st) (currentLayer st) = Some L ->
  Bindings L !! k = Some (ToggleLayerBinding name) ->
  config st = Some cfg ->
  all_live (heap st) (Layers cfg) ->
  lookupLayer (heap st) name (Layers cfg) = Some (p, Lp) ->
  k ∉ slice_elems (toggleLayerKeys st) ->
  aligned st ->
  exists st1 st2,
    handleKey env (mkKeyboardEvent k true hold) st = Ok tt st1 /\
    currentLayer st1 = p /\
    handleKey env (mkKeyboardEvent k false hold') st1 = Ok tt st2 /\
    currentLayer st2 = currentLayer st /\
    slice_elems (toggleLayerKeys st2) = slice_elems (toggleLayerKeys st) /\
    slice_elems (toggleLayerPrevious st2) = slice_elems (toggleLayerPrevious st) /\
    config st2 = config st.
Proof.
  intros HL Hk Hc Hlive Hlook Hn Ha.
  set (press := mkKeyboardEvent k true hold).
  set (release := mkKeyboardEvent k false hold').
  assert (Hex : exact_binding press L = ToggleLayerBinding name)
    by (unfold exact_binding; simpl; by rewrite Hk).
  assert (Hr : resolveBinding press L st = Ok (ToggleLayerBinding name) st)
    by (rewrite <- Hex; apply resolveBinding_exact; by rewrite Hex).
  destruct (lookupLayer_elem _ _ _ _ _ Hlook) as (_ & HLp & _).
  set (st1 :=
    set_currentLayer p
      (set_toggleLayerPrevious (slice_append (toggleLayerPrevious st) (currentLayer st))
         (set_toggleLayerKeys (slice_append (toggleLayerKeys st) k)
            (add_log (mkLog DebugLevel "Switching to layer %v" [ArgString (Name Lp)])
                     (add_log executing st))))).
  assert (Hpress : handleKey env press st = Ok tt st1).
  { rewrite (handleKey_press press st L _ _ eq_refl HL Hr).
    rewrite executeBinding_ToggleLayer_press, Hc by done.
    rewrite forLayers_lookup by done. simpl. by rewrite Hlook. }
  set (i := length (slice_elems (toggleLayerKeys st))).
  destruct (handleKey_toggle_release env release st1 Lp i (currentLayer st) L)
    as (st2 & Hrun & Hcur & Hkeys & Hprev & Hcfg & _).
  - reflexivity.
  - exact HLp.
  - simpl. unfold slice_append, slice_elems. simpl. by rewrite list_lookup_middle.
  - intros j Hj. simpl. unfold slice_append. simpl.
    rewrite lookup_app_l by done. intros Hin.
    apply Hn. by eapply list_elem_of_lookup_2.
  - simpl. unfold slice_append. simpl. apply list_lookup_middle.
    unfold aligned, slice_len in Ha. unfold i. by rewrite Ha.
  - exact HL.
  - exists st1, st2. split; [exact Hpress|]. split; [reflexivity|].
    split; [exact Hrun|]. rewrite Hcur, Hkeys, Hprev, Hcfg.
    change (toggleLayerKeys st1) with (slice_append (toggleLayerKeys st) k).
    change (toggleLayerPrevious st1)
      with (slice_append (toggleLayerPrevious st) (currentLayer st)).
    split_and!; [done| | |done].
    + apply slice_upto_append.
    + unfold i. unfold aligned, slice_len in Ha. rewrite Ha. apply slice_upto_append.
Qed.

End MoreInterpreter.

(** X6, on an instance: a release executed on a [Multi] binding holding a key
    combo and a [TapHold] whose tap action would reload the configuration. *)
Lemma release_executes_nothing_witness :
  exists n,
    Mouseless.executeBinding Fixture.env_fails (Fixture.release 30)
      (Mouseless.MultiBinding
         [Mouseless.KeyBinding (Some 0%nat);
          Mouseless.TapHoldBinding Mouseless.ReloadConfigBinding
                                   (Mouseless.LayerBinding "L1")])
      Fixture.st_held58
    = Mouseless.Ok tt (with_logs (replicate n executing) Fixture.st_held58) /\
    (0 < n)%nat.
Proof.
  exact (release_executes_nothing Fixture.env_fails (Fixture.release 30) _
           Fixture.st_held58 eq_refl).
Defined.

(** X7, on two instances: start-up, and a reload of the broken file. *)
Lemma loadConfig_outcomes_witness :
  Mouseless.loadConfig Fixture.env_ok Fixture.st_boot = Mouseless.Ok tt Fixture.st0 /\
  Mouseless.loadConfig Fixture.env_fails Fixture.st_held58 =
    Mouseless.Exit 1
      (with_logs (exit_entries "Failed to read the config file"
                               "yaml: line 3: did not find expected key")
                 (Mouseless.set_config None
                    (Mouseless.set_heap Fixture.heap0 Fixture.st_held58))).
Proof.
  split.
  - exact (loadConfig_outcomes Fixture.env_ok Fixture.st_boot _ _ _ eq_refl).
  - exact (loadConfig_outcomes Fixture.env_fails Fixture.st_held58 _ _ _ eq_refl).
Defined.

(** X9, on an instance: nothing bound to a mouse action is held, but the
    mouse still reports motion. *)
Lemma mouseTick_outcomes_witness :
  let env := Mouseless.mkEnv Fixture.readConfig_ok (fun _ _ _ => None) (fun c => c)
                             Fixture.wildcard map_to_list (fun _ => true) in
  exists st',
    Mouseless.mouseTick env (fun _ => false) Fixture.st_held58_59
    = Mouseless.Ok (Mouseless.mouseLoopInterval) st' /\
    view st' = view Fixture.st_held58_59.
Proof.
  intros env.
  destruct (mouseTick_outcomes env (fun _ => false) Fixture.st_held58_59 Fixture.L2
              Fixture.config0 eq_refl eq_refl)
    as (d & st' & Hrun & Hv & _ & _ & _ & Hmov).
  exists st'. split; [|exact Hv]. rewrite <- (Hmov eq_refl). exact Hrun.
Defined.

(** X10, on an instance: A (30) on the initial layer of the fixture. *)
Lemma passThrough_key_witness :
  (exists st',
     Mouseless.handleKey Fixture.env_ok (Fixture.press 30) Fixture.st0
     = Mouseless.Ok tt st' /\
     Mouseless.effects st' = [Mouseless.PressKeys 30 (Some 2%nat) [30]]) /\
  (exists st',
     Mouseless.handleKey Fixture.env_ok (Fixture.release 30) Fixture.st0
     = Mouseless.Ok tt st' /\
     Mouseless.effects st'
     = [Mouseless.KeyboardOriginalKeyUp 30; Mouseless.MouseOriginalKeyUp 30]).
Proof.
  split.
  - destruct (proj1 (passThrough_key Fixture.env_ok (Fixture.press 30) Fixture.st0 Fixture.L0
                       eq_refl eq_refl eq_refl eq_refl ltac:(discriminate)) eq_refl)
      as (st' & Hrun & Heff & _).
    exists st'. split; [exact Hrun|exact Heff].
  - destruct (proj2 (passThrough_key Fixture.env_ok (Fixture.release 30) Fixture.st0 Fixture.L0
                       eq_refl eq_refl eq_refl eq_refl ltac:(discriminate)) eq_refl
                    (not_elem_of_nil _))
      as (st' & Hrun & Heff & _).
    exists st'. split; [exact Hrun|exact Heff].
Defined.

(** X11, on an instance: Escape with CapsLock held. *)
Lemma escape_bails_out_witness :
  exists st',
    Mouseless.handleKey Fixture.env_ok (Fixture.press KEY_ESC) Fixture.st_held58
    = Mouseless.Ok tt st' /\
    Mouseless.currentLayer st' = Some 0%nat /\
    Mouseless.toggleLayerPrevious st' = None /\
    Mouseless.slice_len (Mouseless.toggleLayerKeys st') = 0%nat.
Proof.
  destruct (escape_bails_out Fixture.env_ok (Fixture.press KEY_ESC) Fixture.st_held58
              Fixture.L1 Fixture.config0 (Some 0%nat) Fixture.L0
              eq_refl eq_refl eq_refl eq_refl eq_refl eq_refl ltac:(discriminate) eq_refl)
    as (st' & Hrun & Hcur & Hp & Hk & _).
  exists st'. split; [exact Hrun|]. split; [exact Hcur|]. split; [exact Hp|].
  exact (Hk eq_refl).
Defined.

(** X12, on an instance: F1 (59) pressed and released while CapsLock is
    held. *)
Lemma toggle_press_release_round_trip_witness :
  exists st1 st2,
    Mouseless.handleKey Fixture.env_ok (Fixture.press 59) Fixture.st_held58
    = Mouseless.Ok tt st1 /\
    Mouseless.currentLayer st1 = Some 2%nat /\
    Mouseless.handleKey Fixture.env_ok (Fixture.release 59) st1 = Mouseless.Ok tt st2 /\
    Mouseless.currentLayer st2 = Some 1%nat /\
    Mouseless.slice_elems (Mouseless.toggleLayerKeys st2) = [58] /\
    Mouseless.slice_elems (Mouseless.toggleLayerPrevious st2) = [Some 0%nat].
Proof.
  destruct (toggle_press_release_round_trip Fixture.env_ok 59 false false "L2"
              Fixture.st_held58 Fixture.L1 Fixture.config0 (Some 2%nat) Fixture.L2
              eq_refl eq_refl eq_refl fixture_all_live eq_refl)
    as (st1 & st2 & H1 & Hc1 & H2 & Hc2 & Hk & Hp & _).
  - simpl. intros H. apply list_elem_of_singleton in H. discriminate H.
  - reflexivity.
  - exists st1, st2. split; [exact H1|]. split; [exact Hc1|]. split; [exact H2|].
    split; [exact Hc2|]. split; [exact Hk|exact Hp].
Defined.

(** * Key events never crash a configuration that does not reload *)

Section Safety.

Import Mouseless Main.

Variable env : Env.

(** Every key combo in the binding is nil or refers to one of the first [n]
    arrays. *)
Fixpoint combos_ok (n : nat) (b : Binding) : bool :=
  match b with
  | MultiBinding bs => forallb (combos_ok n) bs
  | TapHoldBinding tap hold => combos_ok n tap && combos_ok n hold
  | KeyBinding (Some a) => bool_decide (a < n)%nat
  | _ => true
  end.

(** A binding that can be executed without reading the configuration file
    again and without following a dangling slice. *)
Definition safe_binding (n : nat) (b : Binding) : bool :=
  reload_free b && combos_ok n b.

(** Every binding of every layer is safe. *)
Definition bindings_ok (st : State) : Prop :=
  forall L, L ∈ layers (heap st) ->
    map_Forall (fun _ b => safe_binding (length (arrays (heap st))) b = true) (Bindings L) /\
    safe_binding (length (arrays (heap st))) (WildcardBinding L) = true.

(** The states in which key events are handled safely. *)
Definition wf (st : State) : Prop :=
  in_config st /\ aligned st /\ bindings_ok st.

Lemma combos_ok_mono n m b : (n <= m)%nat -> combos_ok n b = true -> combos_ok m b = true.
Proof.
  intros Hnm.
  induction b as [bs IH|tap hold IHt IHh|b Hb] using Binding_nested_ind; simpl.
  - induction IH as [|b bs Hb _ IHbs]; simpl; [done|].
    intros [H1 H2]%andb_prop. by rewrite Hb, IHbs.
  - intros [H1 H2]%andb_prop. by rewrite IHt, IHh.
  - destruct b; try done. destruct KeyCombo as [a|]; [|done].
    simpl. rewrite !bool_decide_eq_true. lia.
Qed.

Lemma safe_binding_mono n m b :
  (n <= m)%nat -> safe_binding n b = true -> safe_binding m b = true.
Proof.
  unfold safe_binding. intros Hnm [H1 H2]%andb_prop.
  by rewrite H1, (combos_ok_mono n m).
Qed.

Lemma bindings_ok_ext st st' :
  layers (heap st') = layers (heap st) ->
  (length (arrays (heap st)) <= length (arrays (heap st')))%nat ->
  bindings_ok st -> bindings_ok st'.
Proof.
  intros Hl Hn Hok L HL. rewrite Hl in HL. destruct (Hok L HL) as [Hm Hw]. split.
  - eapply map_Forall_impl; [exact Hm|]. intros c b. by apply safe_binding_mono.
  - by eapply safe_binding_mono.
Qed.

Lemma wf_ext st st' :
  view st' = view st ->
  (length (arrays (heap st)) <= length (arrays (heap st')))%nat ->
  wf st -> wf st'.
Proof.
  intros Hv Hn (Hin & Ha & Hok). split_and!.
  - by eapply in_config_view.
  - by eapply aligned_view.
  - eapply bindings_ok_ext; [|exact Hn|exact Hok].
    unfold view in Hv. by injection Hv.
Qed.

(** Executing a safe leaf in a well-formed state. *)
Lemma executeBinding_safe_leaf event b st :
  match b with MultiBinding _ | TapHoldBinding _ _ => False | _ => True end ->
  wf st ->
  safe_binding (length (arrays (heap st))) b = true ->
  exists st',
    executeBinding env event b st = Ok tt st' /\ wf st' /\
    (length (arrays (heap st)) <= length (arrays (heap st')))%nat.
Proof.
  intros Hleaf Hwf Hsafe.
  destruct (isPress event) eqn:Hp.
  2: { destruct (executeBinding_release env event Hp b st) as [l ->].
       eexists. split; [reflexivity|]. split; [|done]. by apply (wf_ext st). }
  pose proof Hwf as (Hin & Ha & Hok).
  destruct Hin as (cfg & Hc & Hlive & Hcur & Hprev).
  destruct b; try done; simpl in Hsafe.
  - (* nil *)
    eexists. split; [reflexivity|]. split; [|done]. by apply (wf_ext st).
  - (* Layer *)
    assert (exists st', executeBinding env event (LayerBinding layer) st = Ok tt st' /\
                        heap st' = heap st) as (st' & Hrun & Hh).
    { rewrite executeBinding_Layer_press, Hc by done.
      assert (Hh : heap (drop_toggles (add_log executing st)) = heap st)
        by (unfold drop_toggles; simpl; by destruct (toggleLayerPrevious st)).
      rewrite forLayers_lookup by (by rewrite Hh).
      destruct (lookupLayer _ _ _) as [[p L]|]; eexists; (split; [reflexivity|]); by simpl. }
    exists st'. split; [exact Hrun|]. split; [|by rewrite Hh]. split_and!.
    + eapply (in_config_leaf env event (LayerBinding layer) st); [done| |exact Hrun].
      by exists cfg.
    + by eapply (aligned_leaf env event (LayerBinding layer) st).
    + eapply bindings_ok_ext; [| |exact Hok]; by rewrite Hh.
  - (* ToggleLayer *)
    assert (exists st', executeBinding env event (ToggleLayerBinding layer) st = Ok tt st' /\
                        heap st' = heap st) as (st' & Hrun & Hh).
    { rewrite executeBinding_ToggleLayer_press, Hc by done.
      rewrite forLayers_lookup by done.
      destruct (lookupLayer _ _ _) as [[p L]|]; eexists; (split; [reflexivity|]); by simpl. }
    exists st'. split; [exact Hrun|]. split; [|by rewrite Hh]. split_and!.
    + eapply (in_config_leaf env event (ToggleLayerBinding layer) st); [done| |exact Hrun].
      by exists cfg.
    + by eapply (aligned_leaf env event (ToggleLayerBinding layer) st).
    + eapply bindings_ok_ext; [| |exact Hok]; by rewrite Hh.
  - (* Key *)
    assert (exists src, loadSlice KeyCombo st = Ok src st) as [src Hsrc].
    { unfold loadSlice. destruct KeyCombo as [a|]; [|by eexists].
      unfold safe_binding in Hsafe. simpl in Hsafe.
      apply bool_decide_eq_true in Hsafe.
      destruct (lookup_lt_is_Some_2 (arrays (heap st)) a Hsafe) as [l Hl].
      exists l. by rewrite Hl. }
    rewrite (executeBinding_Key_press env event KeyCombo src st Hp Hsrc).
    eexists. split; [reflexivity|]. split.
    + apply (wf_ext st); [done| |done]. simpl. rewrite length_app. lia.
    + simpl. rewrite length_app. lia.
  - (* Button *)
    simpl. rewrite Hp. eexists. split; [reflexivity|]. split; [|done]. by apply (wf_ext st).
  - (* Exec *)
    simpl. rewrite Hp. unfold bind, logf, emit, modify. simpl.
    destruct (cmdRun env _ _ _); eexists; (split; [reflexivity|]);
      (split; [|done]); by apply (wf_ext st).
  - eexists. split; [reflexivity|]. split; [|done]. by apply (wf_ext st).
  - eexists. split; [reflexivity|]. split; [|done]. by apply (wf_ext st).
  - eexists. split; [reflexivity|]. split; [|done]. by apply (wf_ext st).
  - eexists. split; [reflexivity|]. split; [|done]. by apply (wf_ext st).
Qed.

Lemma safe_binding_Multi n bs :
  safe_binding n (MultiBinding bs) = forallb (safe_binding n) bs.
Proof.
  unfold safe_binding, reload_free. simpl.
  induction bs as [|b bs IH]; simpl; [done|]. rewrite <- IH.
  by destruct (leaves _ b), (combos_ok n b), (forallb (leaves _) bs).
Qed.

Lemma safe_binding_TapHold n tap hold :
  safe_binding n (TapHoldBinding tap hold) = safe_binding n tap && safe_binding n hold.
Proof.
  unfold safe_binding, reload_free. simpl.
  by destruct (leaves _ tap), (leaves _ hold), (combos_ok n tap).
Qed.

Lemma executeBinding_safe b : forall event st,
  wf st ->
  safe_binding (length (arrays (heap st))) b = true ->
  exists st',
    executeBinding env event b st = Ok tt st' /\ wf st' /\
    (length (arrays (heap st)) <= length (arrays (heap st')))%nat.
Proof.
  induction b as [bs IH|tap hold IHt IHh|b Hb] using Binding_nested_ind;
    intros event st Hwf Hsafe.
  - rewrite executeBinding_Multi. rewrite safe_binding_Multi in Hsafe.
    assert (Hwf0 : wf (add_log executing st)) by (by apply (wf_ext st)).
    change (length (arrays (heap st))) with (length (arrays (heap (add_log executing st)))).
    change (length (arrays (heap st)))
      with (length (arrays (heap (add_log executing st)))) in Hsafe.
    revert Hwf0 Hsafe. generalize (add_log executing st). clear st Hwf.
    induction IH as [|b bs Hb _ IHbs]; intros st Hwf Hsafe.
    + by exists st.
    + simpl in Hsafe. apply andb_prop in Hsafe as [Hs1 Hs2].
      destruct (Hb event st Hwf Hs1) as (st1 & Hrun1 & Hwf1 & Hn1).
      destruct (IHbs st1 Hwf1) as (st2 & Hrun2 & Hwf2 & Hn2).
      { rewrite forallb_forall in Hs2. apply forallb_forall.
        intros x Hx. eapply safe_binding_mono; [exact Hn1|]. by apply Hs2. }
      exists st2. simpl. rewrite (bind_Ok _ _ st tt st1) by done.
      split; [done|]. split; [done|lia].
  - rewrite executeBinding_TapHold. rewrite safe_binding_TapHold in Hsafe.
    assert (Hwf0 : wf (add_log executing st)) by (by apply (wf_ext st)).
    apply andb_prop in Hsafe as [Hs1 Hs2].
    destruct (holdKey event).
    + destruct (IHh event _ Hwf0 Hs2) as (st' & ? & ? & ?). by exists st'.
    + destruct (IHt event _ Hwf0 Hs1) as (st' & ? & ? & ?). by exists st'.
  - by apply executeBinding_safe_leaf.
Qed.

(** Resolution as one case distinction, [config.Layers[0]] being live. *)
Lemma resolveBinding_cases event L st cfg l0 L0 :
  config st = Some cfg ->
  Layers cfg !! 0%nat = Some l0 ->
  layerAt (heap st) l0 = Some L0 ->
  resolveBinding event L st =
    let b1 := if is_nil (exact_binding event L) && bool_decide (bails_out event st l0)
              then LayerBinding (Name L0) else exact_binding event L in
    let b2 := if is_nil b1 && negb (is_nil (WildcardBinding L))
              then WildcardBinding L else b1 in
    if is_nil b2 && PassThrough L
    then Ok (KeyBinding (Some (length (arrays (heap st)))))
            (set_arrays (arrays (heap st) ++ [[code event]]) st)
    else Ok b2 st.
Proof.
  intros Hc Hl0 HL0. unfold resolveBinding. fold (exact_binding event L).
  set (b := exact_binding event L).
  assert (Hstep :
    (if is_nil b && bool_decide (code event = KEY_ESC) && isPress event
     then (st0 <- get ;; cfg0 <- derefConfig ;; l1 <- index (Layers cfg0) 0 ;;
           if bool_decide (currentLayer st0 <> l1)
           then L1 <- derefLayer l1 ;; ret (LayerBinding (Name L1))
           else ret b)%m
     else ret b) st =
    Ok (if is_nil b && bool_decide (bails_out event st l0)
        then LayerBinding (Name L0) else b) st).
  { destruct (is_nil b); [|done]. cbn [andb].
    destruct (decide (bails_out event st l0)) as [(He & Hp & Hne)|Hn].
    - rewrite (bool_decide_eq_true_2 (bails_out event st l0)) by done.
      rewrite (bool_decide_eq_true_2 (code event = KEY_ESC)), Hp by done. cbn [andb].
      rewrite bind_get.
      rewrite (bind_Ok _ _ st cfg st) by (unfold derefConfig; by rewrite Hc).
      rewrite (bind_Ok _ _ st l0 st) by (unfold index; by rewrite Hl0).
      rewrite bool_decide_eq_true_2 by done.
      by rewrite (bind_Ok _ _ st L0 st) by (unfold derefLayer; by rewrite HL0).
    - rewrite (bool_decide_eq_false_2 (bails_out event st l0)) by done.
      case_bool_decide as He; [|done].
      destruct (isPress event) eqn:Hp; [|done]. cbn [andb].
      rewrite bind_get.
      rewrite (bind_Ok _ _ st cfg st) by (unfold derefConfig; by rewrite Hc).
      rewrite (bind_Ok _ _ st l0 st) by (unfold index; by rewrite Hl0).
      rewrite bool_decide_eq_false_2; [done|].
      intros Hne. by apply Hn. }
  rewrite (bind_Ok _ _ st _ st Hstep). cbv zeta.
  by destruct (_ && PassThrough L).
Qed.

Lemma resolveBinding_safe event L st :
  wf st ->
  layerAt (heap st) (currentLayer st) = Some L ->
  exists b st1,
    resolveBinding event L st = Ok b st1 /\ wf st1 /\
    safe_binding (length (arrays (heap st1))) b = true.
Proof.
  intros Hwf HL. pose proof Hwf as ((cfg & Hc & Hlive & Hcur & Hprev) & Ha & Hok).
  destruct (Layers cfg) as [|l0 ls] eqn:Hls; [by apply elem_of_nil in Hcur|].
  assert (exists L0, layerAt (heap st) l0 = Some L0) as [L0 HL0]
    by (by inversion Hlive).
  rewrite (resolveBinding_cases event L st cfg l0 L0 Hc) by (by rewrite ?Hls).
  assert (HLin : L ∈ layers (heap st)).
  { unfold layerAt in HL. destruct (currentLayer st) as [a|]; [|done].
    by eapply list_elem_of_lookup_2. }
  destruct (Hok L HLin) as [Hmap Hwild].
  assert (Hexact : safe_binding (length (arrays (heap st))) (exact_binding event L) = true).
  { unfold exact_binding. destruct (Bindings L !! code event) as [b|] eqn:Hb; [|done].
    exact (Hmap _ _ Hb). }
  cbv zeta.
  set (b1 := if _ && bool_decide _ then _ else _).
  assert (Hb1 : safe_binding (length (arrays (heap st))) b1 = true)
    by (unfold b1; by destruct (_ && bool_decide _)).
  set (b2 := if is_nil b1 && _ then _ else _).
  assert (Hb2 : safe_binding (length (arrays (heap st))) b2 = true)
    by (unfold b2; by destruct (is_nil b1 && _)).
  destruct (is_nil b2 && PassThrough L).
  - eexists _, _. split; [reflexivity|]. split.
    + apply (wf_ext st); [done| |done]. simpl. rewrite length_app. lia.
    + unfold safe_binding. simpl. rewrite length_app. simpl.
      apply bool_decide_eq_true. lia.
  - by exists b2, st.
Qed.

Lemma findKey_Some c keys : forall n i,
  findKey c keys n = Some i ->
  exists j, i = (n + j)%nat /\ keys !! j = Some c.
Proof.
  induction keys as [|key keys IH]; intros n i; [done|].
  simpl. case_bool_decide as Hk.
  - intros [= <-]. exists 0%nat. split; [lia|]. by rewrite Hk.
  - intros (j & -> & Hj)%IH. exists (S j). split; [lia|done].
Qed.

(** One key event in a well-formed state. *)
Lemma handleKey_safe event st :
  wf st -> exists st', handleKey env event st = Ok tt st' /\ wf st'.
Proof.
  intros Hwf.
  destruct (in_config_live st (proj1 Hwf)) as [L HL].
  destruct (resolveBinding_safe event L st Hwf HL) as (b & st1 & Hr & Hwf1 & Hsafe).
  unfold handleKey. rewrite bind_get.
  rewrite (bind_Ok _ _ st L st) by (unfold derefLayer; by rewrite HL).
  rewrite (bind_Ok _ _ st b st1) by done.
  destruct (isPress event) eqn:Hp; cbn [negb].
  - rewrite (bind_Ok _ _ st1 tt st1) by done.
    rewrite (bind_Ok _ _ st1 tt st1) by done.
    destruct (executeBinding_safe b event st1 Hwf1 Hsafe) as (st' & Hrun & Hwf' & _).
    by exists st'.
  - assert (exists st2,
      (st0 <- get ;;
       match findKey (code event) (slice_elems (toggleLayerKeys st0)) 0 with
       | Some i =>
         prev <- index (slice_elems (toggleLayerPrevious st0)) i ;;
         modify (set_currentLayer prev) ;;
         P <- derefLayer prev ;;
         logf DebugLevel "Switching to layer %v" [ArgString (Name P)] ;;
         modify (set_toggleLayerKeys (slice_upto i (toggleLayerKeys st0))) ;;
         modify (set_toggleLayerPrevious (slice_upto i (toggleLayerPrevious st0)))
       | None => ret tt
       end)%m st1 = Ok tt st2 /\ wf st2 /\ heap st2 = heap st1)
      as (st2 & Hblock & Hwf2 & Hh2).
    { rewrite bind_get.
      destruct (findKey _ _ _) as [i|] eqn:Hfind; [|by exists st1].
      apply findKey_Some in Hfind as (j & -> & Hj). simpl.
      pose proof Hwf1 as ((cfg & Hc & Hlive & Hcur & Hprev) & Ha & Hok).
      assert (exists q, slice_elems (toggleLayerPrevious st1) !! j = Some q) as [q Hq].
      { apply lookup_lt_is_Some_2. unfold aligned, slice_len in Ha. rewrite <- Ha.
        by eapply lookup_lt_Some. }
      assert (exists Lq, layerAt (heap st1) q = Some Lq) as [Lq HLq].
      { unfold all_live in Hlive. rewrite Forall_forall in Hlive. apply Hlive.
        rewrite Forall_forall in Hprev. apply Hprev. by eapply list_elem_of_lookup_2. }
      rewrite (bind_Ok _ _ st1 q st1) by (unfold index; by rewrite Hq).
      unfold bind, modify, logf, derefLayer. simpl. rewrite HLq.
      eexists. split; [reflexivity|]. split; [|done]. split_and!.
      - eapply in_config_view; [|exact (in_config_release st1 j q Hq (proj1 Hwf1))]. done.
      - eapply aligned_view; [|exact (aligned_release st1 j q Hq Ha)]. done.
      - eapply bindings_ok_ext; [| |exact Hok]; done. }
    rewrite (bind_Ok _ _ st1 tt st2) by done.
    rewrite (bind_Ok _ _ st2 tt
               (add_effect (MouseOriginalKeyUp (code event))
                  (add_effect (KeyboardOriginalKeyUp (code event)) st2))) by done.
    destruct (executeBinding_safe b event
                (add_effect (MouseOriginalKeyUp (code event))
                   (add_effect (KeyboardOriginalKeyUp (code event)) st2)))
      as (st' & Hrun & Hwf' & _).
    + by apply (wf_ext st2).
    + simpl. by rewrite Hh2.
    + by exists st'.
Qed.

Lemma checkDevices_safe devices st :
  wf st -> exists st', checkDevices devices st = Ok tt st' /\ wf st'.
Proof.
  intros Hwf. unfold checkDevices. rewrite oneDeviceOpen_exists. simpl.
  destruct (existsb Keyboard.IsOpen devices); simpl; [by exists st|].
  unfold bind at 1. unfold logf at 1, modify. unfold bind.
  pose proof (device_lines devices 0) as Hlines. cbn [Z.of_nat] in Hlines.
  rewrite Hlines. eexists. split; [reflexivity|]. by apply (wf_ext st).
Qed.

Lemma mouseTick_safe pressed st :
  wf st -> exists d st', mouseTick env pressed st = Ok d st' /\ wf st'.
Proof.
  intros Hwf. pose proof Hwf as (Hin & _).
  destruct (in_config_live st Hin) as [L HL]. destruct Hin as (cfg & Hc & _).
  unfold mouseTick.
  rewrite bind_get. rewrite (bind_Ok _ _ st L st) by (unfold derefLayer; by rewrite HL).
  cbv zeta. destruct (_ || IsMoving env (effects st)).
  - rewrite (bind_Ok _ _ st cfg st) by (unfold derefConfig; by rewrite Hc).
    eexists _, _. split; [reflexivity|]. by apply (wf_ext st).
  - by exists MaxInt64, st.
Qed.

Lemma mainLoop_body_safe event devices pressed st :
  wf st -> exists d st', mainLoop_body env event devices pressed st = Ok d st' /\ wf st'.
Proof.
  intros Hwf. unfold mainLoop_body.
  assert (exists st1, match event with Some e => handleKey env e | None => ret tt end st
                      = Ok tt st1 /\ wf st1) as (st1 & Hrun1 & Hwf1).
  { destruct event as [e|]; [by apply handleKey_safe|by exists st]. }
  destruct (checkDevices_safe devices st1 Hwf1) as (st2 & Hrun2 & Hwf2).
  destruct (mouseTick_safe pressed st2 Hwf2) as (d & st' & Hrun & Hwf').
  exists d, st'. split; [|done].
  rewrite (bind_Ok _ _ st tt st1) by done. by rewrite (bind_Ok _ _ st1 tt st2).
Qed.

Lemma mainLoop_safe turns : forall st,
  wf st -> exists st', mainLoop env turns st = Ok tt st' /\ wf st'.
Proof.
  induction turns as [|[[event devices] pressed] turns IH]; intros st Hwf.
  - by exists st.
  - destruct (mainLoop_body_safe event devices pressed st Hwf) as (d & st1 & Hrun & Hwf1).
    destruct (IH st1 Hwf1) as (st' & Hrun' & Hwf').
    exists st'. simpl. by rewrite (bind_Ok _ _ st d st1).
Qed.

(** X13.  In a well-formed state (the configuration's layers are live,
    [currentLayer] and the layers on the stack are among them, the two
    stacks have the same length, and no binding of any layer contains
    [ReloadConfig] or a dangling key combo), the main loop goes on for ever:
    whatever the key events, the held keys, the devices' states, the results
    of the commands of [Exec] bindings and the motion the mouse reports,
    every turn returns, none panics or exits, and the state is well-formed
    again after it. *)
Theorem mainLoop_never_stops turns st :
  wf st ->
  exists st', mainLoop env turns st = Ok tt st' /\ wf st'.
Proof. apply mainLoop_safe. Qed.

(** X15.  [loadConfig] establishes well-formedness.  Let the two toggle
    stacks be nil, as they are when [main] calls [loadConfig], and let the
    parser return, without an error, a configuration with at least one layer
    whose layers are all live and none of whose bindings contains
    [ReloadConfig] or a dangling key combo.  Then [loadConfig] returns, in a
    well-formed state; and from every state that has the interpreter's
    variables and the [Layer] objects as [loadConfig] left them, and at least
    its arrays, every sequence of turns of [mainLoop] returns.  The steps of
    [main] between the two calls, which can exit, are not part of this. *)
Theorem loadConfig_establishes_wf st cfg h :
  toggleLayerKeys st = None ->
  toggleLayerPrevious st = None ->
  readConfig env (configFile st) (heap st) = (Some cfg, None, h) ->
  Layers cfg <> [] ->
  all_live h (Layers cfg) ->
  (forall L, L ∈ layers h ->
     map_Forall (fun _ b => safe_binding (length (arrays h)) b = true) (Bindings L) /\
     safe_binding (length (arrays h)) (WildcardBinding L) = true) ->
  exists st1,
    loadConfig env st = Ok tt st1 /\ wf st1 /\
    forall st2 turns,
      view st2 = view st1 ->
      (length (arrays (heap st1)) <= length (arrays (heap st2)))%nat ->
      exists st', mainLoop env turns st2 = Ok tt st' /\ wf st'.
Proof.
  intros Hk Hp Hr Hne Hlive Hok.
  destruct (Layers cfg) as [|l0 ls] eqn:Hls; [done|].
  assert (exists L0, layerAt h l0 = Some L0) as [L0 HL0].
  { unfold all_live in Hlive. by apply Forall_cons_1 in Hlive as [? _]. }
  set (st1 := add_log (mkLog DebugLevel "Switching to initial layer %s" [ArgString (Name L0)])
                      (set_currentLayer l0 (set_config (Some cfg) (set_heap h st)))).
  assert (Hload : loadConfig env st = Ok tt st1).
  { unfold loadConfig. rewrite bind_get, Hr.
    unfold bind, derefConfig, index, derefLayer. simpl. rewrite Hls. simpl. by rewrite HL0. }
  assert (Hwf : wf st1).
  { split_and!.
    - exists cfg. simpl. split; [done|]. rewrite Hls. split; [done|].
      split; [left|]. rewrite Hp. constructor.
    - unfold aligned. simpl. by rewrite Hk, Hp.
    - intros L HL. simpl in *. by apply Hok. }
  exists st1. split; [done|]. split; [done|].
  intros st2 turns Hv Hn. apply mainLoop_safe. by apply (wf_ext st1).
Qed.

End Safety.

Lemma plain_fixture_wf : wf PlainFixture.st0.
Proof.
  split_and!.
  - eexists. split; [reflexivity|]. split; [repeat constructor; by eexists|].
    split; [left|constructor].
  - reflexivity.
  - intros L HL. simpl in HL.
    apply elem_of_cons in HL as [->|HL]; [|apply list_elem_of_singleton in HL as ->].
    + split; [|reflexivity]. intros c b Hb. simpl in Hb.
      repeat (apply lookup_insert_Some in Hb as [[_ <-]|[_ Hb]]; [reflexivity|]).
      by apply lookup_singleton_Some in Hb as [_ <-].
    + split; [|reflexivity]. intros c b Hb. simpl in Hb.
      by apply lookup_singleton_Some in Hb as [_ <-].
Defined.

(** X13, on an instance: CapsLock down, Escape, A down and up (its command
    fails), a timer turn with J held and no device open, Z held and released,
    CapsLock up, a key never bound. *)
Lemma mainLoop_never_stops_witness :
  let open := [Keyboard.mkDevice "/dev/input/event3"
                 (Some (Keyboard.mkInputDevice "AT keyboard" 65537 17 1 1 43841))
                 Keyboard.StateOpen ""] in
  let key (e : Mouseless.KeyboardEvent) : Main.Turn := (Some e, open, fun _ => false) in
  exists st',
    Main.mainLoop PlainFixture.env
      [key (Fixture.press 58); key (Fixture.press KEY_ESC); key (Fixture.press 30);
       key (Fixture.release 30);
       (None, [Keyboard.NewKeyboardDevice "/dev/input/event3"], fun c => bool_decide (c = 36));
       key (Mouseless.mkKeyboardEvent 44 true true); key (Fixture.release 44);
       key (Fixture.release 58); key (Fixture.press 200)] PlainFixture.st0
    = Mouseless.Ok tt st' /\ wf st'.
Proof. intros open key. exact (mainLoop_never_stops PlainFixture.env _ _ plain_fixture_wf). Defined.

(** X15, on an instance: the configuration without [ReloadConfig] is read at
    start-up; then CapsLock down, J down, a timer turn with J held, J up,
    CapsLock up. *)
Lemma loadConfig_establishes_wf_witness :
  let open := [Keyboard.mkDevice "/dev/input/event3"
                 (Some (Keyboard.mkInputDevice "AT keyboard" 65537 17 1 1 43841))
                 Keyboard.StateOpen ""] in
  let key (e : Mouseless.KeyboardEvent) : Main.Turn :=
    (Some e, open, fun c => bool_decide (c = 36) && Mouseless.isPress e) in
  exists st1 st',
    Mouseless.loadConfig PlainFixture.env Fixture.st_boot = Mouseless.Ok tt st1 /\
    wf st1 /\
    Main.mainLoop PlainFixture.env
      [key (Fixture.press 58); key (Fixture.press 36);
       (None, open, fun c => bool_decide (c = 36));
       key (Fixture.release 36); key (Fixture.release 58)] st1
    = Mouseless.Ok tt st' /\ wf st'.
Proof.
  intros open key.
  destruct (loadConfig_establishes_wf PlainFixture.env Fixture.st_boot PlainFixture.config0
              PlainFixture.heap0 eq_refl eq_refl eq_refl)
    as (st1 & Hload & Hwf & Hrun).
  - discriminate.
  - repeat constructor; by eexists.
  - exact (proj2 (proj2 plain_fixture_wf)).
  - destruct (Hrun st1 [key (Fixture.press 58); key (Fixture.press 36);
                        (None, open, fun c => bool_decide (c = 36));
                        key (Fixture.release 36); key (Fixture.release 58)]
                   eq_refl (le_n _)) as (st' & Hloop & Hwf').
    exists st1, st'. split; [exact Hload|]. split; [exact Hwf|]. split; [exact Hloop|exact Hwf'].
Defined.

(** * Keyboard detection *)

Section KeyboardDetection.

Import Mouseless Main.

Variable ListInputDevices : string -> slice Evdev.InputDevice * option string.

(** ** What is detected *)

Definition keyboard_code (code : Evdev.CapabilityCode) : bool :=
  bool_decide (Evdev.Code code = KEY_A) || bool_decide (Evdev.Code code = KEY_KP1).

Definition key_capability (entry : Evdev.CapabilityType * list Evdev.CapabilityCode) : bool :=
  bool_decide (Evdev.cap_Type entry.1 = EV_KEY).

(** A capability of type [EV_KEY] with the A key or the 1 key of the keypad
    among its codes. *)
Definition keyboard_capability
    (entry : Evdev.CapabilityType * list Evdev.CapabilityCode) : bool :=
  key_capability entry && existsb keyboard_code entry.2.

Definition is_keyboard (dev : Evdev.InputDevice) : bool :=
  existsb keyboard_capability (Evdev.Capabilities dev).

(** How often a device is appended: once for each such capability. *)
Definition detections (dev : Evdev.InputDevice) : nat :=
  length (filter (fun entry => keyboard_capability entry = true) (Evdev.Capabilities dev)).

Definition detected_line (dev : Evdev.InputDevice) : LogEntry :=
  mkLog DebugLevel ("- %s: %s" ++ line_feed)%string [ArgString (Evdev.Fn dev); ArgString (Evdev.Name dev)].

Lemma scanCodes_spec dev codes kds :
  scanCodes dev codes kds =
    if existsb keyboard_code codes then slice_append kds dev else kds.
Proof.
  induction codes as [|code codes IH]; simpl; [done|].
  unfold keyboard_code at 1. by destruct (_ || _).
Qed.

Lemma scan_entries dev entries : forall kds,
  slice_elems
    (foldl (fun keyboardDevices '(capType, codes) =>
              if bool_decide (Evdev.cap_Type capType = EV_KEY)
              then scanCodes dev codes keyboardDevices
              else keyboardDevices) kds entries)
  = slice_elems kds
      ++ replicate (length (filter (fun entry => keyboard_capability entry = true) entries)) dev.
Proof.
  induction entries as [|[capType codes] entries IH]; intros kds; simpl.
  - by rewrite app_nil_r.
  - rewrite IH, filter_cons, scanCodes_spec.
    destruct (keyboard_capability (capType, codes)) eqn:He;
      unfold keyboard_capability, key_capability in He; simpl in He.
    + apply andb_prop in He as [-> ->]. rewrite decide_True by done.
      unfold slice_append. simpl. by rewrite <- app_assoc.
    + rewrite decide_False by done.
      destruct (bool_decide (Evdev.cap_Type capType = EV_KEY)); [|done].
      simpl in He. by rewrite He.
Qed.

Lemma scanCapabilities_spec dev kds :
  slice_elems (scanCapabilities dev kds) = slice_elems kds ++ replicate (detections dev) dev.
Proof. apply scan_entries. Qed.

Lemma scan_devices devices : forall kds,
  slice_elems (foldl (fun keyboardDevices dev => scanCapabilities dev keyboardDevices)
                     kds devices)
  = slice_elems kds ++ (devices ≫= fun dev => replicate (detections dev) dev).
Proof.
  induction devices as [|dev devices IH]; intros kds; simpl.
  - by rewrite app_nil_r.
  - by rewrite IH, scanCapabilities_spec, <- app_assoc.
Qed.

(** The slice stays nil as long as nothing is appended. *)
Lemma scan_devices_nil devices : forall kds,
  foldl (fun keyboardDevices dev => scanCapabilities dev keyboardDevices) kds devices = None <->
  kds = None /\ Forall (fun dev => is_keyboard dev = false) devices.
Proof.
  induction devices as [|dev devices IH]; intros kds; simpl.
  - split; [by intros ->|by intros [-> _]].
  - rewrite IH, Forall_cons.
    assert (Hone : scanCapabilities dev kds = None <-> kds = None /\ is_keyboard dev = false).
    { unfold scanCapabilities, is_keyboard. clear IH.
      generalize dependent kds.
      induction (Evdev.Capabilities dev) as [|[capType codes] entries IHe]; intros kds; simpl.
      - split; [by intros ->|by intros [-> _]].
      - rewrite IHe, scanCodes_spec.
        destruct (keyboard_capability (capType, codes)) eqn:He;
          unfold keyboard_capability, key_capability in He; simpl in He.
        + apply andb_prop in He as [-> ->]. simpl.
          unfold slice_append. split; [by intros [? _]|by intros [_ ?]].
        + simpl. destruct (bool_decide (Evdev.cap_Type capType = EV_KEY)); [|done].
          simpl in He. by rewrite He. }
    rewrite Hone. tauto.
Qed.

Lemma detections_pos dev : (0 < detections dev)%nat <-> is_keyboard dev = true.
Proof.
  unfold detections, is_keyboard.
  induction (Evdev.Capabilities dev) as [|entry entries IH]; simpl; [split; [lia|done]|].
  rewrite filter_cons. destruct (decide (keyboard_capability entry = true)) as [He|He].
  - rewrite He. simpl. split; [done|lia].
  - apply not_true_is_false in He. rewrite He. exact IH.
Qed.

Lemma detected_lines devs st :
  foldr (fun dev rest =>
           (logf DebugLevel ("- %s: %s" ++ line_feed)%string
                 [ArgString (Evdev.Fn dev); ArgString (Evdev.Name dev)] ;;
            rest)%m)
        (ret tt) devs st
  = Ok tt (with_logs (detected_line <$> devs) st).
Proof.
  revert st. induction devs as [|dev devs IH]; intros st; simpl.
  - by rewrite with_logs_nil.
  - unfold bind, logf, modify. rewrite add_log_with_logs, IH, with_logs_app. reflexivity.
Qed.

(** X14.  [findKeyboardDevices] always returns, whatever
    [evdev.ListInputDevices] yields (its error is dropped), and changes
    nothing but the log, which gets a header and one line for each element of
    the result, in order.  A device is in the result exactly when it is listed
    and has a capability of type [EV_KEY] whose codes include [KEY_A] (30) or
    [KEY_KP1] (79); the digit row ([KEY_1], 2) does not count.  The result
    keeps the order of the listing and holds a device once for each such
    capability, so it does not depend on the order in which the maps are
    visited; with at most one [EV_KEY] capability per device it is the
    listing filtered.  It is the nil slice exactly when nothing is
    detected. *)
Theorem findKeyboardDevices_detects st :
  let devices := slice_elems (ListInputDevices "/dev/input/event*").1 in
  exists kds,
    findKeyboardDevices ListInputDevices st =
      Ok kds (with_logs (mkLog DebugLevel "Auto detected keyboard devices:" []
                         :: (detected_line <$> slice_elems kds)) st) /\
    slice_elems kds = (devices ≫= fun dev => replicate (detections dev) dev) /\
    (forall dev, dev ∈ slice_elems kds <-> dev ∈ devices /\ is_keyboard dev = true) /\
    (Forall (fun dev => length (filter (fun entry => key_capability entry = true)
                                       (Evdev.Capabilities dev)) <= 1)%nat devices ->
     slice_elems kds = filter (fun dev => is_keyboard dev = true) devices) /\
    (forall devices',
       Forall2 (fun dev dev' => dev' = dev \/
                  (Evdev.Fn dev' = Evdev.Fn dev /\ Evdev.Name dev' = Evdev.Name dev /\
                   Evdev.Capabilities dev' ≡ₚ Evdev.Capabilities dev)) devices devices' ->
       detected_line <$> (devices' ≫= fun dev => replicate (detections dev) dev)
       = detected_line <$> slice_elems kds) /\
    (kds = None <-> Forall (fun dev => is_keyboard dev = false) devices).
Proof.
  intros devices. unfold findKeyboardDevices. subst devices.
  destruct (ListInputDevices "/dev/input/event*") as [devices err]. simpl.
  set (kds := foldl (fun keyboardDevices dev => scanCapabilities dev keyboardDevices)
                    None (slice_elems devices)).
  exists kds.
  assert (Helems : slice_elems kds
                   = slice_elems devices ≫= fun dev => replicate (detections dev) dev)
    by (subst kds; by rewrite scan_devices).
  split_and!.
  - unfold bind at 1. unfold logf at 1, modify. rewrite add_log_with_logs.
    unfold bind. rewrite detected_lines, with_logs_app. reflexivity.
  - exact Helems.
  - intros dev. rewrite Helems, list_elem_of_bind. split.
    + intros (dev' & Hin & Hdev). apply elem_of_replicate in Hin as [-> Hn].
      split; [done|]. apply detections_pos. lia.
    + intros [Hdev Hk]. exists dev. split; [|done].
      apply elem_of_replicate. split; [done|]. apply detections_pos in Hk. lia.
  - intros Hone. rewrite Helems. clear kds Helems.
    induction Hone as [|dev devs Hdev _ IH]; [done|].
    rewrite bind_cons, filter_cons, IH.
    destruct (is_keyboard dev) eqn:Hk.
    + rewrite decide_True by done.
      assert (detections dev = 1%nat) as ->; [|done].
      apply detections_pos in Hk.
      assert (detections dev <= length (filter (fun entry => key_capability entry = true)
                                               (Evdev.Capabilities dev)))%nat; [|lia].
      unfold detections. clear.
      induction (Evdev.Capabilities dev) as [|entry entries IHe]; [done|].
      rewrite !filter_cons.
      destruct (decide (keyboard_capability entry = true)) as [He|He];
        destruct (decide (key_capability entry = true)) as [Hk|Hk]; simpl; try lia.
      unfold keyboard_capability in He. apply andb_prop in He as [He _]. done.
    + rewrite decide_False by done.
      assert (detections dev = 0%nat) as ->; [|done].
      destruct (detections dev) eqn:Hn; [done|].
      assert (is_keyboard dev = true) by (apply detections_pos; lia). congruence.
  - intros devices' Hperm. rewrite Helems. clear kds Helems.
    induction Hperm as [|dev dev' devs devs' Hd _ IH]; [done|].
    rewrite !bind_cons, !fmap_app, IH. f_equal.
    destruct Hd as [->|(Hfn & Hname & Hcaps)]; [done|].
    assert (detections dev' = detections dev) as ->.
    { unfold detections. by rewrite Hcaps. }
    rewrite !fmap_replicate. f_equal. unfold detected_line. by rewrite Hfn, Hname.
  - subst kds. rewrite scan_devices_nil. split; [by intros [_ ?]|done].
Qed.

End KeyboardDetection.

(** X14, on an instance: a keyboard, a mouse (buttons only), a keypad, a
    device with the digit row but no A key, and a device of another instance
    of the program. *)
Lemma findKeyboardDevices_detects_witness :
  let key := Evdev.mkCapabilityType 1 "EV_KEY" in
  let rel := Evdev.mkCapabilityType 2 "EV_REL" in
  let code c := Evdev.mkCapabilityCode c "" in
  let kbd := Evdev.mkInputDevice "/dev/input/event3" "AT keyboard"
               [(Evdev.mkCapabilityType 17 "EV_LED", [code 0; code 1]);
                (key, [code 1; code 2; code 30; code 31; code 79])] in
  let mice := Evdev.mkInputDevice "/dev/input/event5" "USB mouse"
               [(key, [code 272; code 273]); (rel, [code 0; code 1])] in
  let pad := Evdev.mkInputDevice "/dev/input/event7" "keypad" [(key, [code 79; code 80])] in
  let digits := Evdev.mkInputDevice "/dev/input/event8" "digits" [(key, [code 2; code 3])] in
  let other := Evdev.mkInputDevice "/dev/input/event9" "mouseless" [(key, [code 30])] in
  exists kds,
    Main.findKeyboardDevices
      (fun _ => (Some [kbd; mice; pad; digits; other], Some "permission denied"%string))
      Fixture.st0
    = Mouseless.Ok kds
        (with_logs (mkLog DebugLevel "Auto detected keyboard devices:" []
                    :: (detected_line <$> Mouseless.slice_elems kds)) Fixture.st0) /\
    Mouseless.slice_elems kds = [kbd; pad; other].
Proof.
  intros key rel code kbd mice pad digits other.
  destruct (findKeyboardDevices_detects
              (fun _ => (Some [kbd; mice; pad; digits; other], Some "permission denied"%string))
              Fixture.st0)
    as (kds & Hrun & Helems & _).
  exists kds. split; [exact Hrun|exact Helems].
Defined.
